(** * Saint: the test-execution core (mcpExecutor.js, streamingService.js)

    A shallow embedding of the execution orchestration code of the Saint
    back end: the summary tally over the structured result document, the
    artifact renaming rule, the connection registry of the streaming
    service, the process runner, result post-processing, the per-execution
    pipeline of [executeTestNow] and the bounded scheduler of
    [executeTest] / [processQueue]; and, beside it, the test and result
    store (testManager.js) and the run configuration derived from a
    prompt (aiTestGenerator.js).

    Conventions of the embedding.
    - JavaScript objects are records; optional (possibly [undefined])
      fields are [option]s; a [Map] keyed by strings is a [gmap string _]
      where only lookups and the size matter, and an association list in
      insertion order where [forEach] visits it.
    - An operation that may throw returns a [Completion]; a promise is
      represented by its settlement ([Resolved] / [Rejected]).
    - What the operating system, npm, the file system and the clock
      answer during one execution is gathered in a [Scenario] record that
      the functions take as an argument. *)

From Stdlib Require Import ZArith QArith Ascii String.
From stdpp Require Import gmap strings list.

Local Set Warnings "-register-all".
Local Open Scope string_scope.

(** ** Completions *)

Inductive Completion (A : Type) : Type :=
  | Normal (a : A)
  | Throw (message : string).
Arguments Normal {A} a.
Arguments Throw {A} message.

(** Settlement of a promise. *)
Inductive Settlement (A : Type) : Type :=
  | Resolved (a : A)
  | Rejected (message : string).
Arguments Resolved {A} a.
Arguments Rejected {A} message.

(** [new Date()] is a number of milliseconds; [toISOString()] renders
    it.  The rendering is kept symbolic. *)
Inductive IsoString : Type := ISO (ms : Z).

(** ** The structured result document (results.json) *)

Module Summary.

Record TestEntry : Type := mkTest { outcome : string }.

Record SpecEntry : Type := mkSpec { tests : option (list TestEntry) }.

Inductive Suite : Type :=
  mkSuite { specs : option (list SpecEntry); suites : option (list Suite) }.

Record ResultsDoc : Type := mkDoc { doc_suites : option (list Suite) }.

(** The four counters of the summary object that [countTestResults]
    increments in place. *)
Record Counts : Type := mkCounts {
  testCount : nat;
  passedCount : nat;
  failedCount : nat;
  skippedCount : nat
}.

Definition zeroCounts : Counts := mkCounts 0 0 0 0.

(** Body of the innermost loop: lines 493-501. *)
Definition countTest (summary : Counts) (test : TestEntry) : Counts :=
  let 'mkCounts t p f s := summary in
  let t := S t in
  if String.eqb (outcome test) "expected" then mkCounts t (S p) f s
  else if String.eqb (outcome test) "unexpected" then mkCounts t p (S f) s
  else if String.eqb (outcome test) "skipped" then mkCounts t p f (S s)
  else mkCounts t p f s.

(** [for (const spec of suite.specs) if (spec.tests) for (const test ...)] *)
Definition countSpec (summary : Counts) (spec : SpecEntry) : Counts :=
  match tests spec with
  | Some ts => fold_left countTest ts summary
  | None => summary
  end.

Definition countSpecs (summary : Counts) (sp : option (list SpecEntry)) : Counts :=
  match sp with
  | Some l => fold_left countSpec l summary
  | None => summary
  end.

(** One iteration of the outer loop of [countTestResults]; the recursive
    call on [suite.suites] is the same loop one level down. *)
Fixpoint countSuite (suite : Suite) (summary : Counts) : Counts :=
  let summary1 := countSpecs summary (specs suite) in
  match suites suite with
  | Some subs => fold_left (fun acc s => countSuite s acc) subs summary1
  | None => summary1
  end.

Definition countTestResults (ss : list Suite) (summary : Counts) : Counts :=
  fold_left (fun acc s => countSuite s acc) ss summary.

(** Artifact manifest: only the lengths of the four arrays are read by
    the summary. *)
Record ArtifactCounts : Type := mkArtifactCounts {
  n_screenshots : nat; n_videos : nat; n_traces : nat; n_reports : nat
}.

Record Performance : Type := mkPerformance {
  executionTime : Z;
  avgTestTime : Q
}.

Record ExecutionSummary : Type := mkSummary {
  sum_status : string;
  sum_duration : Z;
  sum_exitCode : option Z;
  sum_counts : Counts;
  artifactCounts : ArtifactCounts;
  performance : Performance
}.

(** [result.duration / summary.testCount], with the quotient kept exact. *)
Definition average (duration : Z) (n : nat) : Q :=
  match n with
  | O => 0%Q
  | S _ => Qmake duration (Pos.of_nat n)
  end.

(** [generateExecutionSummary], lines 456-485, over the fields of the
    result it reads. *)
Definition generateExecutionSummary
    (status : string) (duration : Z) (exitCode : option Z)
    (artifacts : option ArtifactCounts) (detailedResults : option ResultsDoc)
    : ExecutionSummary :=
  let counts :=
    match detailedResults with
    | Some doc =>
        match doc_suites doc with
        | Some ss => countTestResults ss zeroCounts
        | None => zeroCounts
        end
    | None => zeroCounts
    end in
  {| sum_status := status;
     sum_duration := duration;
     sum_exitCode := exitCode;
     sum_counts := counts;
     artifactCounts := default (mkArtifactCounts 0 0 0 0) artifacts;
     performance := mkPerformance duration (average duration (testCount counts)) |}.

(** *** Leaves of the suite tree *)

Definition specTests (spec : SpecEntry) : list TestEntry :=
  default [] (tests spec).

Fixpoint leafTests (suite : Suite) : list TestEntry :=
  flat_map specTests (default [] (specs suite)) ++
  match suites suite with
  | Some subs => flat_map leafTests subs
  | None => []
  end.

Definition docTests (ss : list Suite) : list TestEntry := flat_map leafTests ss.

Definition hasOutcome (o : string) (t : TestEntry) : bool := String.eqb (outcome t) o.

Definition countOutcome (o : string) (ts : list TestEntry) : nat :=
  length (List.filter (hasOutcome o) ts).

(** The counters a list of leaf tests accounts for. *)
Definition tally (ts : list TestEntry) : Counts :=
  mkCounts (length ts) (countOutcome "expected" ts) (countOutcome "unexpected" ts)
           (countOutcome "skipped" ts).

Definition addCounts (a b : Counts) : Counts :=
  mkCounts (testCount a + testCount b) (passedCount a + passedCount b)
           (failedCount a + failedCount b) (skippedCount a + skippedCount b).

(** Tests whose outcome is neither the expected nor the unexpected one. *)
Definition countOther (ts : list TestEntry) : nat :=
  length (List.filter
            (fun t => negb (hasOutcome "expected" t) && negb (hasOutcome "unexpected" t))
            ts).

(** A suite two levels deep with three leaf tests: one at the top, two
    in a nested suite. *)
Definition nestedExample : list Suite :=
  [ mkSuite (Some [mkSpec (Some [mkTest "expected"])])
            (Some [ mkSuite (Some [mkSpec (Some [mkTest "unexpected"]);
                                   mkSpec (Some [mkTest "expected"])])
                            None ]) ].

(** A document whose only test was retried and then passed. *)
Definition flakyExample : list Suite :=
  [ mkSuite (Some [mkSpec (Some [mkTest "flaky"])]) None ].

(** Nesting depth of a suite. *)
Fixpoint depth (suite : Suite) : nat :=
  S (match suites suite with
     | Some subs => fold_right (fun s d => Nat.max (depth s) d) 0 subs
     | None => 0
     end).

End Summary.

(** ** Configuration (config.js) *)

Record Storage : Type := mkStorage {
  st_tests : string;
  st_results : string;
  st_screenshots : string;
  st_videos : string;
  st_traces : string
}.

Record Config : Type := mkConfig {
  maxConcurrentTests : nat;
  storage : Storage
}.

Definition config : Config :=
  {| maxConcurrentTests := 5;
     storage := mkStorage "./data/tests" "./data/results" "./data/screenshots"
                          "./data/videos" "./data/traces" |}.

(** ** Paths and string helpers *)

Module Path.

(** The pieces of a path between its separators. *)
Fixpoint segments (cur p : string) : list string :=
  match p with
  | EmptyString => [cur]
  | String c rest =>
      if Ascii.eqb c "/"%char then cur :: segments "" rest
      else segments (cur ++ String c "") rest
  end.

Definition nonEmpty (s : string) : bool := negb (String.eqb s "").

(** [path.basename]: the last non-empty segment. *)
Definition basename (p : string) : string :=
  default "" (last (List.filter nonEmpty (segments "" p))).

Definition isAbsolute (p : string) : bool :=
  match p with
  | String c _ => Ascii.eqb c "/"%char
  | EmptyString => false
  end.

Fixpoint lastChar (p : string) : option ascii :=
  match p with
  | EmptyString => None
  | String c EmptyString => Some c
  | String _ rest => lastChar rest
  end.

Definition trailingSeparator (p : string) : bool :=
  match lastChar p with
  | Some c => Ascii.eqb c "/"%char
  | None => false
  end.

(** One segment of [normalizeString]; the stack holds the segments
    kept so far, the last one first. *)
Definition resolveSegment (allowAboveRoot : bool) (stack : list string) (seg : string)
    : list string :=
  if String.eqb seg "" || String.eqb seg "." then stack
  else if String.eqb seg ".." then
    match stack with
    | top :: rest =>
        if String.eqb top ".." then (if allowAboveRoot then ".." :: stack else stack)
        else rest
    | [] => if allowAboveRoot then [".."] else []
    end
  else seg :: stack.

Definition normalizeString (p : string) (allowAboveRoot : bool) : string :=
  String.concat "/" (rev (fold_left (resolveSegment allowAboveRoot) (segments "" p) [])).

(** [path.normalize] (POSIX). *)
Definition normalize (p : string) : string :=
  match p with
  | EmptyString => "."
  | _ =>
      let body := normalizeString p (negb (isAbsolute p)) in
      match body with
      | EmptyString =>
          if isAbsolute p then "/" else if trailingSeparator p then "./" else "."
      | _ =>
          let body := if trailingSeparator p then body ++ "/" else body in
          if isAbsolute p then "/" ++ body else body
      end
  end.

(** [path.join] of two components. *)
Definition join (a b : string) : string :=
  match a, b with
  | EmptyString, EmptyString => "."
  | EmptyString, _ => normalize b
  | _, EmptyString => normalize a
  | _, _ => normalize (a ++ "/" ++ b)
  end.

(** [s.endsWith(suffix)] *)
Definition endsWith (s suffix : string) : bool :=
  let n := String.length s in
  let m := String.length suffix in
  (m <=? n)%nat && String.eqb (substring (n - m) m s) suffix.

(** [s.includes(needle)] *)
Fixpoint includes (needle s : string) : bool :=
  String.prefix needle s ||
  match s with
  | EmptyString => false
  | String _ rest => includes needle rest
  end.

(** A string without a path separator. *)
Fixpoint noSeparator (s : string) : bool :=
  match s with
  | EmptyString => true
  | String c rest => negb (Ascii.eqb c "/"%char) && noSeparator rest
  end.

(** A file name proper: no separator, and not one of the special
    segments. *)
Definition isPlainName (n : string) : bool :=
  noSeparator n && negb (String.eqb n "") && negb (String.eqb n ".")
  && negb (String.eqb n "..").

End Path.

(** ** Artifact collection (processArtifacts, findFiles) *)

Module Artifacts.

(** What [readdir] finds under the results directory.  A directory
    whose listing fails carries the error instead of its items. *)
Inductive Entry : Type :=
  | File (name : string) (size : nat)
  | Dir (name : string) (contents : Completion (list Entry)).

Definition entryName (e : Entry) : string :=
  match e with File n _ => n | Dir n _ => n end.

(** One iteration of the loop of [findFiles] (lines 439-448); an error
    while listing a sub-directory is caught by the recursive call, which
    then contributes no files. *)
Fixpoint filesUnder (extensions : list string) (dir : string) (item : Entry)
    : list (string * nat) :=
  match item with
  | Dir n (Normal items) =>
      flat_map (fun i => filesUnder extensions (Path.join dir n) i) items
  | Dir n (Throw _) => []
  | File n sz =>
      if existsb (Path.endsWith n) extensions then [(Path.join dir n, sz)] else []
  end.

Definition findFiles (dir : string) (contents : Completion (list Entry))
    (extensions : list string) : list (string * nat) :=
  match contents with
  | Normal items => flat_map (filesUnder extensions dir) items
  | Throw _ => []
  end.

Record Artifact : Type := mkArtifact {
  filename : string;
  path : string;
  url : string;
  size : nat
}.

Record Report : Type := mkReport {
  rep_type : string;
  rep_path : string;
  rep_url : string
}.

Record Manifest : Type := mkManifest {
  screenshots : list Artifact;
  videos : list Artifact;
  traces : list Artifact;
  reports : list Report
}.

Definition emptyManifest : Manifest := mkManifest [] [] [] [].

Inductive Kind : Type := Screenshot | Video | Trace.

Definition bucket (cfg : Config) (k : Kind) : string :=
  match k with
  | Screenshot => st_screenshots (storage cfg)
  | Video => st_videos (storage cfg)
  | Trace => st_traces (storage cfg)
  end.

Definition urlRoot (k : Kind) : string :=
  match k with
  | Screenshot => "/screenshots/"
  | Video => "/videos/"
  | Trace => "/traces/"
  end.

Definition push (k : Kind) (a : Artifact) (m : Manifest) : Manifest :=
  match k with
  | Screenshot => mkManifest (screenshots m ++ [a]) (videos m) (traces m) (reports m)
  | Video => mkManifest (screenshots m) (videos m ++ [a]) (traces m) (reports m)
  | Trace => mkManifest (screenshots m) (videos m) (traces m ++ [a]) (reports m)
  end.

(** The renaming rule: [`${sessionId}-${path.basename(file)}`]. *)
Definition storageName (sessionId file : string) : string :=
  sessionId ++ "-" ++ Path.basename file.

Definition targetPath (cfg : Config) (k : Kind) (sessionId file : string) : string :=
  Path.join (bucket cfg k) (storageName sessionId file).

(** The manifest being filled and the durable storage (target path to
    the workspace file copied there). *)
Record Collected : Type := mkCollected {
  manifest : Manifest;
  stored : gmap string string
}.

(** One of the three copy loops.  [copyThrows file] tells whether
    [fs.copy] of that file fails; the loop stops there, and what was
    pushed before stays in the manifest.  [fs.stat] of a file that was
    just copied is taken to succeed and to report the size of the
    source.  The result's flag is [true] when the loop was left by an
    exception. *)
Fixpoint copyLoop (cfg : Config) (k : Kind) (sessionId : string)
    (copyThrows : string -> bool) (files : list (string * nat)) (acc : Collected)
    : Collected * bool :=
  match files with
  | [] => (acc, false)
  | (file, sz) :: rest =>
      if copyThrows file then (acc, true)
      else
        let name := storageName sessionId file in
        let target := targetPath cfg k sessionId file in
        let a := mkArtifact name target (urlRoot k ++ name) sz in
        copyLoop cfg k sessionId copyThrows rest
          (mkCollected (push k a (manifest acc)) (<[target := file]> (stored acc)))
  end.

Definition isTrace (f : string * nat) : bool :=
  Path.includes "trace" (Path.basename (fst f)).

Definition hasEntry (n : string) (contents : Completion (list Entry)) : bool :=
  match contents with
  | Normal items => existsb (fun e => String.eqb (entryName e) n) items
  | Throw _ => false
  end.

(** [processArtifacts], lines 353-431.  Every statement sits in one
    [try]; the [catch] only logs, so the manifest is returned whatever
    happens. *)
Definition processArtifacts (cfg : Config) (resultsDir : string)
    (contents : Completion (list Entry)) (copyThrows : string -> bool)
    (sessionId : string) (store : gmap string string) : Collected :=
  let start := mkCollected emptyManifest store in
  let '(c1, thrown1) :=
    copyLoop cfg Screenshot sessionId copyThrows
      (findFiles resultsDir contents [".png"; ".jpg"]) start in
  if thrown1 then c1 else
  let '(c2, thrown2) :=
    copyLoop cfg Video sessionId copyThrows
      (findFiles resultsDir contents [".webm"; ".mp4"]) c1 in
  if thrown2 then c2 else
  let '(c3, thrown3) :=
    copyLoop cfg Trace sessionId copyThrows
      (List.filter isTrace (findFiles resultsDir contents [".zip"])) c2 in
  if thrown3 then c3 else
  let htmlReportDir := Path.join resultsDir "html-report" in
  if hasEntry "html-report" contents then
    if copyThrows htmlReportDir then c3
    else
      let reportTargetDir :=
        Path.join (st_results (storage cfg)) (sessionId ++ "-html-report") in
      let r := mkReport "html" reportTargetDir
                 ("/results/" ++ sessionId ++ "-html-report/index.html") in
      mkCollected
        (mkManifest (screenshots (manifest c3)) (videos (manifest c3))
                    (traces (manifest c3)) (reports (manifest c3) ++ [r]))
        (<[reportTargetDir := htmlReportDir]> (stored c3))
  else c3.

Definition manifestCounts (m : Manifest) : Summary.ArtifactCounts :=
  Summary.mkArtifactCounts (length (screenshots m)) (length (videos m))
                           (length (traces m)) (length (reports m)).

(** *** The artifacts kept when a copy fails *)

(** The files of one loop that are copied before the first copy that
    fails, and whether one fails. *)
Fixpoint copiedBefore (copyThrows : string -> bool) (files : list (string * nat))
    : list (string * nat) :=
  match files with
  | [] => []
  | f :: rest => if copyThrows (fst f) then [] else f :: copiedBefore copyThrows rest
  end.

Definition stopped (copyThrows : string -> bool) (files : list (string * nat)) : bool :=
  existsb (fun f => copyThrows (fst f)) files.

(** The manifest entry of a copied file. *)
Definition entryOf (cfg : Config) (k : Kind) (sessionId : string) (f : string * nat)
    : Artifact :=
  let name := storageName sessionId (fst f) in
  mkArtifact name (targetPath cfg k sessionId (fst f)) (urlRoot k ++ name) (snd f).

(** The manifest in the words of the amended C8: the screenshots, then
    the videos, then the traces, then the report, each one as long as
    no copy before it has failed. *)
Definition collectedBeforeFailure (cfg : Config) (resultsDir : string)
    (contents : Completion (list Entry)) (copyThrows : string -> bool)
    (sessionId : string) : Manifest :=
  let shots := findFiles resultsDir contents [".png"; ".jpg"] in
  let clips := findFiles resultsDir contents [".webm"; ".mp4"] in
  let zips := List.filter isTrace (findFiles resultsDir contents [".zip"]) in
  let afterShots := stopped copyThrows shots in
  let afterClips := afterShots || stopped copyThrows clips in
  let afterZips := afterClips || stopped copyThrows zips in
  let report :=
    mkReport "html"
      (Path.join (st_results (storage cfg)) (sessionId ++ "-html-report"))
      ("/results/" ++ sessionId ++ "-html-report/index.html") in
  mkManifest
    (map (entryOf cfg Screenshot sessionId) (copiedBefore copyThrows shots))
    (if afterShots then []
     else map (entryOf cfg Video sessionId) (copiedBefore copyThrows clips))
    (if afterClips then []
     else map (entryOf cfg Trace sessionId) (copiedBefore copyThrows zips))
    (if afterZips then []
     else if hasEntry "html-report" contents
          && negb (copyThrows (Path.join resultsDir "html-report"))
     then [report] else []).

(** *** What a manifest promises *)






(** Two files with one base name in different directories of the
    results tree. *)
Definition twoShots : Completion (list Entry) :=
  Normal [Dir "test-a" (Normal [File "shot.png" 10]);
          Dir "test-b" (Normal [File "shot.png" 20])].

End Artifacts.

(** ** The streaming service (streamingService.js) *)

Module Streaming.

(** A JavaScript [Map] in insertion order. *)
Section OrderedMap.
Context {V : Type}.

Fixpoint mapGet (k : string) (m : list (string * V)) : option V :=
  match m with
  | [] => None
  | (k', v) :: rest => if String.eqb k k' then Some v else mapGet k rest
  end.

(** [set] keeps the position of a key that is already there. *)
Fixpoint mapSet (k : string) (v : V) (m : list (string * V)) : list (string * V) :=
  match m with
  | [] => [(k, v)]
  | (k', v') :: rest =>
      if String.eqb k k' then (k, v) :: rest else (k', v') :: mapSet k v rest
  end.

Definition mapDelete (k : string) (m : list (string * V)) : list (string * V) :=
  List.filter (fun kv => negb (String.eqb k (fst kv))) m.
End OrderedMap.

(** A JavaScript [Set] of strings in insertion order. *)
Definition setHas (x : string) (s : list string) : bool := existsb (String.eqb x) s.
Definition setAdd (x : string) (s : list string) : list string :=
  if setHas x s then s else s ++ [x].
Definition setDelete (x : string) (s : list string) : list string :=
  List.filter (fun y => negb (String.eqb x y)) s.

(** The transport.  [readyState] is the WebSocket state (1 is OPEN);
    [sendThrows] tells whether the next [ws.send] raises. *)
Record WebSocket : Type := mkWebSocket {
  readyState : nat;
  sendThrows : bool
}.

Record Connection : Type := mkConnection {
  ws : WebSocket;
  conn_subscriptions : list string;
  connected : bool;
  connectedAt : IsoString
}.

Record Service : Type := mkService {
  connections : list (string * Connection);
  subscriptions : list (string * list string)
}.

Definition emptyService : Service := mkService [] [].

Definition addConnection (now : Z) (w : WebSocket) (connectionId : string)
    (svc : Service) : Service :=
  mkService
    (mapSet connectionId (mkConnection w [] true (ISO now)) (connections svc))
    (subscriptions svc).

(** [removeConnection], lines 28-42. *)
Definition removeConnection (connectionId : string) (svc : Service) : Service :=
  match mapGet connectionId (connections svc) with
  | Some _ =>
      mkService
        (mapDelete connectionId (connections svc))
        (List.filter (fun cs => negb (Nat.eqb (length (snd cs)) 0))
           (map (fun cs => (fst cs, setDelete connectionId (snd cs)))
                (subscriptions svc)))
  | None => svc
  end.

(** [subscribe], lines 45-55. *)
Definition subscribe (connectionId channel : string) (svc : Service) : Service :=
  let subs := default [] (mapGet channel (subscriptions svc)) in
  mkService
    (match mapGet connectionId (connections svc) with
     | Some c =>
         mapSet connectionId
           (mkConnection (ws c) (setAdd channel (conn_subscriptions c))
                         (connected c) (connectedAt c))
           (connections svc)
     | None => connections svc
     end)
    (mapSet channel (setAdd connectionId subs) (subscriptions svc)).

Record Message : Type := mkMessage {
  msg_type : string;
  msg_body : string;
  msg_timestamp : option IsoString
}.

(** The object handed to [JSON.stringify]. *)
Record Frame : Type := mkFrame {
  fr_type : string;
  fr_body : string;
  fr_channel : option string;
  fr_timestamp : IsoString
}.

Definition stamp (now : Z) (channel : option string) (m : Message) : Frame :=
  mkFrame (msg_type m) (msg_body m) channel (default (ISO now) (msg_timestamp m)).

(** [connection.connected && connection.ws.readyState === 1] *)
Definition isOpen (c : Connection) : bool :=
  connected c && Nat.eqb (readyState (ws c)) 1.

(** The state threaded through a [forEach]: the service and the frames
    the transports accepted, oldest first. *)
Definition Sending : Type := Service * list (string * Frame).

(** Body of the [forEach] callbacks of [broadcast] and [sendToChannel],
    and of [sendToConnection]. *)
Definition trySend (frame : Frame) (acc : Sending) (connectionId : string) : Sending :=
  let '(svc, sent) := acc in
  match mapGet connectionId (connections svc) with
  | Some c =>
      if isOpen c then
        if sendThrows (ws c) then (removeConnection connectionId svc, sent)
        else (svc, (sent ++ [(connectionId, frame)])%list)
      else acc
  | None => acc
  end.

(** [broadcast], lines 74-90. *)
Definition broadcast (now : Z) (m : Message) (svc : Service) : Sending :=
  fold_left (trySend (stamp now None m)) (map fst (connections svc)) (svc, []).

(** [sendToChannel], lines 93-114. *)
Definition sendToChannel (now : Z) (channel : string) (m : Message) (svc : Service)
    : Sending :=
  match mapGet channel (subscriptions svc) with
  | None => (svc, [])
  | Some subscribers =>
      fold_left (trySend (stamp now (Some channel) m)) subscribers (svc, [])
  end.

(** [sendToConnection], lines 117-131. *)
Definition sendToConnection (now : Z) (connectionId : string) (m : Message)
    (svc : Service) : Sending :=
  trySend (stamp now None m) (svc, []) connectionId.

(** A connection that a send reaches: open, and its transport accepts
    the frame. *)
Definition isLive (c : Connection) : bool := isOpen c && negb (sendThrows (ws c)).

(** A connection whose send raises. *)
Definition isFailing (c : Connection) : bool := isOpen c && sendThrows (ws c).

Definition ids (svc : Service) : list string := map fst (connections svc).

Definition liveIn (svc : Service) (connectionId : string) : bool :=
  match mapGet connectionId (connections svc) with
  | Some c => isLive c
  | None => false
  end.

Definition failingIn (svc : Service) (connectionId : string) : bool :=
  match mapGet connectionId (connections svc) with
  | Some c => isFailing c
  | None => false
  end.

(** A registry with an open connection, a closed one (readyState 3),
    and an open one whose transport raises on [send]; all three
    subscribed to the channel "analytics". *)
Definition exampleService : Service :=
  subscribe "c3" "analytics"
    (subscribe "c2" "analytics"
       (subscribe "c1" "analytics"
          (addConnection 0 (mkWebSocket 1 true) "c3"
             (addConnection 0 (mkWebSocket 3 false) "c2"
                (addConnection 0 (mkWebSocket 1 false) "c1" emptyService))))).

Definition exampleMessage : Message := mkMessage "system-notification" "hello" None.

(** [unsubscribe], lines 58-71. *)
Definition unsubscribe (connectionId channel : string) (svc : Service) : Service :=
  mkService
    (match mapGet connectionId (connections svc) with
     | Some c =>
         mapSet connectionId
           (mkConnection (ws c) (setDelete channel (conn_subscriptions c))
                         (connected c) (connectedAt c))
           (connections svc)
     | None => connections svc
     end)
    (match mapGet channel (subscriptions svc) with
     | Some subscribers =>
         let remaining := setDelete connectionId subscribers in
         if Nat.eqb (length remaining) 0 then mapDelete channel (subscriptions svc)
         else mapSet channel remaining (subscriptions svc)
     | None => subscriptions svc
     end).

Definition subscribersOf (channel : string) (svc : Service) : list string :=
  default [] (mapGet channel (subscriptions svc)).

(** [cleanup], lines 231-241: the sweep of connections that are not
    open and were registered more than five minutes ago. *)
Definition idleTimeout : Z := 5 * 60 * 1000.

Definition isStale (now : Z) (c : Connection) : bool :=
  match connectedAt c with
  | ISO connectedTime =>
      (idleTimeout <? now - connectedTime)%Z && negb (Nat.eqb (readyState (ws c)) 1)
  end.

Definition sweep (now : Z) (svc : Service) (connectionId : string) : Service :=
  match mapGet connectionId (connections svc) with
  | Some c => if isStale now c then removeConnection connectionId svc else svc
  | None => svc
  end.

Definition cleanup (now : Z) (svc : Service) : Service :=
  fold_left (sweep now) (ids svc) svc.

Definition staleIn (now : Z) (svc : Service) (connectionId : string) : bool :=
  match mapGet connectionId (connections svc) with
  | Some c => isStale now c
  | None => false
  end.

(** [getStatus], lines 186-201. *)
Record ConnectionStatus : Type := mkConnectionStatus {
  cs_id : string;
  cs_connected : bool;
  cs_connectedAt : IsoString;
  cs_subscriptions : list string
}.

Record Status : Type := mkStatus {
  totalConnections : nat;
  activeChannels : nat;
  st_connections : list ConnectionStatus;
  st_channels : list (string * nat)
}.

Definition getStatus (svc : Service) : Status :=
  {| totalConnections := length (connections svc);
     activeChannels := length (subscriptions svc);
     st_connections :=
       map (fun kv => mkConnectionStatus (fst kv) (connected (snd kv))
                        (connectedAt (snd kv)) (conn_subscriptions (snd kv)))
           (connections svc);
     st_channels := map (fun cs => (fst cs, length (snd cs))) (subscriptions svc) |}.

(** *** Incoming messages *)

(** The parsed message [{ type, payload, connectionId }].  [in_payload]
    is [None] when there is no payload object, and otherwise holds
    [payload.channel]. *)
Record Incoming : Type := mkIncoming {
  in_type : string;
  in_payload : option (option string);
  in_connectionId : option string
}.

(** A value that passes an [if]: a non-empty string. *)
Definition truthy (o : option string) : option string :=
  match o with
  | Some s => if String.eqb s "" then None else Some s
  | None => None
  end.

(** What [handleMessage] leaves: the service, the frames accepted by
    registered transports, and the frames written straight to the
    socket the message came from. *)
Record Handled : Type := mkHandled {
  h_service : Service;
  h_sent : list (string * Frame);
  h_socket : list Message
}.

Definition errorReply : Message := mkMessage "error" "Invalid message format" None.

(** [sendToConnection] with an id that may be [undefined], in which
    case the lookup finds nothing. *)
Definition reply (now : Z) (connectionId : option string) (m : Message) (svc : Service)
    : Handled :=
  match connectionId with
  | Some id =>
      mkHandled (fst (sendToConnection now id m svc))
                (snd (sendToConnection now id m svc)) []
  | None => mkHandled svc [] []
  end.

Section Handling.

(** [JSON.stringify] of the status object. *)
Variable renderStatus : Status -> string.

(** [handleMessage], lines 134-183.  [data] is [None] when the parsed
    message has no fields to read (the destructuring raises). *)
Definition handleMessage (now : Z) (data : option Incoming) (svc : Service) : Handled :=
  match data with
  | None => mkHandled svc [] [errorReply]
  | Some d =>
      if String.eqb (in_type d) "subscribe" then
        match in_payload d with
        | None => mkHandled svc [] [errorReply]
        | Some channel =>
            match truthy channel, truthy (in_connectionId d) with
            | Some ch, Some id =>
                reply now (Some id) (mkMessage "subscription-confirmed" ch None)
                      (subscribe id ch svc)
            | _, _ => mkHandled svc [] []
            end
        end
      else if String.eqb (in_type d) "unsubscribe" then
        match in_payload d with
        | None => mkHandled svc [] [errorReply]
        | Some channel =>
            match truthy channel, truthy (in_connectionId d) with
            | Some ch, Some id =>
                reply now (Some id) (mkMessage "unsubscription-confirmed" ch None)
                      (unsubscribe id ch svc)
            | _, _ => mkHandled svc [] []
            end
        end
      else if String.eqb (in_type d) "ping" then
        reply now (in_connectionId d) (mkMessage "pong" "" (Some (ISO now))) svc
      else if String.eqb (in_type d) "get-status" then
        reply now (in_connectionId d)
              (mkMessage "status" (renderStatus (getStatus svc)) None) svc
      else mkHandled svc [] []
  end.

(** *** The socket wiring of server.js (lines 222-251) *)

(** What happens on the server's sockets and what the routes and the
    executor ask of the service.  [Received None] is a text that
    [JSON.parse] rejects.  [Closed key] is the close handler, which
    passes the socket itself as the key to remove. *)
Inductive ServerEvent : Type :=
  | Connected
  | Received (now : Z) (parsed : option (option Incoming))
  | Closed (key : string)
  | Broadcast (now : Z) (m : Message)
  | ChannelSend (now : Z) (channel : string) (m : Message).

Definition welcome : Message :=
  mkMessage "connection-established" "Connected to SAINT Backend" None.

Definition serve (h : Handled) (e : ServerEvent) : Handled :=
  match e with
  | Connected => mkHandled (h_service h) (h_sent h) (h_socket h ++ [welcome])
  | Received now None =>
      mkHandled (h_service h) (h_sent h) (h_socket h ++ [errorReply])
  | Received now (Some data) =>
      let r := handleMessage now data (h_service h) in
      mkHandled (h_service r) (h_sent h ++ h_sent r) (h_socket h ++ h_socket r)
  | Closed key => mkHandled (removeConnection key (h_service h)) (h_sent h) (h_socket h)
  | Broadcast now m =>
      mkHandled (fst (broadcast now m (h_service h)))
                (h_sent h ++ snd (broadcast now m (h_service h))) (h_socket h)
  | ChannelSend now channel m =>
      mkHandled (fst (sendToChannel now channel m (h_service h)))
                (h_sent h ++ snd (sendToChannel now channel m (h_service h)))
                (h_socket h)
  end.

(** The service as the server creates it, and a run of events on it.
    Nothing in the server calls [addConnection]. *)
Definition serverRun (events : list ServerEvent) : Handled :=
  fold_left serve events (mkHandled emptyService [] []).

End Handling.

End Streaming.

(** ** The executor (mcpExecutor.js) *)

Module Executor.

Import Summary.

(** The test definition; [mcpConfig] is only read when the text of the
    Playwright configuration is generated, which is not modelled. *)
Record TestData : Type := mkTestData { td_id : string; td_code : string }.

Record Request : Type := mkRequest {
  req_testData : TestData;
  req_sessionId : string
}.

(** What [fs.readJson] returns for results.json, as far as the
    summary reads it: a document of the reporter's shape (a tree of
    suites), or a JSON value on which the loops of [countTestResults]
    raise [error]: [suites], [specs] or [tests] that is a number or an
    object and so not iterable, or a [null] among the suites, the specs
    or the tests. *)
Inductive Parsed : Type :=
  | SuiteTree (doc : ResultsDoc)
  | IllShaped (error : string).

Record ExecutionResult : Type := mkResult {
  exitCode : option Z;
  output : string;
  errorOutput : string;
  duration : Z;
  startTime : IsoString;
  endTime : IsoString;
  status : string;
  sessionId : string;
  testData : TestData;
  detailedResults : option Parsed;
  artifacts : option Artifacts.Manifest;
  summary : option ExecutionSummary;
  processingError : option string
}.

(** What [executeTest] resolves with. *)
Inductive Reply : Type :=
  | Queued (sessionId : string)
  | Finished (result : ExecutionResult).

(** Events handed to [streamingService.broadcast].  Their timestamp
    field is left out. *)
Inductive Payload : Type :=
  | NoData
  | Position (position : nat)
  | Started (executionId : nat) (testId : string)
  | Data (chunk : string)
  | Outcome (status : string) (duration : Z) (exitCode : option Z)
  | Failure (message : string)
  | Final (reply : Reply).

Record Event : Type := mkEvent {
  ev_type : string;
  ev_sessionId : string;
  ev_payload : Payload
}.

(** *** Lexical environments *)

Inductive Value : Type :=
  | VProcess (env : list (string * string))
  | VStrings (items : list string)
  | VOpaque.

(** A [const]/[let] binding exists from the start of its block and is
    uninitialised until its declaration has been evaluated. *)
Inductive Binding : Type :=
  | Uninitialized
  | Initialized (v : Value).

Definition Scope : Type := list (string * Binding).

Fixpoint lookupScope (x : string) (sc : Scope) : option Binding :=
  match sc with
  | [] => None
  | (y, b) :: rest => if String.eqb x y then Some b else lookupScope x rest
  end.

(** Identifier resolution through the scope chain, innermost first. *)
Fixpoint resolveIdentifier (x : string) (chain : list Scope) : Completion Value :=
  match chain with
  | [] => Throw ("ReferenceError: " ++ x ++ " is not defined")
  | sc :: outer =>
      match lookupScope x sc with
      | Some (Initialized v) => Normal v
      | Some Uninitialized =>
          Throw ("ReferenceError: Cannot access '" ++ x ++ "' before initialization")
      | None => resolveIdentifier x outer
      end
  end.

Definition declare (names : list string) : Scope :=
  map (fun n => (n, Uninitialized)) names.

Fixpoint initialize (x : string) (v : Value) (sc : Scope) : Scope :=
  match sc with
  | [] => []
  | (y, b) :: rest =>
      if String.eqb x y then (y, Initialized v) :: rest
      else (y, b) :: initialize x v rest
  end.

(** The scopes around the [.then] callback of [runTest]: the promise
    executor, the method, the module, and the global object with Node's
    [process]. *)
Definition enclosingScopes (processEnv : list (string * string)) : list Scope :=
  [ [("resolve", Initialized VOpaque); ("reject", Initialized VOpaque)];
    [("testData", Initialized VOpaque); ("sessionId", Initialized VOpaque);
     ("executionDir", Initialized VOpaque); ("streamingService", Initialized VOpaque)];
    [("spawn", Initialized VOpaque); ("fs", Initialized VOpaque);
     ("path", Initialized VOpaque); ("uuidv4", Initialized VOpaque);
     ("MCPExecutor", Initialized VOpaque)];
    [("process", Initialized (VProcess processEnv)); ("console", Initialized VOpaque)] ].

(** [value.env], for the spread in the options literal. *)
Definition envOf (v : Value) : list (string * string) :=
  match v with
  | VProcess env => env
  | _ => []
  end.

(** *** Child processes *)

Inductive Stream : Type := Stdout | Stderr.

(** The first terminal event of a child: ['close'] with its code
    ([None] is [null]), or ['error']. *)
Inductive Ending : Type :=
  | Close (code : option Z)
  | SpawnError (message : string).

Record ProcessRun : Type := mkRun {
  chunks : list (Stream * string);
  ending : Ending;
  spawnedAt : Z;
  endedAt : Z
}.

Record SpawnCall : Type := mkSpawn {
  command : string;
  args : list string;
  cwd : string;
  env : option (list (string * string))
}.

Definition chunkEvent (outType errType sessionId : string) (c : Stream * string)
    : Event :=
  match fst c with
  | Stdout => mkEvent outType sessionId (Data (snd c))
  | Stderr => mkEvent errType sessionId (Data (snd c))
  end.

Definition collect (which : Stream) (cs : list (Stream * string)) : string :=
  fold_left
    (fun acc c => match fst c, which with
                  | Stdout, Stdout | Stderr, Stderr => acc ++ snd c
                  | _, _ => acc
                  end) cs "".

Definition showCode (code : option Z) : string :=
  match code with
  | Some c => pretty.pretty c
  | None => "null"
  end.

(** What an asynchronous step leaves behind: the events broadcast, the
    processes spawned, and how its promise settled. *)
Record Ran (A : Type) : Type := mkRan {
  events : list Event;
  spawns : list SpawnCall;
  settled : Settlement A
}.
Arguments mkRan {A} events spawns settled.
Arguments events {A} r.
Arguments spawns {A} r.
Arguments settled {A} r.

(** [installDependencies], lines 262-318. *)
Definition installDependencies (run : ProcessRun) (executionDir sessionId : string)
    : Ran unit :=
  let started := mkEvent "dependency-installation-started" sessionId NoData in
  let streamed :=
    map (chunkEvent "dependency-output" "dependency-error" sessionId) (chunks run) in
  let call := mkSpawn "npm" ["install"] executionDir None in
  match ending run with
  | Close (Some 0%Z) =>
      mkRan (started :: streamed ++
               [mkEvent "dependency-installation-completed" sessionId NoData])
            [call] (Resolved tt)
  | Close code =>
      mkRan (started :: streamed) [call]
            (Rejected ("Dependency installation failed with exit code " ++ showCode code))
  | SpawnError m => mkRan (started :: streamed) [call] (Rejected m)
  end.

(** The ['close'] handler of the runner, lines 217-245: the result
    object it builds. *)
Definition onClose (td : TestData) (sid : string) (out err : string)
    (started ended : Z) (code : option Z) : ExecutionResult :=
  {| exitCode := code;
     output := out;
     errorOutput := err;
     duration := ended - started;
     startTime := ISO started;
     endTime := ISO ended;
     status := match code with Some 0%Z => "passed" | _ => "failed" end;
     sessionId := sid;
     testData := td;
     detailedResults := None;
     artifacts := None;
     summary := None;
     processingError := None |}.

(** The [.then] callback of [runTest], lines 181-257.  Its block
    declares [args], [process], [output], [errorOutput] and [startTime];
    the initializer of [process] is the call
    [spawn('npx', args, { cwd, stdio, env: { ...process.env, CI } })],
    whose arguments are evaluated before [spawn] is entered. *)
Definition runnerCallback (processEnv : list (string * string)) (run : ProcessRun)
    (td : TestData) (sid executionDir : string) : Ran ExecutionResult :=
  let block := declare ["args"; "process"; "output"; "errorOutput"; "startTime"] in
  let argv := ["playwright"; "test"; "--config"; "playwright.config.ts"] in
  let block := initialize "args" (VStrings argv) block in
  match resolveIdentifier "process" (block :: enclosingScopes processEnv) with
  | Throw m => mkRan [] [] (Rejected m)
  | Normal p =>
      let call := mkSpawn "npx" argv executionDir
                    (Some (envOf p ++ [("CI", "true")])%list) in
      let streamed := map (chunkEvent "test-output" "test-error" sid) (chunks run) in
      match ending run with
      | Close code =>
          let result :=
            onClose td sid (collect Stdout (chunks run)) (collect Stderr (chunks run))
                    (spawnedAt run) (endedAt run) code in
          mkRan (streamed ++
                   [mkEvent "test-completed" sid
                      (Outcome (status result) (duration result) (exitCode result))])
                [call] (Resolved result)
      | SpawnError m =>
          mkRan (streamed ++ [mkEvent "test-execution-error" sid (Failure m)])
                [call] (Rejected m)
      end
  end.

(** [runTest], lines 176-260:
    [installDependencies(...).then(callback).catch(reject)]. *)
Definition runTest (processEnv : list (string * string)) (install run : ProcessRun)
    (td : TestData) (sid executionDir : string) : Ran ExecutionResult :=
  let dep := installDependencies install executionDir sid in
  match settled dep with
  | Rejected m => mkRan (events dep) (spawns dep) (Rejected m)
  | Resolved _ =>
      let r := runnerCallback processEnv run td sid executionDir in
      mkRan (events dep ++ events r) (spawns dep ++ spawns r) (settled r)
  end.

(** *** The file system *)

(** Directories that exist, result files written by [writeJson], and
    the artifact buckets (target path to the file copied there). *)
Record FileSystem : Type := mkFS {
  dirs : gset string;
  resultFiles : gmap string ExecutionResult;
  buckets : gmap string string
}.

Definition emptyFS : FileSystem := mkFS ∅ ∅ ∅.

Definition workspaceOf (cfg : Config) (sessionId : string) : string :=
  Path.join (st_tests (storage cfg)) ("execution-" ++ sessionId).

(** [createExecutionEnvironment], lines 88-117: [ensureDir] followed by
    four writes.  [failure] names the first step that raises (0 is
    [ensureDir]) and its message. *)
Definition createExecutionEnvironment (cfg : Config) (failure : option (nat * string))
    (td : TestData) (sid : string) (fs : FileSystem)
    : FileSystem * Completion string :=
  let executionDir := workspaceOf cfg sid in
  let made := mkFS ({[executionDir]} ∪ dirs fs) (resultFiles fs) (buckets fs) in
  match failure with
  | Some (O, m) => (fs, Throw m)
  | Some (S _, m) => (made, Throw m)
  | None => (made, Normal executionDir)
  end.

(** [cleanup], lines 513-519: an error of [fs.remove] is logged and
    not raised. *)
Definition cleanup (removal : Completion unit) (executionDir : string)
    (fs : FileSystem) : FileSystem :=
  match removal with
  | Normal _ => mkFS (dirs fs ∖ {[executionDir]}) (resultFiles fs) (buckets fs)
  | Throw _ => fs
  end.

(** *** Post-processing *)

(** What the file system answers to [processResults]. *)
Record PostScenario : Type := mkPost {
  ensureResultsDir : Completion unit;
  resultsJson : option (Completion Parsed);
  resultsTree : Completion (list Artifacts.Entry);
  copyThrows : string -> bool;
  writeResult : Completion unit
}.

Definition withProcessingError (m : string) (r : ExecutionResult) : ExecutionResult :=
  mkResult (exitCode r) (output r) (errorOutput r) (duration r) (startTime r)
           (endTime r) (status r) (sessionId r) (testData r) (detailedResults r)
           (artifacts r) (summary r) (Some m).

Definition withDetailedResults (d : option Parsed) (r : ExecutionResult)
    : ExecutionResult :=
  mkResult (exitCode r) (output r) (errorOutput r) (duration r) (startTime r)
           (endTime r) (status r) (sessionId r) (testData r) d
           (artifacts r) (summary r) (processingError r).

Definition withArtifacts (a : Artifacts.Manifest) (r : ExecutionResult)
    : ExecutionResult :=
  mkResult (exitCode r) (output r) (errorOutput r) (duration r) (startTime r)
           (endTime r) (status r) (sessionId r) (testData r) (detailedResults r)
           (Some a) (summary r) (processingError r).

Definition withSummary (s : ExecutionSummary) (r : ExecutionResult) : ExecutionResult :=
  mkResult (exitCode r) (output r) (errorOutput r) (duration r) (startTime r)
           (endTime r) (status r) (sessionId r) (testData r) (detailedResults r)
           (artifacts r) (Some s) (processingError r).

(** [generateExecutionSummary(result)], line 338: the summary of a
    suite tree, or the exception of the traversal. *)
Definition summarize (r : ExecutionResult) : Completion ExecutionSummary :=
  let summaryOf doc :=
    generateExecutionSummary (status r) (duration r) (exitCode r)
      (Artifacts.manifestCounts <$> artifacts r) doc in
  match detailedResults r with
  | Some (IllShaped error) => Throw error
  | Some (SuiteTree doc) => Normal (summaryOf (Some doc))
  | None => Normal (summaryOf None)
  end.

Definition resultFileOf (cfg : Config) (sid : string) : string :=
  Path.join (st_results (storage cfg)) (sid ++ "-result.json").

(** [processResults], lines 320-351.  The result object is updated in
    place, so what was set before an exception stays set; the [catch]
    adds [processingError] and returns the object. *)
Definition processResults (cfg : Config) (ps : PostScenario) (result : ExecutionResult)
    (sid : string) (fs : FileSystem) : ExecutionResult * FileSystem :=
  let resultsDir := Path.join (st_results (storage cfg)) sid in
  match ensureResultsDir ps with
  | Throw m => (withProcessingError m result, fs)
  | Normal _ =>
      let fs1 := mkFS ({[resultsDir]} ∪ dirs fs) (resultFiles fs) (buckets fs) in
      match resultsJson ps with
      | Some (Throw m) => (withProcessingError m result, fs1)
      | parsed =>
          let result1 :=
            match parsed with
            | Some (Normal doc) => withDetailedResults (Some doc) result
            | _ => result
            end in
          let collected :=
            Artifacts.processArtifacts cfg resultsDir (resultsTree ps) (copyThrows ps)
                                       sid (buckets fs1) in
          let result2 := withArtifacts (Artifacts.manifest collected) result1 in
          let fs2 := mkFS (dirs fs1) (resultFiles fs1) (Artifacts.stored collected) in
          match summarize result2 with
          | Throw m => (withProcessingError m result2, fs2)
          | Normal s =>
              let result3 := withSummary s result2 in
              match writeResult ps with
              | Throw m => (withProcessingError m result3, fs2)
              | Normal _ =>
                  (result3,
                   mkFS (dirs fs2)
                        (<[resultFileOf cfg sid := result3]> (resultFiles fs2))
                        (buckets fs2))
              end
          end
      end
  end.

(** *** One execution *)

(** Everything the outside world answers during one execution. *)
Record Scenario : Type := mkScenario {
  sc_create : option (nat * string);
  sc_processEnv : list (string * string);
  sc_install : ProcessRun;
  sc_runner : ProcessRun;
  sc_post : PostScenario;
  sc_remove : Completion unit
}.

Record Executed : Type := mkExecuted {
  ex_events : list Event;
  ex_spawns : list SpawnCall;
  ex_fs : FileSystem;
  ex_settled : Settlement ExecutionResult
}.

(** The awaited steps of [executeTestNow], lines 57-67 and the
    [return] / [throw] that follows them: the value is [Resolved] when
    line 75 is reached and [Rejected] when the [catch] of line 77 is.
    The [catch] does not call [cleanup]. *)
Definition executionBody (cfg : Config) (sc : Scenario) (req : Request)
    (fs : FileSystem) : Executed :=
  let td := req_testData req in
  let sid := req_sessionId req in
  let '(fs1, created) := createExecutionEnvironment cfg (sc_create sc) td sid fs in
  match created with
  | Throw m => mkExecuted [] [] fs1 (Rejected m)
  | Normal executionDir =>
      let ran :=
        runTest (sc_processEnv sc) (sc_install sc) (sc_runner sc) td sid executionDir in
      match settled ran with
      | Rejected m => mkExecuted (events ran) (spawns ran) fs1 (Rejected m)
      | Resolved result =>
          let '(processed, fs2) := processResults cfg (sc_post sc) result sid fs1 in
          let fs3 := cleanup (sc_remove sc) executionDir fs2 in
          mkExecuted (events ran) (spawns ran) fs3 (Resolved processed)
      end
  end.

(** *** Sample inputs *)

Definition exampleTest : TestData :=
  mkTestData "t1" "test('home', async ({ page }) => { await page.goto('/'); });".

Definition exits (code : Z) : ProcessRun := mkRun [] (Close (Some code)) 100 250.

Definition quietPost : PostScenario :=
  mkPost (Normal tt) None (Normal []) (fun _ => false) (Normal tt).

(** A scenario in which the file system never fails. *)
Definition scenario (install runner : ProcessRun) : Scenario :=
  mkScenario None [("PATH", "/usr/bin")] install runner quietPost (Normal tt).

Definition exampleResult : ExecutionResult :=
  onClose exampleTest "s1" "1 passed" "" 100 250 (Some 0%Z).

(** Listing the results directory fails. *)
Definition postDiscoveryFails : PostScenario :=
  mkPost (Normal tt) None (Throw "EACCES: permission denied, scandir")
         (fun _ => false) (Normal tt).

(** Copying the first screenshot fails. *)
Definition postCopyFails : PostScenario :=
  mkPost (Normal tt) None (Normal [Artifacts.File "shot.png" 10])
         (fun _ => true) (Normal tt).

(** Three screenshots; copying the second one fails. *)
Definition postSecondCopyFails : PostScenario :=
  mkPost (Normal tt) None
         (Normal [Artifacts.File "a.png" 10; Artifacts.File "b.png" 20;
                  Artifacts.File "c.png" 30])
         (String.eqb "data/results/s1/b.png") (Normal tt).

(** results.json parses, and its [suites] is a number. *)
Definition postIllShaped : PostScenario :=
  mkPost (Normal tt) (Some (Normal (IllShaped "suites is not iterable")))
         (Normal [Artifacts.File "shot.png" 10]) (fun _ => false) (Normal tt).

(** results.json exists and is not valid JSON. *)
Definition postParseFails : PostScenario :=
  mkPost (Normal tt) (Some (Throw "Unexpected end of JSON input"))
         (Normal [Artifacts.File "shot.png" 10]) (fun _ => false) (Normal tt).

Definition tdzMessage : string :=
  "ReferenceError: Cannot access 'process' before initialization".

End Executor.

(** ** The scheduler (executeTest, executeTestNow, processQueue) and
    its caller (the POST /api/execute/test route of server.js) *)

Module Scheduler.

Import Executor.

Record ActiveExecution : Type := mkActive {
  executionId : nat;
  ae_testData : TestData;
  ae_startTime : Z;
  ae_status : string
}.

(** Who called [executeTestNow]: [executeTest] awaits and returns its
    promise (line 29); [processQueue] calls it as a statement and lets
    the promise go (line 524). *)
Inductive Origin : Type := ByExecuteTest | ByProcessQueue.

Record Job : Type := mkJob { job_request : Request; job_origin : Origin }.

(** The executor object ([maxConcurrent], [activeExecutions],
    [executionQueue]) together with what surrounds it: the calls of
    [executeTestNow] that are still awaiting ([pending]), the file
    system, the processes spawned, the events broadcast, what the
    callers of [executeTest] received ([returned]), the settlements of
    promises nobody holds ([floating]), and the history of queue pushes
    and shifts. *)
Record World : Type := mkWorld {
  w_config : Config;
  maxConcurrent : nat;
  activeExecutions : gmap string ActiveExecution;
  executionQueue : list Request;
  pending : list Job;
  fileSystem : FileSystem;
  spawned : list SpawnCall;
  broadcasts : list Event;
  returned : list (string * Settlement Reply);
  floating : list (string * Settlement ExecutionResult);
  enqueued : list Request;
  promoted : list Request;
  uuids : nat
}.

(** The constructor, lines 7-12. *)
Definition newExecutor (cfg : Config) : World :=
  mkWorld cfg (maxConcurrentTests cfg) ∅ [] [] emptyFS [] [] [] [] [] [] 0.

Definition broadcastAll (evs : list Event) (w : World) : World :=
  mkWorld (w_config w) (maxConcurrent w) (activeExecutions w) (executionQueue w)
          (pending w) (fileSystem w) (spawned w) (broadcasts w ++ evs)
          (returned w) (floating w) (enqueued w) (promoted w) (uuids w).

(** The synchronous start of [executeTestNow], lines 37-55, up to its
    first [await]. *)
Definition executeTestNow (now : Z) (origin : Origin) (req : Request) (w : World) : World :=
  let sid := req_sessionId req in
  let td := req_testData req in
  let id := uuids w in
  mkWorld (w_config w) (maxConcurrent w)
          (<[sid := mkActive id td now "running"]> (activeExecutions w))
          (executionQueue w)
          (pending w ++ [mkJob req origin])
          (fileSystem w) (spawned w)
          (broadcasts w ++ [mkEvent "execution-started" sid (Started id (td_id td))])
          (returned w) (floating w) (enqueued w) (promoted w) (S id).

(** [processQueue], lines 521-526. *)
Definition processQueue (now : Z) (w : World) : World :=
  match executionQueue w with
  | req :: rest =>
      if (size (activeExecutions w) <? maxConcurrent w)%nat then
        executeTestNow now ByProcessQueue req
          (mkWorld (w_config w) (maxConcurrent w) (activeExecutions w) rest
                   (pending w) (fileSystem w) (spawned w) (broadcasts w)
                   (returned w) (floating w) (enqueued w) (promoted w ++ [req])
                   (uuids w))
      else w
  | [] => w
  end.

(** The route's handlers on the promise of [executeTest]:
    [.then(result => broadcast execution-completed)] and
    [.catch(error => broadcast execution-error)]. *)
Definition routeEvent (sid : string) (s : Settlement Reply) : Event :=
  match s with
  | Resolved reply => mkEvent "execution-completed" sid (Final reply)
  | Rejected m => mkEvent "execution-error" sid (Failure m)
  end.

Definition settleCaller (sid : string) (s : Settlement Reply) (w : World) : World :=
  mkWorld (w_config w) (maxConcurrent w) (activeExecutions w) (executionQueue w)
          (pending w) (fileSystem w) (spawned w) (broadcasts w ++ [routeEvent sid s])
          (returned w ++ [(sid, s)]) (floating w) (enqueued w) (promoted w) (uuids w).

(** The settlement of a promoted run: [processQueue] dropped its
    promise, so a rejection filed here is an unhandled one.  The
    executor object is taken to live on after it. *)
Definition settleNobody (sid : string) (s : Settlement ExecutionResult) (w : World)
    : World :=
  mkWorld (w_config w) (maxConcurrent w) (activeExecutions w) (executionQueue w)
          (pending w) (fileSystem w) (spawned w) (broadcasts w)
          (returned w) (floating w ++ [(sid, s)]) (enqueued w) (promoted w) (uuids w).

(** [executeTest], lines 14-34, as called by the route. *)
Definition executeTest (now : Z) (req : Request) (w : World) : World :=
  let sid := req_sessionId req in
  if (maxConcurrent w <=? size (activeExecutions w))%nat then
    let queue := (executionQueue w ++ [req])%list in
    settleCaller sid (Resolved (Queued sid))
      (mkWorld (w_config w) (maxConcurrent w) (activeExecutions w) queue
               (pending w) (fileSystem w) (spawned w)
               (broadcasts w ++
                  [mkEvent "execution-queued" sid (Position (length queue))])
               (returned w) (floating w) (enqueued w ++ [req]) (promoted w) (uuids w))
  else executeTestNow now ByExecuteTest req w.

Definition finished (s : Settlement ExecutionResult) : Settlement Reply :=
  match s with
  | Resolved r => Resolved (Finished r)
  | Rejected m => Rejected m
  end.

(** The rest of a pending [executeTestNow]: its awaited steps under the
    scenario [sc], then lines 70-75 or lines 81-84 (both delete the
    session from the active set and call [processQueue]), then the
    settlement of its promise.  The awaited steps touch neither the
    active set nor the queue, so they are taken in one go here; how the
    events and files of two pending executions interleave is not
    distinguished. *)
Definition complete (now : Z) (i : nat) (sc : Scenario) (w : World) : World :=
  match pending w !! i with
  | None => w
  | Some job =>
      let sid := req_sessionId (job_request job) in
      let ex := executionBody (w_config w) sc (job_request job) (fileSystem w) in
      let w1 :=
        mkWorld (w_config w) (maxConcurrent w) (delete sid (activeExecutions w))
                (executionQueue w) (delete i (pending w)) (ex_fs ex)
                (spawned w ++ ex_spawns ex) (broadcasts w ++ ex_events ex)
                (returned w) (floating w) (enqueued w) (promoted w) (uuids w) in
      let w2 := processQueue now w1 in
      match job_origin job with
      | ByExecuteTest => settleCaller sid (finished (ex_settled ex)) w2
      | ByProcessQueue => settleNobody sid (ex_settled ex) w2
      end
  end.

Inductive Step : Type :=
  | Submit (now : Z) (req : Request)
  | Complete (now : Z) (i : nat) (sc : Scenario).

Definition step (w : World) (s : Step) : World :=
  match s with
  | Submit now req => executeTest now req w
  | Complete now i sc => complete now i sc w
  end.

Definition run (steps : list Step) (w : World) : World := fold_left step steps w.

(** *** Sample runs *)

Definition requestFor (sid : string) : Request := mkRequest exampleTest sid.

(** One request, admitted at once, whose dependency installation ends
    with exit code [code]. *)
Definition directRun (code : Z) : World :=
  run [Submit 10 (requestFor "s1");
       Complete 20 0 (scenario (exits code) (exits 0))]
      (newExecutor config).

(** Six requests under the repository's configuration (five slots):
    the sixth is queued, promoted when the first completes, and then
    runs under the scenario [sc]. *)
Definition promotedRun (sc : Scenario) : World :=
  run (map (fun sid => Submit 10 (requestFor sid)) ["s1"; "s2"; "s3"; "s4"; "s5"; "s6"]
       ++ [Complete 30 0 (scenario (exits 0) (exits 0)); Complete 40 4 sc])
      (newExecutor config).

(** The capacity bound and the queue discipline. *)
Definition withinCapacity (w : World) : Prop :=
  size (activeExecutions w) <= maxConcurrent w.

Definition fifo (w : World) : Prop :=
  enqueued w = (promoted w ++ executionQueue w)%list.

Definition eventsOf (sid : string) (w : World) : list Event :=
  List.filter (fun e => String.eqb (ev_sessionId e) sid) (broadcasts w).

Definition isErrorEvent (e : Event) : bool :=
  String.eqb (ev_type e) "test-execution-error"
  || String.eqb (ev_type e) "execution-error".

(** *** Accounting *)

(** The session ids handed to [executeTest] in a sequence of steps. *)
Definition submitted (steps : list Step) : list string :=
  flat_map (fun s => match s with
                     | Submit _ req => [req_sessionId req]
                     | Complete _ _ _ => []
                     end) steps.

Definition pendingSessions (w : World) : list string :=
  map (fun j => req_sessionId (job_request j)) (pending w).

Definition queuedSessions (w : World) : list string :=
  map req_sessionId (executionQueue w).

(** What holds of the scheduler while every submitted session id is
    fresh ([seen] lists those submitted so far): the running and the
    waiting sessions are pairwise distinct and were submitted, the
    active set holds exactly the running ones, and a request only waits
    while the active set is full. *)
Definition accounted (seen : list string) (w : World) : Prop :=
  NoDup (pendingSessions w ++ queuedSessions w)%list /\
  (forall sid, sid ∈ (pendingSessions w ++ queuedSessions w)%list -> sid ∈ seen) /\
  (forall sid, is_Some (activeExecutions w !! sid) <-> sid ∈ pendingSessions w) /\
  size (activeExecutions w) = length (pending w) /\
  size (activeExecutions w) <= maxConcurrent w /\
  (executionQueue w <> [] -> maxConcurrent w <= size (activeExecutions w)).

(** The sessions whose execution settled towards the caller of
    [executeTest] (the other entries of [returned] acknowledge a queued
    request), and those whose execution settled towards nobody. *)
Definition isAcknowledgement (answer : string * Settlement Reply) : bool :=
  match snd answer with
  | Resolved (Queued _) => true
  | _ => false
  end.

Definition answeredSessions (w : World) : list string :=
  map fst (List.filter (fun answer => negb (isAcknowledgement answer)) (returned w)).

Definition floatingSessions (w : World) : list string := map fst (floating w).

(** The places a submitted session can be in. *)
Definition places (w : World) : list string :=
  (queuedSessions w ++ pendingSessions w ++ answeredSessions w ++ floatingSessions w)%list.

End Scheduler.

(** ** The test and result store (testManager.js) *)

Module TestManager.

(** What [fs.readJson] finds in a store file: nothing readable (the
    file is missing or is not JSON, so the read throws), or a document
    whose list property may be absent. *)
Inductive JsonFile (A : Type) : Type :=
  | Unreadable
  | Document (items : option (list A)).
Arguments Unreadable {A}.
Arguments Document {A} items.

(** [loadTests] / [loadResults]: a failed read is logged and yields the
    empty list, as does a document without the list. *)
Definition load {A : Type} (file : JsonFile A) : list A :=
  match file with
  | Unreadable => []
  | Document None => []
  | Document (Some items) => items
  end.

(** What a mutating call leaves: its settlement and the store file.
    A write that throws leaves the file as it was read. *)
Record Saved (A R : Type) : Type := mkSaved {
  settled : Settlement R;
  file : JsonFile A
}.
Arguments mkSaved {A R} settled file.
Arguments settled {A R} s.
Arguments file {A R} s.

(** [saveTests] / [saveResults]: the whole list is written back. *)
Definition save {A R : Type} (write : Completion unit) (before : JsonFile A)
    (items : list A) (value : R) : Saved A R :=
  match write with
  | Normal _ => mkSaved (Resolved value) (Document (Some items))
  | Throw message => mkSaved (Rejected message) before
  end.

(** [id || uuidv4()]: an absent or empty id is replaced. *)
Definition orElse (o : option string) (fallback : string) : string :=
  match o with
  | Some s => if String.eqb s "" then fallback else s
  | None => fallback
  end.

(** [{ ...object, k1: v1, ... }]: the properties of the object that
    the literal sets itself are replaced, the others are copied. *)
Definition isSet (set : list string) (property : string * string) : bool :=
  existsb (String.eqb (fst property)) set.

Definition spread (object : list (string * string)) (set : list string)
    : list (string * string) :=
  List.filter (fun property => negb (isSet set property)) object.

(** The object a caller hands to [saveTest]; [td_fields] are its
    properties other than [id]. *)
Record TestData : Type := mkTestData {
  td_id : option string;
  td_fields : list (string * string)
}.

(** A stored test: the four properties that [saveTest] sets, and in
    [fields] the ones it copies from the caller. *)
Record Test : Type := mkTest {
  test_id : string;
  created : IsoString;
  updated : IsoString;
  version : string;
  fields : list (string * string)
}.

Definition withCreated (c : IsoString) (t : Test) : Test :=
  mkTest (test_id t) c (updated t) (version t) (fields t).

Definition hasId (i : string) (t : Test) : Prop := test_id t = i.

#[global] Instance hasId_dec (i : string) (t : Test) : Decision (hasId i t).
Proof. unfold hasId. apply _. Defined.

(** [saveTest]: [uuid] is what [uuidv4()] would answer, [now1] and
    [now2] the two readings of the clock. *)
Definition saveTest (before : JsonFile Test) (testData : TestData) (uuid : string)
    (now1 now2 : IsoString) (write : Completion unit) : Saved Test Test :=
  let tests := load before in
  let test := mkTest (orElse (td_id testData) uuid) now1 now2 "1.0.0"
                     (spread (td_fields testData)
                             ["id"; "created"; "updated"; "version"]) in
  match list_find (hasId (test_id test)) tests with
  | Some (existingIndex, existing) =>
      let test := withCreated (created existing) test in
      save write before (<[existingIndex := test]> tests) test
  | None => save write before (tests ++ [test])%list test
  end.

(** [getTest]: the first stored test with the id, or [undefined]. *)
Definition getTest (store : JsonFile Test) (i : string) : option Test :=
  snd <$> list_find (hasId i) (load store).

Definition getAllTests (store : JsonFile Test) : list Test := load store.

Definition keeps (i : string) (t : Test) : Prop := test_id t <> i.

#[global] Instance keeps_dec (i : string) (t : Test) : Decision (keeps i t).
Proof. unfold keeps. apply _. Defined.

Definition deleteTest (before : JsonFile Test) (i : string) (write : Completion unit)
    : Saved Test bool :=
  let tests := load before in
  let filteredTests := filter (keeps i) tests in
  if Nat.eqb (length filteredTests) (length tests)
  then mkSaved (Rejected "Test not found") before
  else save write before filteredTests true.

(** Results. *)
(** The object handed to [saveResult]; [rd_fields] are its properties
    other than [id] and [sessionId]. *)
Record ResultData : Type := mkResultData {
  rd_id : option string;
  rd_sessionId : option string;
  rd_fields : list (string * string)
}.

Record Result : Type := mkResult {
  result_id : string;
  sessionId : option string;
  saved : IsoString;
  result_fields : list (string * string)
}.

Definition saveResult (before : JsonFile Result) (resultData : ResultData)
    (uuid : string) (now : IsoString) (write : Completion unit) : Saved Result Result :=
  let results := load before in
  let result := mkResult (orElse (rd_id resultData) uuid) (rd_sessionId resultData) now
                         (spread (rd_fields resultData) ["id"; "sessionId"; "saved"]) in
  save write before (results ++ [result])%list result.

Definition ofSession (s : string) (r : Result) : Prop := sessionId r = Some s.

#[global] Instance ofSession_dec (s : string) (r : Result) : Decision (ofSession s r).
Proof. unfold ofSession. apply _. Defined.

(** [getResult]: the first stored result of the session. *)
Definition getResult (store : JsonFile Result) (s : string) : option Result :=
  snd <$> list_find (ofSession s) (load store).

Definition exampleStore : JsonFile Test :=
  Document (Some [mkTest "t1" (ISO 10) (ISO 10) "1.0.0" [("prompt", "log in")];
                  mkTest "t2" (ISO 20) (ISO 20) "1.0.0" [("prompt", "search")]]).

Definition exampleResults : JsonFile Result :=
  Document (Some [mkResult "r1" (Some "s1") (ISO 30) [("status", "failed")]]).

End TestManager.

(** ** The run configuration derived from a prompt (aiTestGenerator.js)
       and its rendering for the runner (mcpExecutor.js) *)

Module Generator.

(** The settings of config.js that the generator reads. *)
Record Settings : Type := mkSettings {
  testTimeout : Z;
  videoRecording : bool;
  traceOnFailure : bool;
  cfg_headless : bool;
  cfg_retries : Z;
  cfg_workers : Z
}.

Definition settings : Settings :=
  {| testTimeout := 300000; videoRecording := true; traceOnFailure := true;
     cfg_headless := true; cfg_retries := 2; cfg_workers := 4 |}.

(** The [options] of a generation request.  Numbers are integers. *)
Record Options : Type := mkOptions {
  o_timeout : option Z;
  o_browser : option string;
  o_retries : option Z;
  o_screenshot : option string;
  o_video : option string;
  o_trace : option string;
  o_headless : option bool;
  o_workers : option Z
}.

Definition noOptions : Options :=
  mkOptions None None None None None None None None.

(** A number that passes an [if]. *)
Definition nonZero (x : option Z) : option Z :=
  match x with
  | Some n => if Z.eqb n 0 then None else Some n
  | None => None
  end.

(** [x || fallback] on a number and on a string. *)
Definition numberOr (x : option Z) (fallback : Z) : Z :=
  match x with
  | Some n => if Z.eqb n 0 then fallback else n
  | None => fallback
  end.

Definition stringOr (x : option string) (fallback : string) : string :=
  match x with
  | Some s => if String.eqb s "" then fallback else s
  | None => fallback
  end.

(** The run configuration; its name, viewport and metadata are left
    out. *)
Record McpConfig : Type := mkMcpConfig {
  description : string;
  type : string;
  timeout : Z;
  retries : Z;
  screenshot : string;
  video : string;
  trace : string;
  headless : bool;
  browser : string;
  workers : Z;
  tags : list string
}.

(** [[...new Set(tags)]]: the first occurrence of each tag, in order. *)
Definition unique (tags : list string) : list string :=
  fold_left (fun seen tag => Streaming.setAdd tag seen) tags [].

Definition when (condition : bool) (tags : list string) : list string :=
  if condition then tags else [].

Section Prompt.

(** [String.prototype.toLowerCase] is left to the platform. *)
Variable toLowerCase : string -> string.

(** The tags pushed before duplicates are removed. *)
Definition pushed (prompt testType : string) : list string :=
  let lowerPrompt := toLowerCase prompt in
  let has word := Path.includes word lowerPrompt in
  ([testType]
   ++ when (has "login") ["login"; "authentication"]
   ++ when (has "signup" || has "register") ["signup"; "registration"]
   ++ when (has "payment" || has "checkout") ["payment"; "e-commerce"]
   ++ when (has "upload") ["upload"; "file-handling"]
   ++ when (has "search") ["search"; "functionality"]
   ++ when (has "form") ["form"; "validation"]
   ++ when (has "api") ["api"]
   ++ when (has "mobile") ["mobile"; "responsive"]
   ++ when (has "accessibility") ["accessibility"; "a11y"]
   ++ when (has "performance") ["performance"]
   ++ when (has "security") ["security"]
   ++ when (has "critical" || has "important") ["high-priority"]
   ++ when (has "regression") ["regression"]
   ++ when (has "smoke") ["smoke"])%list.

Definition extractTags (prompt testType : string) : list string :=
  unique (pushed prompt testType).

Definition determineTimeout (cfg : Settings) (prompt : string) (options : Options) : Z :=
  match nonZero (o_timeout options) with
  | Some n => n
  | None =>
      let lowerPrompt := toLowerCase prompt in
      let has word := Path.includes word lowerPrompt in
      if has "slow" || has "upload" || has "download" then 120000
      else if has "payment" || has "checkout" then 90000
      else if has "quick" || has "fast" then 30000
      else testTimeout cfg
  end%Z.

Definition determineBrowser (prompt : string) : string :=
  let lowerPrompt := toLowerCase prompt in
  let has word := Path.includes word lowerPrompt in
  if has "safari" || has "webkit" then "webkit"
  else if has "firefox" then "firefox"
  else if has "edge" then "chromium"
  else "chromium".

Definition generateMCPConfig (cfg : Settings) (prompt testType : string)
    (options : Options) : McpConfig :=
  let tags := extractTags prompt testType in
  let timeout := determineTimeout cfg prompt options in
  let browser := stringOr (o_browser options) (determineBrowser prompt) in
  {| description := prompt;
     type := testType;
     timeout := timeout;
     retries := numberOr (o_retries options) (cfg_retries cfg);
     screenshot := stringOr (o_screenshot options) "only-on-failure";
     video := stringOr (o_video options)
                (if videoRecording cfg then "retain-on-failure" else "off");
     trace := stringOr (o_trace options)
                (if traceOnFailure cfg then "retain-on-failure" else "off");
     headless := match o_headless options with
                 | Some h => h
                 | None => cfg_headless cfg
                 end;
     browser := browser;
     workers := numberOr (o_workers options) (cfg_workers cfg);
     tags := tags |}.

End Prompt.

(** The values that [generatePlaywrightConfig] writes into the
    configuration text of a run. *)
Record PlaywrightConfig : Type := mkPlaywrightConfig {
  pc_timeout : Z;
  pc_retries : Z;
  pc_workers : Z;
  pc_outputDir : string;
  pc_headless : bool;
  pc_screenshot : string;
  pc_video : string;
  pc_trace : string;
  pc_project : string;
  pc_device : string
}.

Definition getDeviceConfig (browser : string) : string :=
  if String.eqb browser "firefox" then "'Desktop Firefox'"
  else if String.eqb browser "webkit" then "'Desktop Safari'"
  else if String.eqb browser "edge" then "'Desktop Edge'"
  else "'Desktop Chrome'".

Definition generatePlaywrightConfig (cfg : Config) (mcpConfig : McpConfig)
    (sessionId : string) : PlaywrightConfig :=
  let outputDir := Path.join (st_results (storage cfg)) sessionId in
  {| pc_timeout := numberOr (Some (timeout mcpConfig)) 30000;
     pc_retries := numberOr (Some (retries mcpConfig)) 1;
     pc_workers := numberOr (Some (workers mcpConfig)) 1;
     pc_outputDir := outputDir;
     pc_headless := headless mcpConfig;
     pc_screenshot := stringOr (Some (screenshot mcpConfig)) "only-on-failure";
     pc_video := stringOr (Some (video mcpConfig)) "retain-on-failure";
     pc_trace := stringOr (Some (trace mcpConfig)) "retain-on-failure";
     pc_project := stringOr (Some (browser mcpConfig)) "chromium";
     pc_device := getDeviceConfig (browser mcpConfig) |}.

End Generator.

(** * Properties *)

Local Open Scope list_scope.

(** Decides a closed decidable proposition by evaluation. *)
Ltac by_evaluation :=
  match goal with
  | |- ?P =>
      let H := fresh in
      assert (H : bool_decide P = true) by (vm_compute; reflexivity);
      exact (proj1 (bool_decide_eq_true P) H)
  end.

(** ** The summary tally *)

Section SummaryFacts.
Import Summary.

Lemma Suite_nested_ind (P : Suite -> Prop) :
  (forall sp, P (mkSuite sp None)) ->
  (forall sp subs, Forall P subs -> P (mkSuite sp (Some subs))) ->
  forall s, P s.
Proof.
  intros Hleaf Hnode. fix IH 1. intros [sp [subs|]].
  - apply Hnode. induction subs as [|x xs IHxs]; constructor; [apply IH | exact IHxs].
  - apply Hleaf.
Qed.

Lemma addCounts_zero c : addCounts c zeroCounts = c.
Proof. destruct c; unfold addCounts; simpl. f_equal; lia. Qed.

Lemma addCounts_assoc a b c : addCounts (addCounts a b) c = addCounts a (addCounts b c).
Proof. unfold addCounts; simpl. f_equal; lia. Qed.

Lemma countOutcome_app o xs ys :
  countOutcome o (xs ++ ys) = countOutcome o xs + countOutcome o ys.
Proof.
  unfold countOutcome. induction xs as [|x xs IH]; simpl; [reflexivity|].
  destruct (hasOutcome o x); simpl; rewrite IH; reflexivity.
Qed.

Lemma tally_app xs ys : tally (xs ++ ys) = addCounts (tally xs) (tally ys).
Proof.
  unfold tally, addCounts; simpl.
  rewrite length_app, !countOutcome_app. reflexivity.
Qed.

Lemma countTest_tally c t : countTest c t = addCounts c (tally [t]).
Proof.
  destruct c as [n p f s]. unfold countTest, tally, addCounts, countOutcome, hasOutcome.
  simpl.
  destruct (String.eqb_spec (outcome t) "expected") as [E|E].
  - rewrite E. simpl. f_equal; lia.
  - destruct (String.eqb_spec (outcome t) "unexpected") as [U|U].
    + rewrite U. simpl. f_equal; lia.
    + destruct (String.eqb_spec (outcome t) "skipped") as [K|K]; simpl; f_equal; lia.
Qed.

Lemma fold_countTest ts : forall c, fold_left countTest ts c = addCounts c (tally ts).
Proof.
  induction ts as [|t ts IH]; intros c; simpl.
  - symmetry. apply addCounts_zero.
  - rewrite IH, countTest_tally, addCounts_assoc.
    f_equal. change (t :: ts) with ([t] ++ ts). symmetry. apply tally_app.
Qed.

Lemma countSpec_tally c spec : countSpec c spec = addCounts c (tally (specTests spec)).
Proof.
  unfold countSpec, specTests. destruct (tests spec) as [ts|]; simpl.
  - apply fold_countTest.
  - symmetry. apply addCounts_zero.
Qed.

Lemma countSpecs_tally sp : forall c,
  countSpecs c sp = addCounts c (tally (flat_map specTests (default [] sp))).
Proof.
  destruct sp as [l|]; simpl; intros c; [|symmetry; apply addCounts_zero].
  revert c. induction l as [|x l IH]; intros c; simpl.
  - symmetry. apply addCounts_zero.
  - rewrite IH, countSpec_tally, addCounts_assoc, tally_app. reflexivity.
Qed.

Lemma fold_countSuite subs :
  Forall (fun s => forall c, countSuite s c = addCounts c (tally (leafTests s))) subs ->
  forall c, fold_left (fun acc s => countSuite s acc) subs c
            = addCounts c (tally (flat_map leafTests subs)).
Proof.
  induction 1 as [|s subs Hs _ IH]; intros c; simpl.
  - symmetry. apply addCounts_zero.
  - rewrite IH, Hs, addCounts_assoc, tally_app. reflexivity.
Qed.

Lemma countSuite_tally s : forall c, countSuite s c = addCounts c (tally (leafTests s)).
Proof.
  induction s as [sp|sp subs IH] using Suite_nested_ind; intros c; simpl.
  - rewrite countSpecs_tally, app_nil_r. reflexivity.
  - rewrite (fold_countSuite subs IH), countSpecs_tally, addCounts_assoc, tally_app.
    reflexivity.
Qed.

Lemma countTestResults_tally ss c :
  countTestResults ss c = addCounts c (tally (docTests ss)).
Proof.
  unfold countTestResults, docTests. apply fold_countSuite.
  apply Forall_forall. intros s _. apply countSuite_tally.
Qed.

End SummaryFacts.

(** C7 (amended).  For every structured result document, whatever the
    nesting depth of its suites, the tally visits every leaf test:
    [testCount] is the number of leaves, [passedCount] the number of
    leaves whose outcome is "expected", [failedCount] the number whose
    outcome is "unexpected" and [skippedCount] the number whose outcome
    is "skipped" (a leaf with any other outcome is only counted in
    [testCount]).  The tree two levels deep with three leaves (two
    expected, one unexpected) gives 3, 2, 1, 0.  [avgTestTime] is the
    duration divided by [testCount], and 0 when [testCount] is 0. *)
Theorem summary_tally_by_outcome :
  (forall ss : list Summary.Suite,
     let c := Summary.countTestResults ss Summary.zeroCounts in
     Summary.testCount c = length (Summary.docTests ss) /\
     Summary.passedCount c = Summary.countOutcome "expected" (Summary.docTests ss) /\
     Summary.failedCount c = Summary.countOutcome "unexpected" (Summary.docTests ss) /\
     Summary.skippedCount c = Summary.countOutcome "skipped" (Summary.docTests ss)) /\
  (map Summary.depth Summary.nestedExample = [2] /\
   map Summary.outcome (Summary.docTests Summary.nestedExample)
     = ["expected"; "unexpected"; "expected"] /\
   Summary.countTestResults Summary.nestedExample Summary.zeroCounts
     = Summary.mkCounts 3 2 1 0) /\
  (forall status duration exitCode arts (doc : list Summary.Suite),
     let s := Summary.generateExecutionSummary status duration exitCode arts
                (Some (Summary.mkDoc (Some doc))) in
     Summary.sum_counts s = Summary.tally (Summary.docTests doc) /\
     Summary.executionTime (Summary.performance s) = duration /\
     (Summary.avgTestTime (Summary.performance s) ==
        match Summary.testCount (Summary.sum_counts s) with
        | O => 0
        | S _ => inject_Z duration
                 / inject_Z (Z.of_nat (Summary.testCount (Summary.sum_counts s)))
        end)%Q).
Proof.
  split; [|split].
  - intros ss c. subst c. rewrite countTestResults_tally.
    unfold Summary.addCounts, Summary.tally; simpl. repeat split; reflexivity.
  - repeat split; reflexivity.
  - intros status duration exitCode arts doc s. subst s.
    unfold Summary.generateExecutionSummary; simpl.
    rewrite countTestResults_tally.
    assert (E : Summary.addCounts Summary.zeroCounts (Summary.tally (Summary.docTests doc))
                = Summary.tally (Summary.docTests doc)) by reflexivity.
    rewrite E. split; [reflexivity|]. split; [reflexivity|].
    unfold Summary.average. simpl.
    destruct (length (Summary.docTests doc)) as [|n] eqn:L; [reflexivity|].
    rewrite Qmake_Qdiv. rewrite <- Pos.of_nat_succ. reflexivity.
Qed.

(** C7, as stated, fails: a leaf whose outcome is neither "expected"
    nor "unexpected" is not always counted as skipped.  The document
    with one "flaky" test has [skippedCount] 0. *)
Lemma flaky_leaf_is_not_counted_skipped :
  Summary.countOther (Summary.docTests Summary.flakyExample) = 1 /\
  Summary.countTestResults Summary.flakyExample Summary.zeroCounts
    = Summary.mkCounts 1 0 0 0 /\
  Summary.skippedCount
    (Summary.countTestResults Summary.flakyExample Summary.zeroCounts)
    <> Summary.countOther (Summary.docTests Summary.flakyExample).
Proof. repeat split; try reflexivity. vm_compute. discriminate. Qed.

(** ** The renaming rule *)

Lemma append_cons c (a b : string) : (String c a ++ b = String c (a ++ b))%string.
Proof. reflexivity. Qed.

Lemma append_length (a b : string) :
  String.length (a ++ b)%string = String.length a + String.length b.
Proof. induction a as [|c a IH]; [reflexivity|]. rewrite append_cons. simpl. lia. Qed.

Lemma append_same_length (a b x y : string) :
  String.length a = String.length b -> (a ++ x = b ++ y)%string -> a = b /\ x = y.
Proof.
  revert b. induction a as [|c a IH]; intros [|d b] L E; try discriminate.
  - split; [reflexivity | exact E].
  - rewrite !append_cons in E. injection E as -> E. injection L as L.
    destruct (IH b L E) as [-> ->]. split; reflexivity.
Qed.

Lemma append_inv_head (a x y : string) : (a ++ x = a ++ y)%string -> x = y.
Proof. intros E. apply (append_same_length a a x y eq_refl E). Qed.

Lemma append_inv_tail (a b c : string) : (a ++ c = b ++ c)%string -> a = b.
Proof.
  intros E. apply (append_same_length a b c c); [|exact E].
  apply (f_equal String.length) in E. rewrite !append_length in E. lia.
Qed.

Section PathFacts.
Import Path.

Lemma append_nil_r (a : string) : (a ++ "")%string = a.
Proof. induction a as [|c a IH]; [reflexivity|]. rewrite append_cons, IH. reflexivity. Qed.

Lemma append_assoc (a b c : string) : ((a ++ b) ++ c = a ++ (b ++ c))%string.
Proof.
  induction a as [|x a IH]; [reflexivity|]. rewrite !append_cons, IH. reflexivity.
Qed.

Lemma append_nonempty (a n : string) :
  n <> "" -> exists c r, (a ++ n)%string = String c r.
Proof.
  intros Hn. destruct a as [|x a].
  - destruct n as [|c r]; [contradiction|]. exists c, r. reflexivity.
  - exists x, (a ++ n)%string. reflexivity.
Qed.

Lemma segments_plain n : forall cur,
  noSeparator n = true -> segments cur n = [(cur ++ n)%string].
Proof.
  induction n as [|c n IH]; intros cur H; simpl in *.
  - rewrite append_nil_r. reflexivity.
  - apply andb_prop in H. destruct H as [Hc Hn]. apply negb_true_iff in Hc.
    rewrite Hc, IH by exact Hn. rewrite append_assoc. reflexivity.
Qed.

Lemma segments_join a n : forall cur,
  noSeparator n = true ->
  segments cur (a ++ "/" ++ n)%string = segments cur a ++ [n].
Proof.
  induction a as [|c a IH]; intros cur H.
  - change ("" ++ "/" ++ n)%string with (String "/" n). simpl.
    rewrite segments_plain by exact H. reflexivity.
  - rewrite append_cons. simpl. destruct (Ascii.eqb c "/").
    + rewrite IH by exact H. reflexivity.
    + apply IH. exact H.
Qed.

Lemma isPlainName_inv n :
  isPlainName n = true ->
  noSeparator n = true /\ n <> "" /\ n <> "." /\ n <> "..".
Proof.
  unfold isPlainName. intros H.
  apply andb_prop in H. destruct H as [H H3].
  apply andb_prop in H. destruct H as [H H2].
  apply andb_prop in H. destruct H as [H0 H1].
  apply negb_true_iff, String.eqb_neq in H1, H2, H3. auto.
Qed.

Lemma resolveSegment_plain allow stack n :
  isPlainName n = true -> resolveSegment allow stack n = n :: stack.
Proof.
  intros H. apply isPlainName_inv in H. destruct H as (_ & H1 & H2 & H3).
  unfold resolveSegment.
  apply String.eqb_neq in H1, H2, H3. rewrite H1, H2, H3. reflexivity.
Qed.

Lemma concat_snoc (xs : list string) (n : string) :
  String.concat "/" (xs ++ [n])
  = (match xs with [] => "" | _ => String.concat "/" xs ++ "/" end ++ n)%string.
Proof.
  induction xs as [|x xs IH]; [reflexivity|].
  destruct xs as [|y ys]; [simpl; rewrite append_assoc; reflexivity|].
  change (String.concat "/" ((x :: y :: ys) ++ [n]))
    with (x ++ "/" ++ String.concat "/" ((y :: ys) ++ [n]))%string.
  rewrite IH.
  change (String.concat "/" (x :: y :: ys))
    with (x ++ "/" ++ String.concat "/" (y :: ys))%string.
  rewrite !append_assoc. reflexivity.
Qed.

Lemma lastChar_app a n : n <> "" -> lastChar (a ++ n)%string = lastChar n.
Proof.
  intros Hn. induction a as [|c a IH]; [reflexivity|].
  rewrite append_cons. simpl. rewrite IH.
  destruct (append_nonempty a n Hn) as (x & r & E). rewrite E. reflexivity.
Qed.

Lemma lastChar_noSeparator n :
  noSeparator n = true -> trailingSeparator n = false.
Proof.
  unfold trailingSeparator. induction n as [|c n IH]; [reflexivity|].
  simpl. intros H. apply andb_prop in H. destruct H as [Hc Hn].
  destruct n as [|d n]; [apply negb_true_iff in Hc; exact Hc | exact (IH Hn)].
Qed.

Lemma isAbsolute_plain n : noSeparator n = true -> isAbsolute n = false.
Proof.
  destruct n as [|c n]; [reflexivity|]. simpl. intros H.
  apply andb_prop in H. destruct H as [Hc _]. apply negb_true_iff in Hc. exact Hc.
Qed.

(** Joining a directory with a file name proper puts the name, as it
    is, behind a prefix that only depends on the directory. *)
Lemma join_plain (dir : string) :
  exists prefix, forall n, isPlainName n = true -> join dir n = (prefix ++ n)%string.
Proof.
  destruct dir as [|c dir].
  - exists "". intros n H. pose proof (isPlainName_inv n H) as (Hsep & Hne & _).
    destruct n as [|x n]; [contradiction|]. unfold join, normalize, normalizeString.
    rewrite segments_plain by exact Hsep. simpl fold_left.
    rewrite resolveSegment_plain by exact H. simpl rev.
    change (String.concat "/" [("" ++ String x n)%string]) with (String x n).
    rewrite lastChar_noSeparator, isAbsolute_plain by exact Hsep. reflexivity.
  - set (d := String c dir).
    set (st := fold_left (resolveSegment (negb (isAbsolute d))) (segments "" d) []).
    exists ((if isAbsolute d then "/" else "")
            ++ match rev st with [] => "" | _ => String.concat "/" (rev st) ++ "/" end)%string.
    intros n H. pose proof (isPlainName_inv n H) as (Hsep & Hne & _).
    assert (Hjoin : join d n = normalize (d ++ "/" ++ n)%string).
    { destruct n; [contradiction | reflexivity]. }
    rewrite Hjoin. unfold normalize.
    assert (Habs : isAbsolute (d ++ "/" ++ n)%string = isAbsolute d) by reflexivity.
    assert (Htrail : trailingSeparator (d ++ "/" ++ n)%string = false).
    { unfold trailingSeparator. rewrite <- append_assoc, lastChar_app by exact Hne.
      apply (lastChar_noSeparator n Hsep). }
    assert (Hbody : normalizeString (d ++ "/" ++ n)%string (negb (isAbsolute d))
                    = (match rev st with [] => "" | _ => String.concat "/" (rev st) ++ "/" end
                       ++ n)%string).
    { unfold normalizeString. rewrite segments_join by exact Hsep.
      rewrite fold_left_app. simpl fold_left. fold st.
      rewrite resolveSegment_plain by exact H. simpl rev. apply concat_snoc. }
    rewrite Habs, Htrail, Hbody.
    destruct (append_nonempty
                match rev st with [] => "" | _ => (String.concat "/" (rev st) ++ "/")%string end
                n Hne) as (x & r & E).
    rewrite E.
    replace (d ++ "/" ++ n)%string with (String c (dir ++ "/" ++ n)%string) by reflexivity.
    cbv beta iota. rewrite <- E.
    destruct (isAbsolute d); [rewrite append_assoc|]; reflexivity.
Qed.

Lemma noSeparator_app a b :
  noSeparator (a ++ b)%string = noSeparator a && noSeparator b.
Proof.
  induction a as [|c a IH]; [reflexivity|]. rewrite append_cons. simpl.
  rewrite IH, andb_assoc. reflexivity.
Qed.

Lemma segments_noSeparator p : forall cur,
  noSeparator cur = true -> Forall (fun s => noSeparator s = true) (segments cur p).
Proof.
  induction p as [|c p IH]; intros cur H; simpl.
  - constructor; [exact H | constructor].
  - destruct (Ascii.eqb c "/") eqn:E.
    + constructor; [exact H | apply IH; reflexivity].
    + apply IH. rewrite noSeparator_app, H. simpl. rewrite E. reflexivity.
Qed.

Lemma basename_noSeparator p : noSeparator (basename p) = true.
Proof.
  unfold basename.
  assert (H : Forall (fun s => noSeparator s = true)
                     (List.filter nonEmpty (segments "" p))).
  { apply List.Forall_forall. intros x Hx. apply filter_In in Hx. destruct Hx as [Hx _].
    pose proof (segments_noSeparator p "" eq_refl) as F.
    rewrite List.Forall_forall in F. apply F. exact Hx. }
  induction H as [|x l Hx Hl IH]; [reflexivity|].
  destruct l as [|y l]; [exact Hx | exact IH].
Qed.

(** The storage name of a session without separator is a file name
    proper. *)
Lemma storageName_plain sid file :
  noSeparator sid = true -> isPlainName (Artifacts.storageName sid file) = true.
Proof.
  intros H. unfold isPlainName, Artifacts.storageName.
  rewrite !noSeparator_app, H, basename_noSeparator. simpl.
  destruct sid as [|c [|d [|e sid]]]; try reflexivity.
  - destruct c as [[] [] [] [] [] [] [] []]; reflexivity.
  - destruct c as [[] [] [] [] [] [] [] []]; try reflexivity;
      destruct d as [[] [] [] [] [] [] [] []]; reflexivity.
  - destruct c as [[] [] [] [] [] [] [] []]; try reflexivity;
      destruct d as [[] [] [] [] [] [] [] []]; reflexivity.
Qed.

End PathFacts.

(** C9 (amended).  Two executions with distinct sessionIds never give
    an artifact the same storage name when the two files have the same
    base name, nor when the two sessionIds have the same length; and
    when the sessionIds contain no path separator, the two target
    paths in a bucket of durable storage differ as well. *)
Theorem storageName_no_collision (cfg : Config) (k : Artifacts.Kind)
    (s1 s2 f1 f2 : string) :
  s1 <> s2 ->
  Path.basename f1 = Path.basename f2 \/ String.length s1 = String.length s2 ->
  Artifacts.storageName s1 f1 <> Artifacts.storageName s2 f2 /\
  (Path.noSeparator s1 = true -> Path.noSeparator s2 = true ->
   Artifacts.targetPath cfg k s1 f1 <> Artifacts.targetPath cfg k s2 f2).
Proof.
  intros Hne Hcase.
  assert (Hname : Artifacts.storageName s1 f1 <> Artifacts.storageName s2 f2).
  { unfold Artifacts.storageName. intros E. apply Hne. destruct Hcase as [Hb|Hl].
    - rewrite Hb in E. apply append_inv_tail in E. exact E.
    - apply (append_same_length _ _ _ _ Hl E). }
  split; [exact Hname|].
  intros H1 H2. unfold Artifacts.targetPath.
  destruct (join_plain (Artifacts.bucket cfg k)) as [prefix Hjoin].
  rewrite !Hjoin by (apply storageName_plain; assumption).
  intros E. apply append_inv_head in E. exact (Hname E).
Qed.

Lemma storageName_no_collision_witness :
  Artifacts.storageName "session-1" "out/shot.png"
    <> Artifacts.storageName "session-2" "other/shot.png" /\
  Artifacts.targetPath config Artifacts.Screenshot "session-1" "out/shot.png"
    <> Artifacts.targetPath config Artifacts.Screenshot "session-2" "other/shot.png".
Proof.
  destruct (storageName_no_collision config Artifacts.Screenshot
              "session-1" "session-2" "out/shot.png" "other/shot.png") as [Hn Hp].
  - discriminate.
  - left. reflexivity.
  - split; [exact Hn | apply Hp; reflexivity].
Defined.

(** C9, as stated, fails: with sessionIds of different lengths two
    executions can store different files under one name.  Session "a"
    producing b-c.png and session "a-b" producing c.png both write
    data/screenshots/a-b-c.png, and the second copy replaces the
    first.  And a sessionId with a path separator can meet another one
    after [path.join] has normalised the target: sessions "./a" and "a"
    store the same shot.png at data/screenshots/a-shot.png. *)
Lemma storageName_collision_across_sessions :
  "a" <> "a-b" /\
  Artifacts.storageName "a" "data/results/a/b-c.png"
    = Artifacts.storageName "a-b" "data/results/a-b/c.png" /\
  (let first :=
     Artifacts.processArtifacts config "data/results/a"
       (Normal [Artifacts.File "b-c.png" 10]) (fun _ => false) "a" ∅ in
   let second :=
     Artifacts.processArtifacts config "data/results/a-b"
       (Normal [Artifacts.File "c.png" 20]) (fun _ => false) "a-b"
       (Artifacts.stored first) in
   map Artifacts.path (Artifacts.screenshots (Artifacts.manifest first))
     = ["data/screenshots/a-b-c.png"] /\
   map Artifacts.path (Artifacts.screenshots (Artifacts.manifest second))
     = ["data/screenshots/a-b-c.png"] /\
   Artifacts.stored first !! "data/screenshots/a-b-c.png"
     = Some "data/results/a/b-c.png" /\
   Artifacts.stored second !! "data/screenshots/a-b-c.png"
     = Some "data/results/a-b/c.png" /\
   size (Artifacts.stored second) = 1) /\
  "./a" <> "a" /\
  Artifacts.targetPath config Artifacts.Screenshot "./a" "out/shot.png"
    = Artifacts.targetPath config Artifacts.Screenshot "a" "out/shot.png".
Proof.
  split; [discriminate|]. split; [reflexivity|].
  split; [repeat split; vm_compute; reflexivity|].
  split; [discriminate | reflexivity].
Qed.

(** ** The connection registry *)

Section StreamingFacts.
Import Streaming.

Lemma filter_pointwise {A} (f g : A -> bool) (l : list A) :
  (forall x, In x l -> f x = g x) -> List.filter f l = List.filter g l.
Proof.
  induction l as [|x l IH]; intros H; simpl; [reflexivity|].
  rewrite (H x) by (left; reflexivity).
  rewrite IH by (intros y Hy; apply H; right; exact Hy). reflexivity.
Qed.

Lemma filter_twice {A} (f g : A -> bool) (l : list A) :
  List.filter f (List.filter g l) = List.filter (fun x => g x && f x) l.
Proof.
  induction l as [|x l IH]; simpl; [reflexivity|].
  destruct (g x); simpl; [destruct (f x)|]; rewrite IH; reflexivity.
Qed.

Lemma mapGet_filter_key {V} (p : string -> bool) (k : string) (m : list (string * V)) :
  mapGet k (List.filter (fun kv => p (fst kv)) m) = if p k then mapGet k m else None.
Proof.
  induction m as [|[k' v] m IH]; simpl; [destruct (p k); reflexivity|].
  destruct (String.eqb_spec k k') as [->|Hne].
  - destruct (p k') eqn:Hp; simpl; [rewrite String.eqb_refl; reflexivity|].
    exact IH.
  - destruct (p k') eqn:Hp; simpl.
    + destruct (String.eqb_spec k k'); [contradiction|]. exact IH.
    + exact IH.
Qed.

Lemma mapGet_mapDelete {V} (id k : string) (m : list (string * V)) :
  mapGet k (mapDelete id m) = if String.eqb id k then None else mapGet k m.
Proof.
  unfold mapDelete. rewrite (mapGet_filter_key (fun x => negb (String.eqb id x))).
  destruct (String.eqb id k); reflexivity.
Qed.

Lemma mapGet_In_keys {V} (k : string) (v : V) (m : list (string * V)) :
  mapGet k m = Some v -> In k (map fst m).
Proof.
  induction m as [|[k' v'] m IH]; simpl; [discriminate|].
  destruct (String.eqb_spec k k') as [->|_]; [left; reflexivity|].
  intros H. right. apply IH. exact H.
Qed.

Lemma setHas_In (x : string) (s : list string) : setHas x s = true <-> In x s.
Proof.
  unfold setHas. rewrite existsb_exists. split.
  - intros [y [Hy E]]. apply String.eqb_eq in E. subst. exact Hy.
  - intros H. exists x. split; [exact H | apply String.eqb_refl].
Qed.

Lemma connections_removeConnection id svc :
  connections (removeConnection id svc) = mapDelete id (connections svc).
Proof.
  unfold removeConnection. destruct (mapGet id (connections svc)) eqn:E; [reflexivity|].
  unfold mapDelete. symmetry.
  assert (H : forall m : list (string * Connection),
             mapGet id m = None ->
             List.filter (fun kv => negb (String.eqb id (fst kv))) m = m).
  { induction m as [|[k v] m IH]; simpl; [reflexivity|].
    destruct (String.eqb id k); [discriminate|]. simpl. intros H. rewrite IH by exact H.
    reflexivity. }
  apply H. exact E.
Qed.

(** What a [forEach] over the connection ids [l] does: the accepted
    frames are those of the ids that are live, in order, and the
    registry loses the visited ids whose send raised. *)
Lemma fold_trySend frame l : forall svc sent,
  let r := fold_left (trySend frame) l (svc, sent) in
  snd r = sent ++ map (fun id => (id, frame)) (List.filter (liveIn svc) l) /\
  connections (fst r)
    = List.filter (fun kv => negb (setHas (fst kv) l && failingIn svc (fst kv)))
        (connections svc).
Proof.
  induction l as [|id l IH]; intros svc sent; simpl.
  - split; [rewrite app_nil_r; reflexivity|].
    symmetry.
    induction (connections svc) as [|x m IHm]; simpl; [|rewrite IHm]; reflexivity.
  - assert (Hskip : liveIn svc id = false -> failingIn svc id = false ->
              let r := fold_left (trySend frame) l (svc, sent) in
              snd r = sent ++ map (fun id => (id, frame))
                                (if liveIn svc id
                                 then id :: List.filter (liveIn svc) l
                                 else List.filter (liveIn svc) l) /\
              connections (fst r)
                = List.filter
                    (fun kv => negb ((String.eqb (fst kv) id || setHas (fst kv) l)
                                     && failingIn svc (fst kv)))
                    (connections svc)).
    { intros Hl Hf. rewrite Hl. destruct (IH svc sent) as [IH1 IH2].
      split; [exact IH1|]. rewrite IH2. apply filter_pointwise. intros [k v] _. simpl.
      destruct (String.eqb_spec k id) as [->|_]; [rewrite Hf, !andb_false_r|];
        reflexivity. }
    unfold liveIn at 1 2, failingIn at 1 in Hskip.
    unfold liveIn at 1. unfold isLive, isFailing in *.
    destruct (mapGet id (connections svc)) as [c|] eqn:Hget;
      [|apply Hskip; reflexivity].
    destruct (isOpen c) eqn:Hopen; [|apply Hskip; reflexivity].
    destruct (sendThrows (ws c)) eqn:Hthrow; simpl.
    + destruct (IH (removeConnection id svc) sent) as [IH1 IH2]. split.
      * rewrite IH1. do 2 f_equal. apply filter_pointwise. intros k _.
        unfold liveIn. rewrite connections_removeConnection, mapGet_mapDelete.
        destruct (String.eqb_spec id k) as [<-|_]; [|reflexivity].
        rewrite Hget. unfold isLive. rewrite Hopen, Hthrow. reflexivity.
      * rewrite IH2, connections_removeConnection. unfold mapDelete.
        rewrite filter_twice. apply filter_pointwise. intros [k v] _. simpl.
        unfold failingIn. rewrite connections_removeConnection, mapGet_mapDelete.
        rewrite (String.eqb_sym id k).
        destruct (String.eqb_spec k id) as [->|_]; simpl; [|reflexivity].
        rewrite Hget. unfold isFailing. rewrite Hopen, Hthrow. reflexivity.
    + destruct (IH svc (sent ++ [(id, frame)])) as [IH1 IH2]. split.
      * rewrite IH1, <- app_assoc. reflexivity.
      * rewrite IH2. apply filter_pointwise. intros [k v] _. simpl.
        destruct (String.eqb_spec k id) as [->|_]; [|reflexivity].
        unfold failingIn. rewrite Hget. unfold isFailing.
        rewrite Hopen, Hthrow, !andb_false_r. reflexivity.
Qed.

End StreamingFacts.

Section BestEffort.
Import Streaming.

Lemma trySend_per_connection frame l svc id c :
  mapGet id (connections svc) = Some c ->
  In id l ->
  let r := fold_left (trySend frame) l (svc, []) in
  (isLive c = true ->
     In (id, frame) (snd r) /\ mapGet id (connections (fst r)) = Some c) /\
  (isFailing c = true ->
     ~ In id (map fst (snd r)) /\ mapGet id (connections (fst r)) = None) /\
  (isOpen c = false ->
     ~ In id (map fst (snd r)) /\ mapGet id (connections (fst r)) = Some c).
Proof.
  intros Hget Hin r. destruct (fold_trySend frame l svc []) as [Hsent Hconn].
  fold r in Hsent, Hconn. simpl in Hsent.
  assert (Hlive : liveIn svc id = isLive c) by (unfold liveIn; rewrite Hget; reflexivity).
  assert (Hfail : failingIn svc id = isFailing c)
    by (unfold failingIn; rewrite Hget; reflexivity).
  assert (Hhas : setHas id l = true) by (apply setHas_In; exact Hin).
  assert (Hkeep : mapGet id (connections (fst r))
                  = if negb (isFailing c) then Some c else None).
  { rewrite Hconn.
    rewrite (mapGet_filter_key (fun k => negb (setHas k l && failingIn svc k))).
    rewrite Hhas, Hfail, Hget. reflexivity. }
  assert (Hnot : isLive c = false -> ~ In id (map fst (snd r))).
  { intros Hc Hi. rewrite Hsent, map_map in Hi. simpl in Hi. rewrite map_id in Hi.
    apply filter_In in Hi. destruct Hi as [_ Hi]. congruence. }
  unfold isLive, isFailing in *. split; [|split]; intros H; split.
  - rewrite Hsent. apply (in_map (fun i => (i, frame))). apply filter_In.
    split; [exact Hin | congruence].
  - rewrite Hkeep. apply andb_prop in H. destruct H as [_ H].
    apply negb_true_iff in H. rewrite H, andb_false_r. reflexivity.
  - apply Hnot. apply andb_prop in H. destruct H as [_ H]. rewrite H, andb_false_r.
    reflexivity.
  - rewrite Hkeep, H. reflexivity.
  - apply Hnot. rewrite H. reflexivity.
  - rewrite Hkeep, H. reflexivity.
Qed.

End BestEffort.

(** C10 (amended).  In a broadcast, and in a send to a channel the
    connection subscribes to: a live connection (open, transport
    accepts the frame) receives the stamped event and stays
    registered, whatever the other connections do; a connection whose
    send raises receives nothing and is removed from the registry; a
    connection that is not open receives nothing and stays in the
    registry (the send does not prune it).  Nothing is raised to the
    caller. *)
Theorem send_is_best_effort (now : Z) (m : Streaming.Message) (svc : Streaming.Service)
    (id : string) (c : Streaming.Connection) :
  Streaming.mapGet id (Streaming.connections svc) = Some c ->
  (let r := Streaming.broadcast now m svc in
   let frame := Streaming.stamp now None m in
   (Streaming.isLive c = true ->
      In (id, frame) (snd r) /\
      Streaming.mapGet id (Streaming.connections (fst r)) = Some c) /\
   (Streaming.isFailing c = true ->
      ~ In id (map fst (snd r)) /\
      Streaming.mapGet id (Streaming.connections (fst r)) = None) /\
   (Streaming.isOpen c = false ->
      ~ In id (map fst (snd r)) /\
      Streaming.mapGet id (Streaming.connections (fst r)) = Some c)) /\
  (forall channel subscribers,
     Streaming.mapGet channel (Streaming.subscriptions svc) = Some subscribers ->
     In id subscribers ->
     let r := Streaming.sendToChannel now channel m svc in
     let frame := Streaming.stamp now (Some channel) m in
     (Streaming.isLive c = true ->
        In (id, frame) (snd r) /\
        Streaming.mapGet id (Streaming.connections (fst r)) = Some c) /\
     (Streaming.isFailing c = true ->
        ~ In id (map fst (snd r)) /\
        Streaming.mapGet id (Streaming.connections (fst r)) = None) /\
     (Streaming.isOpen c = false ->
        ~ In id (map fst (snd r)) /\
        Streaming.mapGet id (Streaming.connections (fst r)) = Some c)).
Proof.
  intros Hget. split.
  - unfold Streaming.broadcast.
    apply (trySend_per_connection _ _ svc id c Hget).
    apply (mapGet_In_keys id c). exact Hget.
  - intros channel subscribers Hch Hin. unfold Streaming.sendToChannel. rewrite Hch.
    apply (trySend_per_connection _ _ svc id c Hget Hin).
Qed.

Lemma send_is_best_effort_witness :
  In ("c1", Streaming.stamp 5 None Streaming.exampleMessage)
     (snd (Streaming.broadcast 5 Streaming.exampleMessage Streaming.exampleService)) /\
  In ("c1", Streaming.stamp 5 (Some "analytics") Streaming.exampleMessage)
     (snd (Streaming.sendToChannel 5 "analytics" Streaming.exampleMessage
             Streaming.exampleService)).
Proof.
  destruct (send_is_best_effort 5 Streaming.exampleMessage Streaming.exampleService "c1"
              (Streaming.mkConnection (Streaming.mkWebSocket 1 false) ["analytics"] true
                                      (ISO 0)) eq_refl) as [[Hb _] Hc].
  split.
  - apply Hb. reflexivity.
  - destruct (Hc "analytics" ["c1"; "c2"; "c3"] eq_refl) as [Hl _].
    + left. reflexivity.
    + apply Hl. reflexivity.
Defined.

(** C10, as stated, fails: a connection that is gone is not pruned by
    the send.  The closed connection "c2" gets no frame and is still in
    the registry after a broadcast (and after a channel send), while
    "c3", whose send raises, is removed. *)
Lemma closed_connection_is_not_pruned :
  let r := Streaming.broadcast 5 Streaming.exampleMessage Streaming.exampleService in
  let s := Streaming.sendToChannel 5 "analytics" Streaming.exampleMessage
             Streaming.exampleService in
  Streaming.isOpen <$> Streaming.mapGet "c2" (Streaming.connections Streaming.exampleService)
    = Some false /\
  map fst (snd r) = ["c1"] /\
  Streaming.ids (fst r) = ["c1"; "c2"] /\
  Streaming.ids (fst s) = ["c1"; "c2"] /\
  Streaming.mapGet "c2" (Streaming.connections (fst r)) <> None.
Proof. repeat split; try reflexivity. vm_compute. discriminate. Qed.

(** ** The process runner *)

(** C3.  In the callback of [runTest] the options of [spawn] read
    [process.env] while the local constant [process] is still
    uninitialised: the lookup raises a ReferenceError.  So whenever
    dependency installation succeeds, [runTest] rejects with that
    error and the only process ever spawned is npm; and whatever the
    installation does, [runTest] rejects. *)
Theorem runTest_never_starts_the_runner (processEnv : list (string * string))
    (install run : Executor.ProcessRun) (td : Executor.TestData)
    (sid executionDir : string) :
  Executor.ending install = Executor.Close (Some 0%Z) ->
  let r := Executor.runTest processEnv install run td sid executionDir in
  Executor.resolveIdentifier "process"
    (Executor.initialize "args"
       (Executor.VStrings ["playwright"; "test"; "--config"; "playwright.config.ts"])
       (Executor.declare ["args"; "process"; "output"; "errorOutput"; "startTime"])
     :: Executor.enclosingScopes processEnv)
    = Throw Executor.tdzMessage /\
  Executor.settled r = Rejected Executor.tdzMessage /\
  map Executor.command (Executor.spawns r) = ["npm"] /\
  (forall install' run',
     exists m,
       Executor.settled (Executor.runTest processEnv install' run' td sid executionDir)
       = Rejected m).
Proof.
  intros Hok r. subst r. split; [reflexivity|].
  unfold Executor.runTest, Executor.installDependencies. rewrite Hok. simpl.
  split; [reflexivity|]. split; [reflexivity|].
  intros install' run'.
  destruct (Executor.ending install') as [[[| |]|]|m]; simpl; eexists; reflexivity.
Qed.

Lemma runTest_never_starts_the_runner_witness :
  Executor.settled
    (Executor.runTest [("PATH", "/usr/bin")] (Executor.exits 0) (Executor.exits 0)
                      Executor.exampleTest "s1" "data/tests/execution-s1")
  = Rejected Executor.tdzMessage.
Proof.
  apply (runTest_never_starts_the_runner [("PATH", "/usr/bin")] (Executor.exits 0)
           (Executor.exits 0) Executor.exampleTest "s1" "data/tests/execution-s1").
  reflexivity.
Defined.

(** C4: the code's behaviour at a failing input.  No exit code of the
    runner becomes a result.  The 'close' handler of lines 217-245 is
    written to build, for exit code [code], a result whose status is
    "passed" exactly when the code is 0; but
    whatever the runner would print and whatever code it would close
    with, after a successful installation [runTest] does not resolve
    with that result: it rejects with the ReferenceError raised at
    line 186, the runner is not among the processes spawned and no
    test-completed event is broadcast; the execution that awaits
    [runTest] rejects with the same error, and no result file is
    written. *)
Theorem runner_exit_code_yields_no_result (cfg : Config)
    (processEnv : list (string * string)) (install : Executor.ProcessRun)
    (printed : list (Executor.Stream * string)) (started ended : Z) (code : option Z)
    (td : Executor.TestData) (sid executionDir : string) :
  Executor.ending install = Executor.Close (Some 0%Z) ->
  let runner := Executor.mkRun printed (Executor.Close code) started ended in
  let expected :=
    Executor.onClose td sid (Executor.collect Executor.Stdout printed)
                     (Executor.collect Executor.Stderr printed) started ended code in
  let r := Executor.runTest processEnv install runner td sid executionDir in
  (Executor.status expected = "passed" <-> code = Some 0%Z) /\
  Executor.settled r = Rejected Executor.tdzMessage /\
  Executor.settled r <> Resolved expected /\
  ~ In "npx" (map Executor.command (Executor.spawns r)) /\
  (forall e, In e (Executor.events r) -> Executor.ev_type e <> "test-completed") /\
  (forall remove post fs,
     Executor.ex_settled
       (Executor.executionBody cfg
          (Executor.mkScenario None processEnv install runner post remove)
          (Executor.mkRequest td sid) fs)
     = Rejected Executor.tdzMessage) /\
  (forall create remove post fs,
     Executor.resultFiles
       (Executor.ex_fs
          (Executor.executionBody cfg
             (Executor.mkScenario create processEnv install runner post remove)
             (Executor.mkRequest td sid) fs))
     = Executor.resultFiles fs).
Proof.
  intros Hok runner expected r.
  assert (Hr : r = Executor.mkRan
                 (Executor.mkEvent "dependency-installation-started" sid Executor.NoData
                  :: map (Executor.chunkEvent "dependency-output" "dependency-error" sid)
                         (Executor.chunks install)
                  ++ [Executor.mkEvent "dependency-installation-completed" sid
                        Executor.NoData])
                 [Executor.mkSpawn "npm" ["install"] executionDir None]
                 (Rejected Executor.tdzMessage)).
  { subst r. unfold Executor.runTest, Executor.installDependencies. rewrite Hok. simpl.
    rewrite app_nil_r. reflexivity. }
  split; [|split; [|split; [|split; [|split; [|split]]]]].
  - subst expected. simpl. destruct code as [[| |]|]; split; intros H;
      try discriminate; reflexivity.
  - rewrite Hr. reflexivity.
  - rewrite Hr. discriminate.
  - rewrite Hr. simpl. intros [H|[]]. discriminate.
  - rewrite Hr. simpl. intros e [<-|He]; [discriminate|].
    apply in_app_iff in He. destruct He as [He|[<-|[]]]; [|discriminate].
    apply in_map_iff in He. destruct He as ([[] data] & <- & _); discriminate.
  - intros remove post fs. unfold Executor.executionBody. simpl.
    unfold Executor.runTest, Executor.installDependencies. rewrite Hok. reflexivity.
  - intros create remove post fs.
    unfold Executor.executionBody, Executor.createExecutionEnvironment.
    simpl. destruct create as [[[|n] m]|]; simpl; try reflexivity.
    unfold Executor.runTest, Executor.installDependencies. rewrite Hok. reflexivity.
Qed.

Lemma runner_exit_code_yields_no_result_witness :
  Executor.settled
    (Executor.runTest [("PATH", "/usr/bin")] (Executor.exits 0) (Executor.exits 0)
                      Executor.exampleTest "s1" "data/tests/execution-s1")
  <> Resolved (Executor.onClose Executor.exampleTest "s1" "" "" 100 250 (Some 0%Z)) /\
  Executor.settled
    (Executor.runTest [("PATH", "/usr/bin")] (Executor.exits 0) (Executor.exits 7)
                      Executor.exampleTest "s1" "data/tests/execution-s1")
  = Rejected Executor.tdzMessage.
Proof.
  split.
  - apply (runner_exit_code_yields_no_result config [("PATH", "/usr/bin")]
             (Executor.exits 0) [] 100 250 (Some 0%Z) Executor.exampleTest "s1"
             "data/tests/execution-s1").
    reflexivity.
  - apply (runner_exit_code_yields_no_result config [("PATH", "/usr/bin")]
             (Executor.exits 0) [] 100 250 (Some 7%Z) Executor.exampleTest "s1"
             "data/tests/execution-s1").
    reflexivity.
Defined.

(** ** Post-processing *)

Section PostProcessingFacts.
Import Executor.

Lemma processResults_run_fields cfg ps result sid fs :
  let r := fst (processResults cfg ps result sid fs) in
  exitCode r = exitCode result /\ status r = status result /\
  duration r = duration result /\ output r = output result /\
  errorOutput r = errorOutput result /\ sessionId r = sessionId result.
Proof.
  unfold processResults.
  destruct (ensureResultsDir ps); [|simpl; repeat split].
  destruct (resultsJson ps) as [[[doc|e]|m]|]; unfold summarize; simpl;
    try destruct (detailedResults result) as [[doc'|e']|];
    destruct (writeResult ps); simpl; repeat split.
Qed.

Lemma pushAll_kind k (l : list Artifacts.Artifact) : forall m,
  fold_left (fun m a => Artifacts.push k a m) l m
  = match k with
    | Artifacts.Screenshot =>
        Artifacts.mkManifest (Artifacts.screenshots m ++ l) (Artifacts.videos m)
                             (Artifacts.traces m) (Artifacts.reports m)
    | Artifacts.Video =>
        Artifacts.mkManifest (Artifacts.screenshots m) (Artifacts.videos m ++ l)
                             (Artifacts.traces m) (Artifacts.reports m)
    | Artifacts.Trace =>
        Artifacts.mkManifest (Artifacts.screenshots m) (Artifacts.videos m)
                             (Artifacts.traces m ++ l) (Artifacts.reports m)
    end.
Proof.
  induction l as [|a l IH]; intros m.
  - destruct k, m; simpl; rewrite app_nil_r; reflexivity.
  - simpl. rewrite IH. destruct k; simpl; rewrite <- app_assoc; reflexivity.
Qed.

(** A copy loop pushes the entries of the files copied before the
    first failing copy, and tells whether a copy failed. *)
Lemma copyLoop_kept cfg k sid thr files : forall acc,
  Artifacts.manifest (fst (Artifacts.copyLoop cfg k sid thr files acc))
  = fold_left (fun m a => Artifacts.push k a m)
      (map (Artifacts.entryOf cfg k sid) (Artifacts.copiedBefore thr files))
      (Artifacts.manifest acc) /\
  snd (Artifacts.copyLoop cfg k sid thr files acc) = Artifacts.stopped thr files.
Proof.
  induction files as [|[file sz] files IH]; intros acc; simpl; [auto|].
  destruct (thr file); simpl; [auto|]. apply IH.
Qed.

Lemma processArtifacts_kept cfg resultsDir contents thr sid store :
  Artifacts.manifest (Artifacts.processArtifacts cfg resultsDir contents thr sid store)
  = Artifacts.collectedBeforeFailure cfg resultsDir contents thr sid.
Proof.
  unfold Artifacts.processArtifacts, Artifacts.collectedBeforeFailure.
  set (start := Artifacts.mkCollected Artifacts.emptyManifest store).
  set (shots := Artifacts.findFiles resultsDir contents [".png"; ".jpg"]%string).
  set (clips := Artifacts.findFiles resultsDir contents [".webm"; ".mp4"]%string).
  set (zips := List.filter Artifacts.isTrace
                 (Artifacts.findFiles resultsDir contents [".zip"]%string)).
  destruct (copyLoop_kept cfg Artifacts.Screenshot sid thr shots start) as [M1 T1].
  rewrite pushAll_kind in M1.
  destruct (Artifacts.copyLoop cfg Artifacts.Screenshot sid thr shots start) as [c1 t1].
  simpl in M1, T1. subst t1.
  destruct (Artifacts.stopped thr shots); simpl; [exact M1|].
  destruct (copyLoop_kept cfg Artifacts.Video sid thr clips c1) as [M2 T2].
  rewrite pushAll_kind in M2.
  destruct (Artifacts.copyLoop cfg Artifacts.Video sid thr clips c1) as [c2 t2].
  simpl in M2, T2. rewrite M1 in M2. simpl in M2. subst t2.
  destruct (Artifacts.stopped thr clips); simpl; [exact M2|].
  destruct (copyLoop_kept cfg Artifacts.Trace sid thr zips c2) as [M3 T3].
  rewrite pushAll_kind in M3.
  destruct (Artifacts.copyLoop cfg Artifacts.Trace sid thr zips c2) as [c3 t3].
  simpl in M3, T3. rewrite M2 in M3. simpl in M3. subst t3.
  destruct (Artifacts.stopped thr zips); simpl; [exact M3|].
  destruct (Artifacts.hasEntry "html-report" contents); simpl; [|exact M3].
  destruct (thr (Path.join resultsDir "html-report")); simpl; [exact M3|].
  rewrite M3. reflexivity.
Qed.

End PostProcessingFacts.

(** C8 (amended).  [processResults] never rejects: it always returns
    the result, with the fields of the run unchanged.  When ensuring the
    results directory, reading and parsing results.json, summarising a
    parsed document that is not a suite tree, or writing the result
    file raises, the message is attached as [processingError].  An
    error during artifact discovery (listing a directory, copying a
    file) is caught inside [processArtifacts] and attaches nothing:
    whatever the listing and the copies do, the result carries the
    artifacts copied before the first failing copy, and when nothing
    else raises it keeps its [processingError] and is written to the
    result file. *)
Theorem processResults_returns_the_result (cfg : Config) (ps : Executor.PostScenario)
    (result : Executor.ExecutionResult) (sid : string) (fs : Executor.FileSystem) :
  let r := fst (Executor.processResults cfg ps result sid fs) in
  let fs' := snd (Executor.processResults cfg ps result sid fs) in
  (Executor.exitCode r = Executor.exitCode result /\
   Executor.status r = Executor.status result /\
   Executor.duration r = Executor.duration result /\
   Executor.output r = Executor.output result /\
   Executor.errorOutput r = Executor.errorOutput result /\
   Executor.sessionId r = Executor.sessionId result) /\
  (forall m, Executor.ensureResultsDir ps = Throw m ->
             Executor.processingError r = Some m) /\
  (forall m, Executor.ensureResultsDir ps = Normal tt ->
             Executor.resultsJson ps = Some (Throw m) ->
             Executor.processingError r = Some m) /\
  (Executor.ensureResultsDir ps = Normal tt ->
   (forall m, Executor.resultsJson ps <> Some (Throw m)) ->
   Executor.artifacts r
     = Some (Artifacts.collectedBeforeFailure cfg
               (Path.join (st_results (storage cfg)) sid)
               (Executor.resultsTree ps) (Executor.copyThrows ps) sid) /\
   match match Executor.resultsJson ps with
         | Some (Normal document) => Some document
         | _ => Executor.detailedResults result
         end
   with
   | Some (Executor.IllShaped m) =>
       Executor.processingError r = Some m /\
       Executor.resultFiles fs' = Executor.resultFiles fs
   | _ =>
       match Executor.writeResult ps with
       | Throw m => Executor.processingError r = Some m
       | Normal _ =>
           Executor.processingError r = Executor.processingError result /\
           Executor.resultFiles fs' !! Executor.resultFileOf cfg sid = Some r
       end
   end).
Proof.
  intros r fs'. split; [apply processResults_run_fields|].
  subst r fs'. unfold Executor.processResults. split; [|split].
  - intros m ->. reflexivity.
  - intros m -> ->. reflexivity.
  - intros -> Hjson.
    destruct (Executor.resultsJson ps) as [[[doc|e]|m]|]; unfold Executor.summarize;
      simpl; try rewrite processArtifacts_kept.
    + destruct (Executor.writeResult ps) as [[]|m]; simpl; (split; [reflexivity|]).
      * split; [reflexivity|]. apply lookup_insert_eq.
      * reflexivity.
    + split; [reflexivity|]. split; reflexivity.
    + exfalso. exact (Hjson m eq_refl).
    + destruct (Executor.detailedResults result) as [[doc|e]|]; simpl.
      * destruct (Executor.writeResult ps) as [[]|m]; simpl; (split; [reflexivity|]).
        -- split; [reflexivity|]. apply lookup_insert_eq.
        -- reflexivity.
      * split; [reflexivity|]. split; reflexivity.
      * destruct (Executor.writeResult ps) as [[]|m]; simpl; (split; [reflexivity|]).
        -- split; [reflexivity|]. apply lookup_insert_eq.
        -- reflexivity.
Qed.

Lemma processResults_returns_the_result_witness :
  Executor.processingError
    (fst (Executor.processResults config Executor.postParseFails
            Executor.exampleResult "s1" Executor.emptyFS))
    = Some "Unexpected end of JSON input" /\
  Executor.artifacts
    (fst (Executor.processResults config Executor.postSecondCopyFails
            Executor.exampleResult "s1" Executor.emptyFS))
    = Some (Artifacts.mkManifest
              [Artifacts.mkArtifact "s1-a.png" "data/screenshots/s1-a.png"
                 "/screenshots/s1-a.png" 10] [] [] []) /\
  Executor.processingError
    (fst (Executor.processResults config Executor.postIllShaped
            Executor.exampleResult "s1" Executor.emptyFS))
    = Some "suites is not iterable".
Proof.
  split; [|split].
  - destruct (processResults_returns_the_result config Executor.postParseFails
                Executor.exampleResult "s1" Executor.emptyFS) as (_ & _ & H & _).
    apply H; reflexivity.
  - destruct (processResults_returns_the_result config Executor.postSecondCopyFails
                Executor.exampleResult "s1" Executor.emptyFS) as (_ & _ & _ & H).
    destruct H as (H & _); [reflexivity | discriminate |].
    rewrite H. vm_compute. reflexivity.
  - destruct (processResults_returns_the_result config Executor.postIllShaped
                Executor.exampleResult "s1" Executor.emptyFS) as (_ & _ & _ & H).
    destruct H as (_ & H); [reflexivity | discriminate |].
    exact (proj1 H).
Defined.

(** C8, as stated, fails twice.  When listing the results directory
    raises, or when a copy raises, no [processingError] is attached;
    and when parsing results.json raises, the error is attached but no
    result file is written. *)
Lemma post_processing_error_not_attached_or_not_persisted :
  let discovery := Executor.processResults config Executor.postDiscoveryFails
                     Executor.exampleResult "s1" Executor.emptyFS in
  let copy := Executor.processResults config Executor.postCopyFails
                Executor.exampleResult "s1" Executor.emptyFS in
  let parse := Executor.processResults config Executor.postParseFails
                 Executor.exampleResult "s1" Executor.emptyFS in
  Executor.processingError (fst discovery) = None /\
  Executor.processingError (fst discovery)
    <> Some "EACCES: permission denied, scandir" /\
  Executor.processingError (fst copy) = None /\
  Executor.artifacts (fst copy) = Some Artifacts.emptyManifest /\
  Executor.processingError (fst parse) = Some "Unexpected end of JSON input" /\
  Executor.resultFiles (snd parse) !! Executor.resultFileOf config "s1" = None.
Proof. repeat split. discriminate. Qed.

(** ** One execution *)

Section ExecutionFacts.
Import Executor.

Lemma runTest_rejects processEnv install run td sid dir :
  exists m, settled (runTest processEnv install run td sid dir) = Rejected m.
Proof.
  unfold runTest, installDependencies.
  destruct (ending install) as [[[| |]|]|m]; simpl; eexists; reflexivity.
Qed.

(** Once the workspace directory exists, the execution rejects and
    leaves it in place. *)
Lemma executionBody_leaves_workspace cfg sc req fs :
  sc_create sc = None ->
  let ex := executionBody cfg sc req fs in
  workspaceOf cfg (req_sessionId req) ∈ dirs (ex_fs ex) /\
  exists m, ex_settled ex = Rejected m.
Proof.
  intros Hc. unfold executionBody, createExecutionEnvironment. rewrite Hc.
  destruct (runTest_rejects (sc_processEnv sc) (sc_install sc) (sc_runner sc)
              (req_testData req) (req_sessionId req)
              (workspaceOf cfg (req_sessionId req))) as [m Hm].
  rewrite Hm. simpl. split; [set_solver | eexists; reflexivity].
Qed.

End ExecutionFacts.

(** C5: the code's behaviour at a failing input.  A request is admitted
    at once and its dependency installation ends with exit code 1: the
    caller gets the rejection, and the workspace directory
    data/tests/execution-s1 still exists.  The same happens when the
    installation succeeds, since the runner callback then raises. *)
Theorem workspace_survives_failed_execution :
  Executor.workspaceOf config "s1" = "data/tests/execution-s1" /\
  Scheduler.returned (Scheduler.directRun 1)
    = [("s1", Rejected "Dependency installation failed with exit code 1")] /\
  "data/tests/execution-s1" ∈ Executor.dirs (Scheduler.fileSystem (Scheduler.directRun 1)) /\
  Scheduler.returned (Scheduler.directRun 0) = [("s1", Rejected Executor.tdzMessage)] /\
  "data/tests/execution-s1" ∈ Executor.dirs (Scheduler.fileSystem (Scheduler.directRun 0)).
Proof.
  split; [reflexivity|]. split; [vm_compute; reflexivity|].
  split; [by_evaluation|].
  split; [vm_compute; reflexivity|].
  by_evaluation.
Qed.

(** ** The scheduler *)

Section SchedulerFacts.
Import Executor Scheduler.

Lemma executeTestNow_capacity now origin req w :
  size (activeExecutions w) < maxConcurrent w ->
  withinCapacity (executeTestNow now origin req w).
Proof.
  unfold withinCapacity, executeTestNow; simpl. intros H. rewrite map_size_insert.
  destruct (activeExecutions w !! req_sessionId req); simpl; lia.
Qed.

Lemma processQueue_capacity now w : withinCapacity w -> withinCapacity (processQueue now w).
Proof.
  intros H. unfold processQueue. destruct (executionQueue w) as [|req rest]; [exact H|].
  destruct (Nat.ltb_spec (size (activeExecutions w)) (maxConcurrent w)); [|exact H].
  apply executeTestNow_capacity. simpl. assumption.
Qed.

Lemma processQueue_fifo now w : fifo w -> fifo (processQueue now w).
Proof.
  unfold fifo, processQueue. intros H.
  destruct (executionQueue w) as [|req rest] eqn:E; [rewrite E; exact H|].
  destruct (size (activeExecutions w) <? maxConcurrent w)%nat; simpl.
  - rewrite H, <- app_assoc. reflexivity.
  - rewrite E. exact H.
Qed.

Lemma processQueue_maxConcurrent now w :
  maxConcurrent (processQueue now w) = maxConcurrent w.
Proof.
  unfold processQueue. destruct (executionQueue w); [reflexivity|].
  destruct (size (activeExecutions w) <? maxConcurrent w)%nat; reflexivity.
Qed.

Lemma executeTest_invariant now req w :
  withinCapacity w -> fifo w ->
  withinCapacity (executeTest now req w) /\ fifo (executeTest now req w) /\
  maxConcurrent (executeTest now req w) = maxConcurrent w.
Proof.
  intros Hc Hf. unfold executeTest.
  destruct (Nat.leb_spec (maxConcurrent w) (size (activeExecutions w))) as [Hfull|Hfree].
  - unfold withinCapacity, fifo in *; simpl. rewrite Hf, app_assoc. auto.
  - split; [apply executeTestNow_capacity; exact Hfree|]. split; [exact Hf | reflexivity].
Qed.

Lemma complete_invariant now i sc w :
  withinCapacity w -> fifo w ->
  withinCapacity (complete now i sc w) /\ fifo (complete now i sc w) /\
  maxConcurrent (complete now i sc w) = maxConcurrent w.
Proof.
  intros Hc Hf. unfold complete. destruct (pending w !! i) as [job|]; [|auto].
  set (w1 := mkWorld _ _ _ _ _ _ _ _ _ _ _ _ _).
  assert (Hc1 : withinCapacity w1).
  { unfold withinCapacity in *; simpl. rewrite map_size_delete.
    destruct (activeExecutions w !! req_sessionId (job_request job)); simpl; lia. }
  assert (Hf1 : fifo w1) by exact Hf.
  pose proof (processQueue_capacity now w1 Hc1) as Hc2.
  pose proof (processQueue_fifo now w1 Hf1) as Hf2.
  pose proof (processQueue_maxConcurrent now w1) as Hm2.
  destruct (job_origin job); (split; [exact Hc2|]; split; [exact Hf2 | exact Hm2]).
Qed.

Lemma run_invariant steps : forall w,
  withinCapacity w -> fifo w ->
  withinCapacity (run steps w) /\ fifo (run steps w) /\
  maxConcurrent (run steps w) = maxConcurrent w.
Proof.
  induction steps as [|s steps IH]; intros w Hc Hf; [auto|].
  assert (Hs : withinCapacity (step w s) /\ fifo (step w s) /\
               maxConcurrent (step w s) = maxConcurrent w).
  { destruct s; [apply executeTest_invariant | apply complete_invariant]; assumption. }
  destruct Hs as (Hc' & Hf' & Hm').
  destruct (IH (step w s) Hc' Hf') as (? & ? & Hm).
  change (run (s :: steps) w) with (run steps (step w s)).
  repeat split; try assumption. rewrite Hm. exact Hm'.
Qed.

(** A completion takes at most one request from the queue, its head,
    and admits it. *)
Lemma complete_promotes_at_most_one now i sc w :
  let w' := complete now i sc w in
  (executionQueue w' = executionQueue w /\ promoted w' = promoted w) \/
  (exists req,
     executionQueue w = req :: executionQueue w' /\
     promoted w' = promoted w ++ [req] /\
     is_Some (activeExecutions w' !! req_sessionId req)).
Proof.
  unfold complete. destruct (pending w !! i) as [job|]; [|left; auto].
  set (w1 := mkWorld _ _ _ _ _ _ _ _ _ _ _ _ _).
  assert (H : (executionQueue (processQueue now w1) = executionQueue w /\
               promoted (processQueue now w1) = promoted w) \/
              (exists req,
                 executionQueue w = req :: executionQueue (processQueue now w1) /\
                 promoted (processQueue now w1) = promoted w ++ [req] /\
                 is_Some (activeExecutions (processQueue now w1) !! req_sessionId req))).
  { unfold processQueue. change (executionQueue w1) with (executionQueue w).
    destruct (executionQueue w) as [|req rest]; [left; auto|].
    destruct (size (activeExecutions w1) <? maxConcurrent w1)%nat; [|left; auto].
    right. exists req. simpl. repeat split. rewrite lookup_insert_eq. eauto. }
  destruct (job_origin job); exact H.
Qed.

End SchedulerFacts.

(** C1.  After any sequence of calls of [executeTest] and completions of
    runs (successful or failed), the active set holds at most
    [maxConcurrentTests] entries.  A submission that finds the set full
    is appended to the queue and leaves the active set alone; one that
    finds room is started at once.  Each completion removes at most one
    request from the queue, its head, and admits it.  The requests ever
    queued are, in order, those promoted so far followed by those still
    waiting: queued requests are admitted in the order of submission. *)
Theorem scheduler_capacity_and_fifo (cfg : Config) (steps : list Scheduler.Step) :
  let w := Scheduler.run steps (Scheduler.newExecutor cfg) in
  size (Scheduler.activeExecutions w) <= maxConcurrentTests cfg /\
  Scheduler.enqueued w = Scheduler.promoted w ++ Scheduler.executionQueue w /\
  (forall now req,
     let w' := Scheduler.executeTest now req w in
     if (maxConcurrentTests cfg <=? size (Scheduler.activeExecutions w))%nat
     then Scheduler.executionQueue w' = Scheduler.executionQueue w ++ [req] /\
          Scheduler.activeExecutions w' = Scheduler.activeExecutions w /\
          Scheduler.pending w' = Scheduler.pending w
     else Scheduler.executionQueue w' = Scheduler.executionQueue w /\
          is_Some (Scheduler.activeExecutions w' !! Executor.req_sessionId req) /\
          Scheduler.pending w'
            = Scheduler.pending w ++ [Scheduler.mkJob req Scheduler.ByExecuteTest]) /\
  (forall now i sc,
     let w' := Scheduler.complete now i sc w in
     (Scheduler.executionQueue w' = Scheduler.executionQueue w /\
      Scheduler.promoted w' = Scheduler.promoted w) \/
     (exists req,
        Scheduler.executionQueue w = req :: Scheduler.executionQueue w' /\
        Scheduler.promoted w' = Scheduler.promoted w ++ [req] /\
        is_Some (Scheduler.activeExecutions w' !! Executor.req_sessionId req))).
Proof.
  intros w.
  destruct (run_invariant steps (Scheduler.newExecutor cfg)) as (Hc & Hf & Hm).
  { unfold Scheduler.withinCapacity. simpl. rewrite map_size_empty. lia. }
  { reflexivity. }
  fold w in Hc, Hf, Hm. simpl in Hm. unfold Scheduler.withinCapacity in Hc.
  split; [rewrite <- Hm; exact Hc|]. split; [exact Hf|]. split.
  - intros now req w'. subst w'. unfold Scheduler.executeTest. rewrite Hm.
    destruct (maxConcurrentTests cfg <=? size (Scheduler.activeExecutions w))%nat; simpl.
    + auto.
    + split; [reflexivity|]. split; [|reflexivity]. rewrite lookup_insert_eq. eauto.
  - intros now i sc. apply complete_promotes_at_most_one.
Qed.

Section DeliveryFacts.
Import Executor Scheduler.

(** The settlement of a run started by [processQueue] reaches no
    caller: [returned] and the broadcast log get nothing from it beyond
    the run's own events and the start of the next promoted request. *)
Lemma complete_promoted_reaches_nobody now i sc w job :
  pending w !! i = Some job ->
  job_origin job = ByProcessQueue ->
  let w' := complete now i sc w in
  returned w' = returned w /\
  floating w'
    = floating w ++
      [(req_sessionId (job_request job),
        ex_settled (executionBody (w_config w) sc (job_request job) (fileSystem w)))].
Proof.
  intros Hjob Horigin. unfold complete. rewrite Hjob, Horigin.
  set (w1 := mkWorld _ _ _ _ _ _ _ _ _ _ _ _ _).
  assert (H : returned (processQueue now w1) = returned w /\
              floating (processQueue now w1) = floating w).
  { unfold processQueue. destruct (executionQueue w1); [auto|].
    destruct (size (activeExecutions w1) <? maxConcurrent w1)%nat; auto. }
  destruct H as [Hr Hf]. simpl. rewrite Hr, Hf. auto.
Qed.

End DeliveryFacts.

(** C2: the code's behaviour at a failing input.  Six requests arrive
    with five slots; the sixth is queued and later promoted.  Its
    caller only ever receives the queued acknowledgement: the
    settlement of the promoted run (here a rejection) goes to a promise
    that nobody holds, and no event reports it. *)
Theorem promoted_result_reaches_no_caller :
  let w := Scheduler.promotedRun (Executor.scenario (Executor.exits 0) (Executor.exits 0)) in
  map Executor.req_sessionId (Scheduler.promoted w) = ["s6"] /\
  Scheduler.returned w
    = [("s6", Resolved (Executor.Queued "s6")); ("s1", Rejected Executor.tdzMessage)] /\
  Scheduler.floating w = [("s6", Rejected Executor.tdzMessage)] /\
  map Executor.ev_type (Scheduler.eventsOf "s6" w)
    = ["execution-queued"; "execution-completed"; "execution-started";
       "dependency-installation-started"; "dependency-installation-completed"].
Proof. repeat split; vm_compute; reflexivity. Qed.

(** C6: the code's behaviour at a failing input.  The promoted sixth
    request fails in dependency installation.  Its slot is freed and
    the rejection is not turned into a failed result, but the rejection
    reaches nobody and no error event is broadcast for the session;
    a request admitted at once with the same failure gets the route's
    execution-error event. *)
Theorem promoted_dependency_failure_is_unreported :
  let w := Scheduler.promotedRun (Executor.scenario (Executor.exits 1) (Executor.exits 0)) in
  Scheduler.floating w
    = [("s6", Rejected "Dependency installation failed with exit code 1")] /\
  map fst (Scheduler.returned w) = ["s6"; "s1"] /\
  Scheduler.returned w !! 0 = Some ("s6", Resolved (Executor.Queued "s6")) /\
  map Executor.ev_type (Scheduler.eventsOf "s6" w)
    = ["execution-queued"; "execution-completed"; "execution-started";
       "dependency-installation-started"] /\
  List.filter Scheduler.isErrorEvent (Scheduler.eventsOf "s6" w) = [] /\
  Scheduler.activeExecutions w !! "s6" = None /\
  Scheduler.executionQueue w = [] /\
  map Executor.ev_type (Scheduler.eventsOf "s1" (Scheduler.directRun 1))
    = ["execution-started"; "dependency-installation-started"; "execution-error"].
Proof.
  repeat split; vm_compute; reflexivity.
Qed.

(** ** Accounting of requests *)

Section AccountingFacts.
Import Executor Scheduler.

Lemma accounted_queued now req seen w :
  accounted seen w ->
  req_sessionId req ∉ seen ->
  maxConcurrent w <= size (activeExecutions w) ->
  accounted (seen ++ [req_sessionId req]) (executeTest now req w).
Proof.
  intros (Hnd & Hseen & Hdom & Hsize & Hcap & Hfull) Hfresh Hle.
  unfold executeTest. destruct (Nat.leb_spec (maxConcurrent w) (size (activeExecutions w)));
    [|lia].
  unfold accounted, pendingSessions, queuedSessions; simpl.
  rewrite map_app; simpl. repeat split.
  - rewrite app_assoc. apply NoDup_app. split; [exact Hnd|]. split.
    + intros x Hx Hin. apply list_elem_of_singleton in Hin. subst.
      apply Hfresh, Hseen, Hx.
    + apply NoDup_singleton.
  - intros sid Hin. rewrite app_assoc in Hin. apply elem_of_app in Hin.
    apply elem_of_app. destruct Hin as [Hin|Hin]; [left; apply Hseen, Hin | right; exact Hin].
  - apply Hdom.
  - apply Hdom.
  - exact Hsize.
  - exact Hcap.
  - intros _. exact Hle.
Qed.

(** Starting a run whose session is not running yet. *)
Lemma executeTestNow_fresh now origin req w :
  req_sessionId req ∉ pendingSessions w ->
  (forall sid, is_Some (activeExecutions w !! sid) <-> sid ∈ pendingSessions w) ->
  size (activeExecutions w) = length (pending w) ->
  let w' := executeTestNow now origin req w in
  pendingSessions w' = pendingSessions w ++ [req_sessionId req] /\
  executionQueue w' = executionQueue w /\
  maxConcurrent w' = maxConcurrent w /\
  (forall sid, is_Some (activeExecutions w' !! sid) <-> sid ∈ pendingSessions w') /\
  size (activeExecutions w') = S (size (activeExecutions w)) /\
  size (activeExecutions w') = length (pending w').
Proof.
  intros Hfresh Hdom Hsize. unfold executeTestNow, pendingSessions in *; simpl.
  assert (Hnone : activeExecutions w !! req_sessionId req = None).
  { apply eq_None_not_Some. intros H. apply Hfresh, Hdom, H. }
  rewrite map_app, length_app, map_size_insert_None by exact Hnone. simpl.
  repeat split; try lia.
  - intros H. apply elem_of_app.
    destruct (decide (sid = req_sessionId req)) as [->|Hne].
    + right. apply list_elem_of_singleton. reflexivity.
    + left. apply Hdom. rewrite lookup_insert_ne in H by congruence. exact H.
  - intros H. apply elem_of_app in H. destruct H as [H|H].
    + destruct (decide (req_sessionId req = sid)) as [<-|Hne].
      * rewrite lookup_insert_eq. eauto.
      * rewrite lookup_insert_ne by exact Hne. apply Hdom, H.
    + apply list_elem_of_singleton in H. subst. rewrite lookup_insert_eq. eauto.
Qed.

Lemma accounted_admitted now req seen w :
  accounted seen w ->
  req_sessionId req ∉ seen ->
  size (activeExecutions w) < maxConcurrent w ->
  accounted (seen ++ [req_sessionId req]) (executeTest now req w).
Proof.
  intros (Hnd & Hseen & Hdom & Hsize & Hcap & Hfull) Hfresh Hlt.
  unfold executeTest. destruct (Nat.leb_spec (maxConcurrent w) (size (activeExecutions w)));
    [lia|].
  assert (Hq : executionQueue w = []).
  { destruct (executionQueue w) eqn:E; [reflexivity|].
    assert (maxConcurrent w <= size (activeExecutions w)) by (apply Hfull; discriminate).
    lia. }
  assert (Hnp : req_sessionId req ∉ pendingSessions w).
  { intros Hin. apply Hfresh, Hseen, elem_of_app. left. exact Hin. }
  destruct (executeTestNow_fresh now ByExecuteTest req w Hnp Hdom Hsize)
    as (HP & HQ & HM & Hdom' & Hs1 & Hs2).
  set (w' := executeTestNow now ByExecuteTest req w) in *.
  assert (HQ' : queuedSessions w' = []) by (unfold queuedSessions; rewrite HQ, Hq; reflexivity).
  assert (HQ0 : queuedSessions w = []) by (unfold queuedSessions; rewrite Hq; reflexivity).
  rewrite HQ0, app_nil_r in Hnd, Hseen.
  unfold accounted. rewrite HP, HQ', HM, HQ, Hq, app_nil_r. repeat split.
  - apply NoDup_app. split; [exact Hnd|]. split; [|apply NoDup_singleton].
    intros x Hx Hin. apply list_elem_of_singleton in Hin. subst. exact (Hnp Hx).
  - intros sid Hin. apply elem_of_app in Hin. apply elem_of_app.
    destruct Hin as [Hin|Hin]; [left; apply Hseen, Hin | right; exact Hin].
  - rewrite <- HP. apply Hdom'.
  - rewrite <- HP. apply Hdom'.
  - exact Hs2.
  - lia.
  - intros Hne. contradiction.
Qed.

Lemma NoDup_remove_middle (a b q : list string) (sid : string) :
  NoDup ((a ++ sid :: b) ++ q) ->
  NoDup ((a ++ b) ++ q) /\ sid ∉ (a ++ b) ++ q.
Proof.
  rewrite <- !app_assoc. simpl. intros H.
  apply NoDup_app in H. destruct H as (Ha & Hd & Hb).
  apply NoDup_cons in Hb. destruct Hb as [Hs Hb]. split.
  - apply NoDup_app. repeat split; [exact Ha | | exact Hb].
    intros x Hx Hin. apply (Hd x Hx). right. exact Hin.
  - intros Hin. apply elem_of_app in Hin. destruct Hin as [Hin|Hin].
    + apply (Hd sid Hin). left.
    + exact (Hs Hin).
Qed.

Lemma accounted_complete now i sc seen w :
  accounted seen w -> accounted seen (complete now i sc w).
Proof.
  intros Hacc. unfold complete. destruct (pending w !! i) as [job|] eqn:Hjob; [|exact Hacc].
  destruct Hacc as (Hnd & Hseen & Hdom & Hsize & Hcap & Hfull).
  set (sid := req_sessionId (job_request job)).
  set (w1 := mkWorld _ _ _ _ _ _ _ _ _ _ _ _ _).
  set (a := (fun j => req_sessionId (job_request j)) <$> take i (pending w)).
  set (b := (fun j => req_sessionId (job_request j)) <$> drop (S i) (pending w)).
  assert (HP : pendingSessions w = a ++ sid :: b).
  { unfold pendingSessions, a, b, sid.
    rewrite <- (take_drop_middle (pending w) i job Hjob) at 1.
    rewrite map_app. reflexivity. }
  assert (HP1 : pendingSessions w1 = a ++ b).
  { unfold pendingSessions, w1, a, b; simpl. rewrite delete_take_drop, map_app.
    reflexivity. }
  assert (Hlen : length (pending w) = S (length (pending w1))).
  { unfold w1; simpl. rewrite length_delete by eauto.
    apply lookup_lt_Some in Hjob. lia. }
  rewrite HP in Hnd.
  destruct (NoDup_remove_middle a b (queuedSessions w) sid Hnd) as [Hnd1 Hsid].
  assert (Hin : is_Some (activeExecutions w !! sid)).
  { apply Hdom. rewrite HP. apply elem_of_app. right. left. }
  assert (Hdom1 : forall s, is_Some (activeExecutions w1 !! s) <-> s ∈ pendingSessions w1).
  { intros s. unfold w1 at 1; simpl. fold sid. rewrite HP1. split.
    - intros H. destruct (decide (sid = s)) as [<-|Hne].
      + rewrite lookup_delete_eq in H. destruct H; discriminate.
      + rewrite lookup_delete_ne in H by exact Hne. apply Hdom in H.
        rewrite HP in H. apply elem_of_app in H. apply elem_of_app.
        destruct H as [H|H]; [left; exact H|]. apply elem_of_cons in H.
        destruct H as [->|H]; [contradiction | right; exact H].
    - intros H. assert (Hne : sid <> s).
      { intros <-. apply Hsid. apply elem_of_app. left. exact H. }
      rewrite lookup_delete_ne by exact Hne. apply Hdom. rewrite HP.
      apply elem_of_app in H. apply elem_of_app.
      destruct H as [H|H]; [left; exact H | right; right; exact H]. }
  assert (Hsize1 : S (size (activeExecutions w1)) = size (activeExecutions w)).
  { unfold w1; simpl. fold sid. rewrite map_size_delete.
    destruct Hin as [x Hx]. rewrite Hx. simpl.
    assert (size (activeExecutions w) <> 0); [|lia].
    intros H0. apply map_size_empty_inv in H0. rewrite H0, lookup_empty in Hx.
    discriminate. }
  assert (Hacc2 : accounted seen (processQueue now w1)).
  { assert (HE1 : executionQueue w1 = executionQueue w) by reflexivity.
    assert (HM1 : maxConcurrent w1 = maxConcurrent w) by reflexivity.
    assert (HQ1 : queuedSessions w1 = queuedSessions w) by reflexivity.
    assert (Hcases : executionQueue w = [] \/
                     exists r rest, executionQueue w = r :: rest).
    { destruct (executionQueue w) as [|r rest]; [left; reflexivity | right; eauto]. }
    unfold processQueue. rewrite HE1, HM1.
    destruct Hcases as [Hq|(r & rest & Hq)]; rewrite Hq.
    - unfold accounted. rewrite HQ1, HE1, HM1, HP1, Hq. repeat split; try lia.
      + exact Hnd1.
      + intros s Hs. apply Hseen. rewrite HP.
        apply elem_of_app in Hs. apply elem_of_app.
        destruct Hs as [Hs|Hs]; [left|right; exact Hs].
        apply elem_of_app in Hs. apply elem_of_app.
        destruct Hs as [Hs|Hs]; [left; exact Hs | right; right; exact Hs].
      + rewrite <- HP1. apply Hdom1.
      + rewrite <- HP1. apply Hdom1.
      + contradiction.
    - destruct (Nat.ltb_spec (size (activeExecutions w1)) (maxConcurrent w)); [|lia].
      set (w1q := mkWorld _ _ _ _ _ _ _ _ _ _ _ _ _).
      assert (HQ : queuedSessions w = req_sessionId r :: map req_sessionId rest).
      { unfold queuedSessions. rewrite Hq. reflexivity. }
      rewrite HQ in Hnd1, Hsid.
      assert (Hr : req_sessionId r ∉ pendingSessions w1q).
      { change (pendingSessions w1q) with (pendingSessions w1). rewrite HP1.
        intros Hr. apply NoDup_app in Hnd1. destruct Hnd1 as (_ & Hd & _).
        apply (Hd _ Hr). left. }
      destruct (executeTestNow_fresh now ByProcessQueue r w1q Hr Hdom1)
        as (HP2 & HQ2 & HM2 & Hdom2 & Hs2 & Hs2').
      { change (pending w1q) with (pending w1).
        change (activeExecutions w1q) with (activeExecutions w1). lia. }
      set (w2 := executeTestNow now ByProcessQueue r w1q) in *.
      change (pendingSessions w1q) with (pendingSessions w1) in HP2.
      change (executionQueue w1q) with rest in HQ2.
      change (maxConcurrent w1q) with (maxConcurrent w1) in HM2.
      change (activeExecutions w1q) with (activeExecutions w1) in Hs2.
      assert (HQ2' : queuedSessions w2 = map req_sessionId rest)
        by (unfold queuedSessions; rewrite HQ2; reflexivity).
      unfold accounted. rewrite HP2, HQ2', HM2, HM1, HQ2, HP1. repeat split.
      + rewrite <- app_assoc. exact Hnd1.
      + intros s Hs. apply Hseen. rewrite HP, HQ.
        rewrite <- app_assoc in Hs. simpl in Hs.
        apply elem_of_app in Hs. apply elem_of_app.
        destruct Hs as [Hs|Hs]; [left|right; exact Hs].
        apply elem_of_app in Hs. apply elem_of_app.
        destruct Hs as [Hs|Hs]; [left; exact Hs | right; right; exact Hs].
      + rewrite <- HP1, <- HP2. apply Hdom2.
      + rewrite <- HP1, <- HP2. apply Hdom2.
      + exact Hs2'.
      + lia.
      + intros _. assert (maxConcurrent w <= size (activeExecutions w)); [|lia].
        apply Hfull. rewrite Hq. discriminate. }
  destruct (job_origin job); exact Hacc2.
Qed.

Lemma accounted_run steps : forall seen w,
  accounted seen w ->
  NoDup (seen ++ submitted steps) ->
  accounted (seen ++ submitted steps) (run steps w).
Proof.
  induction steps as [|s steps IH]; intros seen w Hacc Hnd.
  - simpl. rewrite app_nil_r. exact Hacc.
  - change (run (s :: steps) w) with (run steps (step w s)).
    destruct s as [now req|now i sc].
    + change (submitted (Submit now req :: steps))
        with (req_sessionId req :: submitted steps) in *.
      replace (seen ++ req_sessionId req :: submitted steps)
        with ((seen ++ [req_sessionId req]) ++ submitted steps) in *
        by (rewrite <- app_assoc; reflexivity).
      apply IH; [|exact Hnd].
      assert (Hfresh : req_sessionId req ∉ seen).
      { apply NoDup_app in Hnd. destruct Hnd as (Hnd & _ & _).
        apply NoDup_app in Hnd. destruct Hnd as (_ & Hd & _).
        intros Hin. apply (Hd _ Hin). left. }
      simpl. destruct (Nat.leb_spec (maxConcurrent w) (size (activeExecutions w))).
      * apply accounted_queued; assumption.
      * apply accounted_admitted; assumption.
    + change (submitted (Complete now i sc :: steps)) with (submitted steps) in *.
      apply IH; [|exact Hnd]. simpl. apply accounted_complete. exact Hacc.
Qed.

Lemma accounted_new cfg : accounted [] (newExecutor cfg).
Proof.
  unfold accounted, pendingSessions, queuedSessions; simpl.
  rewrite map_size_empty. repeat split; try lia.
  - apply NoDup_nil_2.
  - intros sid H. exact H.
  - intros [x Hx]. rewrite lookup_empty in Hx. discriminate.
  - intros H. apply elem_of_nil in H. contradiction.
  - intros H. contradiction.
Qed.

(** Where the sessions are, step by step. *)
Lemma places_processQueue now w : Permutation (places (processQueue now w)) (places w).
Proof.
  unfold processQueue. destruct (executionQueue w) as [|r rest] eqn:Hq; [reflexivity|].
  destruct (size (activeExecutions w) <? maxConcurrent w)%nat; [|reflexivity].
  unfold places, queuedSessions, pendingSessions, answeredSessions, floatingSessions.
  simpl. rewrite Hq, map_app. simpl. solve_Permutation.
Qed.

Lemma places_settleCaller sid s w :
  Permutation (places (settleCaller sid (finished s) w)) (sid :: places w).
Proof.
  unfold places, queuedSessions, pendingSessions, answeredSessions, floatingSessions.
  simpl. rewrite List.filter_app, map_app.
  assert (Hs : isAcknowledgement (sid, finished s) = false) by (destruct s; reflexivity).
  simpl. rewrite Hs. simpl. solve_Permutation.
Qed.

Lemma places_settleNobody sid s w :
  Permutation (places (settleNobody sid s w)) (sid :: places w).
Proof.
  unfold places, queuedSessions, pendingSessions, answeredSessions, floatingSessions.
  simpl. rewrite map_app. simpl. solve_Permutation.
Qed.

Lemma step_places s w seen :
  Permutation seen (places w) ->
  Permutation (seen ++ submitted [s]) (places (step w s)).
Proof.
  intros H. destruct s as [now req|now i sc]; simpl.
  - rewrite H. unfold executeTest.
    destruct (maxConcurrent w <=? size (activeExecutions w))%nat;
      unfold places, queuedSessions, pendingSessions, answeredSessions,
        floatingSessions; simpl.
    + rewrite List.filter_app, !map_app. simpl. solve_Permutation.
    + rewrite !map_app. simpl. solve_Permutation.
  - rewrite app_nil_r. unfold complete.
    destruct (pending w !! i) as [job|] eqn:Hjob; [|exact H].
    set (w1 := mkWorld _ _ _ _ _ _ _ _ _ _ _ _ _).
    assert (H1 : Permutation (places w)
                   (req_sessionId (job_request job) :: places w1)).
    { assert (Hp : Permutation (pendingSessions w)
                     (req_sessionId (job_request job) :: pendingSessions w1)).
      { unfold pendingSessions, w1. simpl.
        change (map (fun j => req_sessionId (job_request j)) (delete i (pending w)))
          with ((fun j => req_sessionId (job_request j)) <$> delete i (pending w)).
        rewrite list_fmap_delete. apply delete_Permutation.
        rewrite list_lookup_fmap, Hjob. reflexivity. }
      unfold places. rewrite Hp.
      change (queuedSessions w1) with (queuedSessions w).
      change (answeredSessions w1) with (answeredSessions w).
      change (floatingSessions w1) with (floatingSessions w).
      solve_Permutation. }
    rewrite H, H1.
    destruct (job_origin job).
    + rewrite places_settleCaller, places_processQueue. reflexivity.
    + rewrite places_settleNobody, places_processQueue. reflexivity.
Qed.

Lemma run_places steps : forall w seen,
  Permutation seen (places w) ->
  Permutation (seen ++ submitted steps) (places (run steps w)).
Proof.
  induction steps as [|s steps IH]; intros w seen H.
  - simpl. rewrite app_nil_r. exact H.
  - change (run (s :: steps) w) with (run steps (step w s)).
    assert (Hsub : submitted (s :: steps) = submitted [s] ++ submitted steps)
      by (destruct s; reflexivity).
    rewrite Hsub, app_assoc. apply IH, step_places, H.
Qed.

End AccountingFacts.

(** X1.  When the session ids submitted are pairwise distinct, the
    active set holds exactly the sessions whose run is pending: their
    number is the number of pending runs, it never exceeds
    [maxConcurrentTests], and no slot is idle while a request waits in
    the queue. *)
Theorem distinct_sessions_bound_running (cfg : Config) (steps : list Scheduler.Step) :
  NoDup (Scheduler.submitted steps) ->
  let w := Scheduler.run steps (Scheduler.newExecutor cfg) in
  size (Scheduler.activeExecutions w) = length (Scheduler.pending w) /\
  length (Scheduler.pending w) <= maxConcurrentTests cfg /\
  (Scheduler.executionQueue w <> [] ->
   length (Scheduler.pending w) = maxConcurrentTests cfg) /\
  (forall sid, is_Some (Scheduler.activeExecutions w !! sid)
               <-> sid ∈ Scheduler.pendingSessions w) /\
  NoDup (Scheduler.pendingSessions w ++ Scheduler.queuedSessions w).
Proof.
  intros Hnd w.
  pose proof (accounted_run steps [] (Scheduler.newExecutor cfg) (accounted_new cfg) Hnd)
    as (H1 & _ & H3 & H4 & H5 & H6).
  destruct (run_invariant steps (Scheduler.newExecutor cfg)) as (_ & _ & Hm).
  { unfold Scheduler.withinCapacity. simpl. rewrite map_size_empty. lia. }
  { reflexivity. }
  fold w in H1, H3, H4, H5, H6, Hm. simpl in Hm. rewrite Hm in H5, H6.
  repeat split; try apply H3; try exact H1; try lia.
  intros Hq. specialize (H6 Hq). lia.
Qed.

Lemma distinct_sessions_bound_running_witness :
  length (Scheduler.pending
            (Scheduler.run
               [Scheduler.Submit 10 (Scheduler.requestFor "s1");
                Scheduler.Submit 20 (Scheduler.requestFor "s2");
                Scheduler.Complete 30 0
                  (Executor.scenario (Executor.exits 0) (Executor.exits 0))]
               (Scheduler.newExecutor config)))
    <= 5.
Proof.
  refine (proj1 (proj2 (distinct_sessions_bound_running config
    [Scheduler.Submit 10 (Scheduler.requestFor "s1");
     Scheduler.Submit 20 (Scheduler.requestFor "s2");
     Scheduler.Complete 30 0 (Executor.scenario (Executor.exits 0) (Executor.exits 0))]
    _))).
  by_evaluation.
Defined.

(** X2.  As long as no promoted run has settled (its rejection is
    held by nobody), every session handed to [executeTest] is, as often
    as it was handed in, in exactly one of three places: waiting in the
    queue, running, or answered to its caller. *)
Theorem every_request_is_in_one_place (cfg : Config) (steps : list Scheduler.Step) :
  let w := Scheduler.run steps (Scheduler.newExecutor cfg) in
  Scheduler.floating w = [] ->
  Permutation (Scheduler.submitted steps)
    (Scheduler.queuedSessions w ++ Scheduler.pendingSessions w
     ++ Scheduler.answeredSessions w).
Proof.
  intros w Hfloat.
  pose proof (run_places steps (Scheduler.newExecutor cfg) []) as H.
  simpl in H. rewrite H by reflexivity. fold w.
  unfold Scheduler.places, Scheduler.floatingSessions. rewrite Hfloat. simpl.
  rewrite app_nil_r. reflexivity.
Qed.

Lemma every_request_is_in_one_place_witness :
  Permutation ["s1"; "s2"; "s3"; "s4"; "s5"; "s6"]
    (Scheduler.queuedSessions
       (Scheduler.run
          (map (fun sid => Scheduler.Submit 10 (Scheduler.requestFor sid))
               ["s1"; "s2"; "s3"; "s4"; "s5"; "s6"]
           ++ [Scheduler.Complete 30 0
                 (Executor.scenario (Executor.exits 0) (Executor.exits 0))])
          (Scheduler.newExecutor config))
     ++ Scheduler.pendingSessions
          (Scheduler.run
             (map (fun sid => Scheduler.Submit 10 (Scheduler.requestFor sid))
                  ["s1"; "s2"; "s3"; "s4"; "s5"; "s6"]
              ++ [Scheduler.Complete 30 0
                    (Executor.scenario (Executor.exits 0) (Executor.exits 0))])
             (Scheduler.newExecutor config))
     ++ Scheduler.answeredSessions
          (Scheduler.run
             (map (fun sid => Scheduler.Submit 10 (Scheduler.requestFor sid))
                  ["s1"; "s2"; "s3"; "s4"; "s5"; "s6"]
              ++ [Scheduler.Complete 30 0
                    (Executor.scenario (Executor.exits 0) (Executor.exits 0))])
             (Scheduler.newExecutor config))).
Proof.
  apply (every_request_is_in_one_place config
           (map (fun sid => Scheduler.Submit 10 (Scheduler.requestFor sid))
                ["s1"; "s2"; "s3"; "s4"; "s5"; "s6"]
            ++ [Scheduler.Complete 30 0
                  (Executor.scenario (Executor.exits 0) (Executor.exits 0))])).
  vm_compute. reflexivity.
Defined.



(** ** More on the connection registry *)

Section RegistryFacts.
Import Streaming.

Lemma mapGet_mapSet_eq {V} (k : string) (v : V) (m : list (string * V)) :
  mapGet k (mapSet k v m) = Some v.
Proof.
  induction m as [|[k' v'] m IH]; simpl.
  - rewrite String.eqb_refl. reflexivity.
  - destruct (String.eqb k k') eqn:E; simpl; [rewrite String.eqb_refl; reflexivity|].
    rewrite E. exact IH.
Qed.

Lemma mapGet_mapSet_ne {V} (k k' : string) (v : V) (m : list (string * V)) :
  k <> k' -> mapGet k' (mapSet k v m) = mapGet k' m.
Proof.
  intros Hne. induction m as [|[k0 v0] m IH]; simpl.
  - destruct (String.eqb_spec k' k); [congruence | reflexivity].
  - destruct (String.eqb_spec k k0) as [->|Hk]; simpl.
    + destruct (String.eqb_spec k' k0); [congruence | reflexivity].
    + destruct (String.eqb k' k0); [reflexivity | exact IH].
Qed.

Lemma mapSet_mapSet {V} (k : string) (v v' : V) (m : list (string * V)) :
  mapSet k v (mapSet k v' m) = mapSet k v m.
Proof.
  induction m as [|[k0 v0] m IH]; simpl.
  - rewrite String.eqb_refl. reflexivity.
  - destruct (String.eqb k k0) eqn:E; simpl.
    + rewrite String.eqb_refl. reflexivity.
    + rewrite E, IH. reflexivity.
Qed.

Lemma mapGet_Some_In {V} (k : string) (v : V) (m : list (string * V)) :
  mapGet k m = Some v -> In (k, v) m.
Proof.
  induction m as [|[k' v'] m IH]; simpl; [discriminate|].
  destruct (String.eqb_spec k k') as [->|_].
  - intros [= ->]. left. reflexivity.
  - intros H. right. apply IH. exact H.
Qed.


Lemma In_setDelete (x y : string) (s : list string) :
  In y (setDelete x s) <-> In y s /\ y <> x.
Proof.
  unfold setDelete. rewrite filter_In. split; intros [H1 H2]; split; try exact H1.
  - apply negb_true_iff, String.eqb_neq in H2. congruence.
  - apply negb_true_iff, String.eqb_neq. congruence.
Qed.

Lemma In_setAdd (x y : string) (s : list string) :
  In y (setAdd x s) <-> In y s \/ y = x.
Proof.
  unfold setAdd. destruct (setHas x s) eqn:E.
  - apply setHas_In in E. split; [auto|]. intros [H| ->]; assumption.
  - rewrite in_app_iff. simpl. split; intros [H|H]; auto.
    + destruct H as [<-|[]]. auto.
Qed.

Lemma setAdd_idem (x : string) (s : list string) : setAdd x (setAdd x s) = setAdd x s.
Proof.
  assert (H : setHas x (setAdd x s) = true).
  { apply setHas_In, In_setAdd. right. reflexivity. }
  unfold setAdd at 1. rewrite H. reflexivity.
Qed.

Lemma setDelete_setAdd (x : string) (s : list string) :
  setDelete x (setAdd x s) = setDelete x s.
Proof.
  unfold setAdd. destruct (setHas x s); [reflexivity|].
  unfold setDelete. rewrite List.filter_app. simpl. rewrite String.eqb_refl. simpl.
  apply app_nil_r.
Qed.

Lemma subscribersOf_subscribe id ch svc :
  subscribersOf ch (subscribe id ch svc) = setAdd id (subscribersOf ch svc).
Proof. unfold subscribersOf, subscribe; simpl. rewrite mapGet_mapSet_eq. reflexivity. Qed.

Lemma subscribersOf_unsubscribe id ch svc :
  subscribersOf ch (unsubscribe id ch svc) = setDelete id (subscribersOf ch svc).
Proof.
  unfold subscribersOf, unsubscribe; simpl.
  destruct (mapGet ch (subscriptions svc)) as [subs|] eqn:E; simpl; [|rewrite E; reflexivity].
  destruct (Nat.eqb_spec (length (setDelete id subs)) 0) as [H0|_].
  - rewrite mapGet_mapDelete, String.eqb_refl.
    destruct (setDelete id subs); [reflexivity | discriminate].
  - rewrite mapGet_mapSet_eq. reflexivity.
Qed.

End RegistryFacts.

(** X4.  Removing a registered connection forgets it everywhere: it is
    no longer in the registry, it is a subscriber of no channel, no
    channel is left with an empty subscriber set, and every other
    connection keeps its registration. *)
Theorem removeConnection_forgets (id : string) (svc : Streaming.Service)
    (c : Streaming.Connection) :
  Streaming.mapGet id (Streaming.connections svc) = Some c ->
  let svc' := Streaming.removeConnection id svc in
  Streaming.mapGet id (Streaming.connections svc') = None /\
  (forall other, other <> id ->
     Streaming.mapGet other (Streaming.connections svc')
     = Streaming.mapGet other (Streaming.connections svc)) /\
  (forall channel subs,
     Streaming.mapGet channel (Streaming.subscriptions svc') = Some subs ->
     subs <> [] /\ ~ In id subs) /\
  (forall channel, ~ In id (Streaming.subscribersOf channel svc')).
Proof.
  intros Hget svc'.
  assert (Hsubs : forall channel subs,
            Streaming.mapGet channel (Streaming.subscriptions svc') = Some subs ->
            subs <> [] /\ ~ In id subs).
  { intros channel subs H. subst svc'. unfold Streaming.removeConnection in H.
    rewrite Hget in H. simpl in H. apply mapGet_Some_In in H.
    apply filter_In in H. destruct H as [H Hlen]. simpl in Hlen.
    apply in_map_iff in H. destruct H as ([ch0 s0] & [= <- <-] & _). split.
    - intros E. rewrite E in Hlen. discriminate.
    - intros Hin. apply In_setDelete in Hin. destruct Hin as [_ Hne]. congruence. }
  subst svc'. rewrite connections_removeConnection. repeat split.
  - rewrite mapGet_mapDelete, String.eqb_refl. reflexivity.
  - intros other Hne. rewrite mapGet_mapDelete.
    destruct (String.eqb_spec id other); [congruence | reflexivity].
  - apply (Hsubs channel subs H).
  - apply (Hsubs channel subs H).
  - intros channel. unfold Streaming.subscribersOf.
    destruct (Streaming.mapGet channel
                (Streaming.subscriptions (Streaming.removeConnection id svc)))
      as [subs|] eqn:E; simpl; [apply (Hsubs channel subs E) | intros []].
Qed.

Lemma removeConnection_forgets_witness :
  Streaming.mapGet "c2"
    (Streaming.connections (Streaming.removeConnection "c2" Streaming.exampleService))
  = None.
Proof.
  refine (proj1 (removeConnection_forgets "c2" Streaming.exampleService
                   (Streaming.mkConnection (Streaming.mkWebSocket 3 false)
                      ["analytics"] true (ISO 0)) _)).
  reflexivity.
Defined.

(** X5.  [subscribe] does not ask whether the connection is
    registered: an unregistered id becomes a subscriber of the channel,
    [removeConnection] for that id then changes nothing, and a send to
    the channel gives it no frame. *)
Theorem unregistered_subscriber_stays (id channel : string) (svc : Streaming.Service) :
  Streaming.mapGet id (Streaming.connections svc) = None ->
  let svc' := Streaming.subscribe id channel svc in
  In id (Streaming.subscribersOf channel svc') /\
  Streaming.removeConnection id svc' = svc' /\
  (forall now m,
     ~ In id (map fst (snd (Streaming.sendToChannel now channel m svc')))).
Proof.
  intros Hget svc'.
  assert (Hconn : Streaming.connections svc' = Streaming.connections svc).
  { subst svc'. unfold Streaming.subscribe; simpl. rewrite Hget. reflexivity. }
  repeat split.
  - subst svc'. rewrite subscribersOf_subscribe. apply In_setAdd. right. reflexivity.
  - unfold Streaming.removeConnection. rewrite Hconn, Hget. reflexivity.
  - intros now m Hin. unfold Streaming.sendToChannel in Hin.
    destruct (Streaming.mapGet channel (Streaming.subscriptions svc')) as [subs|];
      [|exact Hin].
    destruct (fold_trySend (Streaming.stamp now (Some channel) m) subs svc' [])
      as [Hsent _].
    rewrite Hsent in Hin. simpl in Hin. rewrite map_map in Hin. simpl in Hin.
    rewrite map_id in Hin. apply filter_In in Hin. destruct Hin as [_ Hlive].
    unfold Streaming.liveIn in Hlive. rewrite Hconn, Hget in Hlive. discriminate.
Qed.

Lemma unregistered_subscriber_stays_witness :
  In "ghost"
     (Streaming.subscribersOf "analytics"
        (Streaming.subscribe "ghost" "analytics" Streaming.exampleService)).
Proof.
  refine (proj1 (unregistered_subscriber_stays "ghost" "analytics"
                   Streaming.exampleService _)).
  reflexivity.
Defined.

(** X6.  [unsubscribe] undoes [subscribe]: afterwards the channel has
    its earlier subscribers without the connection, the connection's
    own list has its earlier channels without the channel, and when
    nobody else subscribes the channel is deleted. *)
Theorem unsubscribe_undoes_subscribe (id channel : string) (svc : Streaming.Service) :
  let svc' := Streaming.unsubscribe id channel (Streaming.subscribe id channel svc) in
  Streaming.subscribersOf channel svc'
    = Streaming.setDelete id (Streaming.subscribersOf channel svc) /\
  Streaming.conn_subscriptions <$> Streaming.mapGet id (Streaming.connections svc')
    = (fun c => Streaming.setDelete channel (Streaming.conn_subscriptions c))
      <$> Streaming.mapGet id (Streaming.connections svc) /\
  (Streaming.mapGet channel (Streaming.subscriptions svc')
   = match Streaming.setDelete id (Streaming.subscribersOf channel svc) with
     | [] => None
     | subs => Some subs
     end).
Proof.
  intros svc'. subst svc'. split; [|split].
  - rewrite subscribersOf_unsubscribe, subscribersOf_subscribe. apply setDelete_setAdd.
  - unfold Streaming.unsubscribe, Streaming.subscribe; simpl.
    destruct (Streaming.mapGet id (Streaming.connections svc)) as [c|] eqn:E; simpl.
    + rewrite mapGet_mapSet_eq, mapGet_mapSet_eq. simpl.
      assert (H : forall s, Streaming.setDelete channel (Streaming.setAdd channel s)
                            = Streaming.setDelete channel s)
        by (intros s; apply setDelete_setAdd).
      rewrite H. reflexivity.
    + rewrite E. simpl. rewrite E. reflexivity.
  - unfold Streaming.unsubscribe; simpl.
    rewrite mapGet_mapSet_eq.
    fold (Streaming.subscribersOf channel svc). rewrite setDelete_setAdd.
    destruct (Streaming.setDelete id (Streaming.subscribersOf channel svc)) as [|x l]; simpl.
    + rewrite mapGet_mapDelete, String.eqb_refl. reflexivity.
    + apply mapGet_mapSet_eq.
Qed.

(** X7.  Subscribing twice is the same as subscribing once. *)
Theorem subscribe_is_idempotent (id channel : string) (svc : Streaming.Service) :
  Streaming.subscribe id channel (Streaming.subscribe id channel svc)
  = Streaming.subscribe id channel svc.
Proof.
  unfold Streaming.subscribe; simpl. f_equal.
  - destruct (Streaming.mapGet id (Streaming.connections svc)) as [c|] eqn:E.
    + rewrite mapGet_mapSet_eq. simpl. rewrite setAdd_idem. apply mapSet_mapSet.
    + rewrite E. reflexivity.
  - rewrite mapGet_mapSet_eq. simpl. rewrite setAdd_idem. apply mapSet_mapSet.
Qed.

(** X8.  Subscription decides delivery on a channel: after
    [subscribe], a registered live connection receives the frame of a
    send to the channel; after [unsubscribe] it receives none. *)
Theorem subscription_decides_delivery (now : Z) (m : Streaming.Message)
    (id channel : string) (svc : Streaming.Service) (c : Streaming.Connection) :
  Streaming.mapGet id (Streaming.connections svc) = Some c ->
  Streaming.isLive c = true ->
  In (id, Streaming.stamp now (Some channel) m)
     (snd (Streaming.sendToChannel now channel m (Streaming.subscribe id channel svc))) /\
  ~ In id (map fst (snd (Streaming.sendToChannel now channel m
                           (Streaming.unsubscribe id channel svc)))).
Proof.
  intros Hget Hlive. split.
  - set (svc' := Streaming.subscribe id channel svc).
    set (c' := Streaming.mkConnection (Streaming.ws c)
                 (Streaming.setAdd channel (Streaming.conn_subscriptions c))
                 (Streaming.connected c) (Streaming.connectedAt c)).
    assert (Hget' : Streaming.mapGet id (Streaming.connections svc') = Some c').
    { unfold svc', Streaming.subscribe; simpl. rewrite Hget. apply mapGet_mapSet_eq. }
    assert (Hsub : Streaming.mapGet channel (Streaming.subscriptions svc')
                   = Some (Streaming.setAdd id (Streaming.subscribersOf channel svc))).
    { unfold svc', Streaming.subscribe; simpl. apply mapGet_mapSet_eq. }
    unfold Streaming.sendToChannel. rewrite Hsub.
    refine (proj1 (proj1 (trySend_per_connection _ _ svc' id c' Hget' _) _)).
    + apply In_setAdd. right. reflexivity.
    + exact Hlive.
  - intros Hin. unfold Streaming.sendToChannel in Hin.
    destruct (Streaming.mapGet channel
                (Streaming.subscriptions (Streaming.unsubscribe id channel svc)))
      as [subs|] eqn:E; [|exact Hin].
    destruct (fold_trySend (Streaming.stamp now (Some channel) m) subs
                (Streaming.unsubscribe id channel svc) []) as [Hsent _].
    rewrite Hsent in Hin. simpl in Hin. rewrite map_map in Hin. simpl in Hin.
    rewrite map_id in Hin. apply filter_In in Hin. destruct Hin as [Hin _].
    assert (Hs : subs = Streaming.subscribersOf channel
                          (Streaming.unsubscribe id channel svc)).
    { unfold Streaming.subscribersOf. rewrite E. reflexivity. }
    rewrite Hs, subscribersOf_unsubscribe in Hin. apply In_setDelete in Hin.
    destruct Hin as [_ Hne]. congruence.
Qed.

Lemma subscription_decides_delivery_witness :
  In ("c1", Streaming.stamp 5 (Some "news") Streaming.exampleMessage)
     (snd (Streaming.sendToChannel 5 "news" Streaming.exampleMessage
             (Streaming.subscribe "c1" "news" Streaming.exampleService))).
Proof.
  refine (proj1 (subscription_decides_delivery 5 Streaming.exampleMessage "c1" "news"
                   Streaming.exampleService
                   (Streaming.mkConnection (Streaming.mkWebSocket 1 false)
                      ["analytics"] true (ISO 0)) _ _)); reflexivity.
Defined.

Section SweepFacts.
Import Streaming.



(** What the sweep over the ids [l] leaves in the registry. *)
Lemma fold_sweep now l : forall svc,
  connections (fold_left (sweep now) l svc)
  = List.filter (fun kv => negb (setHas (fst kv) l && staleIn now svc (fst kv)))
      (connections svc).
Proof.
  induction l as [|id l IH]; intros svc; simpl.
  - symmetry. induction (connections svc) as [|x m IHm]; simpl; [|rewrite IHm]; reflexivity.
  - unfold sweep at 2.
    assert (Hkeep : staleIn now svc id = false ->
              connections (fold_left (sweep now) l svc)
              = List.filter
                  (fun kv => negb ((String.eqb (fst kv) id || setHas (fst kv) l)
                                   && staleIn now svc (fst kv)))
                  (connections svc)).
    { intros Hf. rewrite IH. apply filter_pointwise. intros [k v] _. simpl.
      destruct (String.eqb_spec k id) as [->|_]; [rewrite Hf, !andb_false_r|];
        reflexivity. }
    unfold staleIn at 1 in Hkeep.
    destruct (mapGet id (connections svc)) as [c|] eqn:Hget; [|apply Hkeep; reflexivity].
    destruct (isStale now c) eqn:Hstale; [|apply Hkeep; reflexivity].
    rewrite IH, connections_removeConnection. unfold mapDelete.
    rewrite filter_twice. apply filter_pointwise. intros [k v] _. simpl.
    unfold staleIn. rewrite connections_removeConnection, mapGet_mapDelete.
    rewrite (String.eqb_sym id k).
    destruct (String.eqb_spec k id) as [->|_]; simpl; [|reflexivity].
    rewrite Hget, Hstale. reflexivity.
Qed.

Lemma trySend_unregistered frame l : forall svc sent,
  connections svc = [] -> fold_left (trySend frame) l (svc, sent) = (svc, sent).
Proof.
  induction l as [|id l IH]; intros svc sent H; simpl; [reflexivity|].
  rewrite H. simpl. apply IH. exact H.
Qed.

End SweepFacts.



(** X10.  The periodic sweep removes a registered connection exactly
    when it is not open and was registered more than five minutes ago:
    an open connection is never swept, and a closed one that a
    broadcast left in the registry is gone after a sweep once it is
    that old. *)
Theorem cleanup_sweeps_stale_connections (now : Z) (svc : Streaming.Service)
    (id : string) (c : Streaming.Connection) :
  Streaming.mapGet id (Streaming.connections svc) = Some c ->
  Streaming.mapGet id (Streaming.connections (Streaming.cleanup now svc))
    = (if Streaming.isStale now c then None else Some c) /\
  (Streaming.readyState (Streaming.ws c) = 1 ->
   Streaming.mapGet id (Streaming.connections (Streaming.cleanup now svc)) = Some c) /\
  (forall m,
     Streaming.isStale now c = true ->
     Streaming.connected c = true ->
     Streaming.mapGet id
       (Streaming.connections (fst (Streaming.broadcast now m svc))) = Some c /\
     Streaming.mapGet id
       (Streaming.connections
          (Streaming.cleanup now (fst (Streaming.broadcast now m svc)))) = None).
Proof.
  intros Hget.
  assert (Hgen : forall svc0, Streaming.mapGet id (Streaming.connections svc0) = Some c ->
            Streaming.mapGet id (Streaming.connections (Streaming.cleanup now svc0))
            = (if Streaming.isStale now c then None else Some c)).
  { intros svc0 H0. unfold Streaming.cleanup. rewrite fold_sweep.
    rewrite (mapGet_filter_key
               (fun k => negb (Streaming.setHas k (Streaming.ids svc0)
                               && Streaming.staleIn now svc0 k))).
    assert (Hhas : Streaming.setHas id (Streaming.ids svc0) = true).
    { apply setHas_In. apply (mapGet_In_keys id c). exact H0. }
    unfold Streaming.staleIn. rewrite Hhas, H0. simpl.
    destruct (Streaming.isStale now c); reflexivity. }
  split; [apply Hgen; exact Hget|]. split.
  - intros Hopen. rewrite (Hgen svc Hget). unfold Streaming.isStale.
    destruct (Streaming.connectedAt c). rewrite Hopen. simpl.
    rewrite andb_false_r. reflexivity.
  - intros m Hstale Hconn.
    assert (Hclosed : Streaming.isOpen c = false).
    { unfold Streaming.isStale in Hstale. destruct (Streaming.connectedAt c).
      apply andb_prop in Hstale. destruct Hstale as [_ H].
      apply negb_true_iff in H. unfold Streaming.isOpen. rewrite H.
      apply andb_false_r. }
    assert (Hkept : Streaming.mapGet id
                      (Streaming.connections (fst (Streaming.broadcast now m svc)))
                    = Some c).
    { unfold Streaming.broadcast.
      refine (proj2 (proj2 (proj2 (trySend_per_connection _ _ svc id c Hget _)) Hclosed)).
      apply (mapGet_In_keys id c). exact Hget. }
    split; [exact Hkept|]. rewrite (Hgen _ Hkept), Hstale. reflexivity.
Qed.

Lemma cleanup_sweeps_stale_connections_witness :
  Streaming.mapGet "c2"
    (Streaming.connections (Streaming.cleanup 400000 Streaming.exampleService))
  = None.
Proof.
  refine (proj1 (cleanup_sweeps_stale_connections 400000 Streaming.exampleService "c2"
                   (Streaming.mkConnection (Streaming.mkWebSocket 3 false)
                      ["analytics"] true (ISO 0)) _)).
  reflexivity.
Defined.

(** X11.  The server never registers a connection (nothing calls
    [addConnection]), so whatever arrives on its sockets and whatever
    is broadcast or sent to a channel, the registry stays empty and
    the service delivers no frame at all; the only frames a client
    gets are the welcome and the error replies written straight to
    its socket. *)
Theorem server_delivers_nothing (renderStatus : Streaming.Status -> string)
    (events : list Streaming.ServerEvent) :
  let h := Streaming.serverRun renderStatus events in
  Streaming.connections (Streaming.h_service h) = [] /\
  Streaming.h_sent h = [] /\
  Forall (fun m => m = Streaming.welcome \/ m = Streaming.errorReply)
         (Streaming.h_socket h).
Proof.
  unfold Streaming.serverRun.
  assert (Hinv : forall h,
            Streaming.connections (Streaming.h_service h) = [] /\
            Streaming.h_sent h = [] /\
            Forall (fun m => m = Streaming.welcome \/ m = Streaming.errorReply)
                   (Streaming.h_socket h) ->
            let h' := fold_left (Streaming.serve renderStatus) events h in
            Streaming.connections (Streaming.h_service h') = [] /\
            Streaming.h_sent h' = [] /\
            Forall (fun m => m = Streaming.welcome \/ m = Streaming.errorReply)
                   (Streaming.h_socket h')).
  { induction events as [|e events IH]; intros h Hh; [exact Hh|].
    simpl. apply IH. destruct Hh as (Hc & Hs & Hk).
    assert (Hreply : forall now cid msg svc,
              Streaming.connections svc = [] ->
              Streaming.reply now cid msg svc = Streaming.mkHandled svc [] []).
    { intros now cid msg svc H. unfold Streaming.reply, Streaming.sendToConnection.
      destruct cid as [cid|]; [|reflexivity].
      unfold Streaming.trySend. rewrite H. reflexivity. }
    assert (Hsub : forall a b svc,
              Streaming.connections svc = [] ->
              Streaming.connections (Streaming.subscribe a b svc) = []).
    { intros a b svc H. unfold Streaming.subscribe; simpl. rewrite H. reflexivity. }
    assert (Hunsub : forall a b svc,
              Streaming.connections svc = [] ->
              Streaming.connections (Streaming.unsubscribe a b svc) = []).
    { intros a b svc H. unfold Streaming.unsubscribe; simpl. rewrite H. reflexivity. }
    destruct e as [|now parsed|key|now m|now channel m]; simpl.
    - repeat split; try assumption. apply Forall_app. split; [exact Hk|].
      constructor; [left; reflexivity | constructor].
    - destruct parsed as [data|]; simpl.
      + assert (Hm : let r := Streaming.handleMessage renderStatus now data
                                (Streaming.h_service h) in
                     Streaming.connections (Streaming.h_service r) = [] /\
                     Streaming.h_sent r = [] /\
                     (Streaming.h_socket r = [] \/
                      Streaming.h_socket r = [Streaming.errorReply])).
        { unfold Streaming.handleMessage.
          destruct data as [d|]; [|simpl; repeat split; auto].
          destruct (String.eqb (Streaming.in_type d) "subscribe").
          { destruct (Streaming.in_payload d) as [ch|]; [|simpl; repeat split; auto].
            destruct (Streaming.truthy ch); [|simpl; repeat split; auto].
            destruct (Streaming.truthy (Streaming.in_connectionId d)); [|simpl; repeat split; auto].
            rewrite Hreply by (apply Hsub; exact Hc).
            cbn [Streaming.h_service Streaming.h_sent Streaming.h_socket].
            split; [apply Hsub; exact Hc | auto]. }
          destruct (String.eqb (Streaming.in_type d) "unsubscribe").
          { destruct (Streaming.in_payload d) as [ch|]; [|simpl; repeat split; auto].
            destruct (Streaming.truthy ch); [|simpl; repeat split; auto].
            destruct (Streaming.truthy (Streaming.in_connectionId d)); [|simpl; repeat split; auto].
            rewrite Hreply by (apply Hunsub; exact Hc).
            cbn [Streaming.h_service Streaming.h_sent Streaming.h_socket].
            split; [apply Hunsub; exact Hc | auto]. }
          destruct (String.eqb (Streaming.in_type d) "ping");
            [rewrite Hreply by exact Hc; simpl; repeat split; auto|].
          destruct (String.eqb (Streaming.in_type d) "get-status");
            [rewrite Hreply by exact Hc; simpl; repeat split; auto|].
          simpl. repeat split; auto. }
        destruct Hm as (Hc' & Hs' & Hk'). rewrite Hs, Hs'. repeat split;
          try assumption; try reflexivity.
        apply Forall_app. split; [exact Hk|].
        destruct Hk' as [-> | ->];
          [constructor | constructor; [right; reflexivity | constructor]].
      + repeat split; try assumption. apply Forall_app. split; [exact Hk|].
        constructor; [right; reflexivity | constructor].
    - unfold Streaming.removeConnection. rewrite Hc. simpl. auto.
    - unfold Streaming.broadcast. rewrite Hc. simpl. rewrite Hs. auto.
    - unfold Streaming.sendToChannel.
      destruct (Streaming.mapGet channel
                  (Streaming.subscriptions (Streaming.h_service h))) as [subs|];
        simpl; [|rewrite Hs; auto].
      rewrite trySend_unregistered by exact Hc. simpl. rewrite Hs. auto. }
  apply (Hinv (Streaming.mkHandled Streaming.emptyService [] [])).
  simpl. repeat split. constructor.
Qed.

(** ** More on artifacts and executions *)

Section ManifestFacts.
Import Artifacts.








End ManifestFacts.


(** What X12 does not promise: two files with one base name are
    stored as one.  Both get a manifest entry, with the same path, and
    the path holds the second file. *)
Lemma same_base_name_is_stored_once :
  let c := Artifacts.processArtifacts config "data/results/s1" Artifacts.twoShots
             (fun _ => false) "s1" ∅ in
  map Artifacts.path (Artifacts.screenshots (Artifacts.manifest c))
  = ["data/screenshots/s1-shot.png"; "data/screenshots/s1-shot.png"] /\
  Artifacts.stored c !! "data/screenshots/s1-shot.png"
  = Some "data/results/s1/test-b/shot.png".
Proof. split; vm_compute; reflexivity. Qed.

Section IsolationFacts.
Import Path.

Lemma prefixed_plain (s : string) :
  noSeparator s = true -> isPlainName ("execution-" ++ s)%string = true.
Proof.
  intros H. unfold isPlainName. rewrite noSeparator_app, H. reflexivity.
Qed.

End IsolationFacts.

(** X13.  Two sessions whose ids differ and contain no path separator
    never share a workspace directory, nor a result file. *)
Theorem sessions_have_their_own_files (cfg : Config) (s1 s2 : string) :
  s1 <> s2 ->
  Path.noSeparator s1 = true ->
  Path.noSeparator s2 = true ->
  Executor.workspaceOf cfg s1 <> Executor.workspaceOf cfg s2 /\
  Executor.resultFileOf cfg s1 <> Executor.resultFileOf cfg s2.
Proof.
  intros Hne H1 H2. split.
  - unfold Executor.workspaceOf.
    destruct (join_plain (st_tests (storage cfg))) as [prefix Hjoin].
    rewrite !Hjoin by (apply prefixed_plain; assumption).
    intros E. apply append_inv_head in E. apply append_inv_head in E. exact (Hne E).
  - unfold Executor.resultFileOf.
    destruct (join_plain (st_results (storage cfg))) as [prefix Hjoin].
    change (s1 ++ "-result.json")%string with (Artifacts.storageName s1 "result.json").
    change (s2 ++ "-result.json")%string with (Artifacts.storageName s2 "result.json").
    rewrite !Hjoin by (apply storageName_plain; assumption).
    intros E. apply append_inv_head in E. unfold Artifacts.storageName in E.
    apply append_inv_tail in E. exact (Hne E).
Qed.

Lemma sessions_have_their_own_files_witness :
  Executor.workspaceOf config "s1" <> Executor.workspaceOf config "s2".
Proof.
  refine (proj1 (sessions_have_their_own_files config "s1" "s2" _ _ _));
    [discriminate | reflexivity | reflexivity].
Defined.

Section InstallFacts.
Import Executor.

Lemma chunkEvent_session o e sid c : ev_sessionId (chunkEvent o e sid c) = sid.
Proof. destruct c as [[] data]; reflexivity. Qed.

Lemma chunkEvent_type o e sid c :
  ev_type (chunkEvent o e sid c) = o \/ ev_type (chunkEvent o e sid c) = e.
Proof. destruct c as [[] data]; simpl; auto. Qed.

Lemma installDependencies_events run dir sid :
  exists tail,
    events (installDependencies run dir sid)
    = mkEvent "dependency-installation-started" sid NoData
      :: map (chunkEvent "dependency-output" "dependency-error" sid) (chunks run) ++ tail
    /\ (tail = [] \/
        (tail = [mkEvent "dependency-installation-completed" sid NoData]
         /\ ending run = Close (Some 0%Z))).
Proof.
  unfold installDependencies.
  destruct (ending run) as [[[| |]|]|m]; simpl;
    try (exists []; rewrite app_nil_r; split; [reflexivity | left; reflexivity]).
  eexists. split; [reflexivity|]. right. split; reflexivity.
Qed.

Lemma installDependencies_spawns run dir sid :
  spawns (installDependencies run dir sid) = [mkSpawn "npm" ["install"] dir None].
Proof.
  unfold installDependencies.
  destruct (ending run) as [[[| |]|]|m]; reflexivity.
Qed.

Lemma installDependencies_sessions run dir sid :
  Forall (fun e => ev_sessionId e = sid) (events (installDependencies run dir sid)).
Proof.
  destruct (installDependencies_events run dir sid) as (tail & Hev & Htail).
  rewrite Hev. constructor; [reflexivity|]. apply Forall_app. split.
  - apply Forall_forall. intros e He. apply list_elem_of_In, in_map_iff in He.
    destruct He as (c & <- & _). apply chunkEvent_session.
  - destruct Htail as [-> | [-> _]]; [constructor|].
    constructor; [reflexivity | constructor].
Qed.

End InstallFacts.

(** X14.  [installDependencies] resolves exactly when npm closes with
    exit code 0 (a [null] code rejects like any other), and broadcasts
    dependency-installation-completed exactly then; it always spawns
    one process, npm install in the workspace, and every event it
    broadcasts carries the session id. *)
Theorem installDependencies_resolves_on_zero (run : Executor.ProcessRun)
    (executionDir sid : string) :
  let r := Executor.installDependencies run executionDir sid in
  (Executor.settled r = Resolved tt <-> Executor.ending run = Executor.Close (Some 0%Z)) /\
  (In (Executor.mkEvent "dependency-installation-completed" sid Executor.NoData)
      (Executor.events r)
   <-> Executor.ending run = Executor.Close (Some 0%Z)) /\
  Executor.spawns r = [Executor.mkSpawn "npm" ["install"] executionDir None] /\
  Forall (fun e => Executor.ev_sessionId e = sid) (Executor.events r).
Proof.
  intros r. subst r.
  destruct (installDependencies_events run executionDir sid) as (tail & Hev & Htail).
  split; [|split; [|split]].
  - unfold Executor.installDependencies.
    destruct (Executor.ending run) as [[[| |]|]|m]; simpl; split; intros H;
      try discriminate; reflexivity.
  - rewrite Hev. split.
    + intros [H|H]; [discriminate|]. apply in_app_iff in H. destruct H as [H|H].
      * apply in_map_iff in H. destruct H as (c & Hc & _).
        pose proof (chunkEvent_type "dependency-output" "dependency-error" sid c) as Ht.
        rewrite Hc in Ht. simpl in Ht. destruct Ht; discriminate.
      * destruct Htail as [-> | [-> Hz]]; [destruct H | exact Hz].
    + intros Hz. right. apply in_app_iff. right.
      destruct Htail as [-> | [-> _]].
      * exfalso. unfold Executor.installDependencies in Hev. rewrite Hz in Hev.
        simpl in Hev. injection Hev as Hev. rewrite app_nil_r in Hev.
        apply (f_equal (@length _)) in Hev. rewrite length_app in Hev. simpl in Hev. lia.
      * left. reflexivity.
  - apply installDependencies_spawns.
  - apply installDependencies_sessions.
Qed.

(** X15.  An execution only speaks for its own session and only works
    in its own workspace: whatever the scenario, every event it
    broadcasts carries its session id, every process it spawns is npm
    started in its workspace directory, and it ends in a rejection. *)
Theorem execution_stays_in_its_session (cfg : Config) (sc : Executor.Scenario)
    (req : Executor.Request) (fs : Executor.FileSystem) :
  let ex := Executor.executionBody cfg sc req fs in
  Forall (fun e => Executor.ev_sessionId e = Executor.req_sessionId req)
         (Executor.ex_events ex) /\
  Forall (fun p => Executor.command p = "npm" /\
                   Executor.cwd p = Executor.workspaceOf cfg (Executor.req_sessionId req))
         (Executor.ex_spawns ex) /\
  exists m, Executor.ex_settled ex = Rejected m.
Proof.
  intros ex. subst ex. unfold Executor.executionBody, Executor.createExecutionEnvironment.
  destruct (Executor.sc_create sc) as [[[|n] m]|].
  - repeat split; try constructor. eexists. reflexivity.
  - repeat split; try constructor. eexists. reflexivity.
  - unfold Executor.runTest.
    pose proof (installDependencies_spawns (Executor.sc_install sc)
                  (Executor.workspaceOf cfg (Executor.req_sessionId req))
                  (Executor.req_sessionId req)) as Hsp.
    pose proof (installDependencies_sessions (Executor.sc_install sc)
                  (Executor.workspaceOf cfg (Executor.req_sessionId req))
                  (Executor.req_sessionId req)) as Hev.
    destruct (Executor.settled (Executor.installDependencies (Executor.sc_install sc)
                (Executor.workspaceOf cfg (Executor.req_sessionId req))
                (Executor.req_sessionId req))) as [u|m]; simpl.
    + rewrite !app_nil_r, Hsp. repeat split; [exact Hev | | eexists; reflexivity].
      constructor; [split; reflexivity | constructor].
    + rewrite Hsp. repeat split; [exact Hev | | eexists; reflexivity].
      constructor; [split; reflexivity | constructor].
Qed.

Section SummaryAgreement.
Import Executor.

Lemma processResults_summary cfg ps result sid fs doc :
  ensureResultsDir ps = Normal tt ->
  resultsJson ps = Some (Normal (SuiteTree doc)) ->
  let r := fst (processResults cfg ps result sid fs) in
  exists manifest,
    artifacts r = Some manifest /\
    detailedResults r = Some (SuiteTree doc) /\
    summary r
    = Some (Summary.generateExecutionSummary (status result) (duration result)
              (exitCode result) (Some (Artifacts.manifestCounts manifest)) (Some doc)).
Proof.
  intros He Hj. unfold processResults. rewrite He, Hj. unfold summarize. simpl.
  destruct (writeResult ps); simpl; eexists; repeat split; reflexivity.
Qed.

End SummaryAgreement.

(** X16.  When post-processing gets as far as the summary (the
    results directory exists and results.json parses into a tree of
    suites), the summary
    it attaches agrees with the rest of the result: status, duration
    and exit code are those of the run, the artifact counts are the
    lengths of the manifest's lists, and the test counters are the
    tally of the leaves of the parsed document. *)
Theorem processResults_summary_agrees (cfg : Config) (ps : Executor.PostScenario)
    (result : Executor.ExecutionResult) (sid : string) (fs : Executor.FileSystem)
    (doc : list Summary.Suite) :
  Executor.ensureResultsDir ps = Normal tt ->
  Executor.resultsJson ps
  = Some (Normal (Executor.SuiteTree (Summary.mkDoc (Some doc)))) ->
  let r := fst (Executor.processResults cfg ps result sid fs) in
  exists manifest s,
    Executor.artifacts r = Some manifest /\
    Executor.summary r = Some s /\
    Summary.sum_status s = Executor.status result /\
    Summary.sum_duration s = Executor.duration result /\
    Summary.sum_exitCode s = Executor.exitCode result /\
    Summary.artifactCounts s
      = Summary.mkArtifactCounts
          (length (Artifacts.screenshots manifest)) (length (Artifacts.videos manifest))
          (length (Artifacts.traces manifest)) (length (Artifacts.reports manifest)) /\
    Summary.sum_counts s = Summary.tally (Summary.docTests doc).
Proof.
  intros He Hdoc r.
  destruct (processResults_summary cfg ps result sid fs _ He Hdoc)
    as (manifest & Ha & _ & Hs).
  fold r in Ha, Hs.
  eexists manifest, _. split; [exact Ha|]. split; [exact Hs|].
  simpl. repeat split. rewrite countTestResults_tally. reflexivity.
Qed.

Lemma processResults_summary_agrees_witness :
  exists manifest s,
    Executor.artifacts
      (fst (Executor.processResults config
              (Executor.mkPost (Normal tt)
                 (Some (Normal (Executor.SuiteTree
                                  (Summary.mkDoc (Some Summary.nestedExample)))))
                 (Normal []) (fun _ => false) (Normal tt))
              Executor.exampleResult "s1" Executor.emptyFS)) = Some manifest /\
    Executor.summary
      (fst (Executor.processResults config
              (Executor.mkPost (Normal tt)
                 (Some (Normal (Executor.SuiteTree
                                  (Summary.mkDoc (Some Summary.nestedExample)))))
                 (Normal []) (fun _ => false) (Normal tt))
              Executor.exampleResult "s1" Executor.emptyFS)) = Some s /\
    Summary.sum_counts s = Summary.tally (Summary.docTests Summary.nestedExample).
Proof.
  destruct (processResults_summary_agrees config
              (Executor.mkPost (Normal tt)
                 (Some (Normal (Executor.SuiteTree
                                  (Summary.mkDoc (Some Summary.nestedExample)))))
                 (Normal []) (fun _ => false) (Normal tt))
              Executor.exampleResult "s1" Executor.emptyFS Summary.nestedExample
              eq_refl eq_refl) as (manifest & s & Ha & Hs & _ & _ & _ & _ & Hc).
  exists manifest, s. auto.
Defined.

Section StoreFacts.
Import TestManager.
Context {A : Type} (P Q : A -> Prop) `{!forall x, Decision (P x)} `{!forall x, Decision (Q x)}.

Lemma find_insert_other (l : list A) (i : nat) (x y : A) :
  l !! i = Some x -> ~ P x -> ~ P y ->
  list_find P (<[i := y]> l) = list_find P l.
Proof.
  revert i. induction l as [|a l IH]; intros i Hl Hx Hy; [discriminate|].
  destruct i as [|i]; simpl in *.
  - injection Hl as ->. rewrite !decide_False by assumption. reflexivity.
  - destruct (decide (P a)); [reflexivity|]. rewrite (IH i Hl Hx Hy). reflexivity.
Qed.

Lemma find_snoc_other (l : list A) (y : A) :
  ~ P y -> list_find P (l ++ [y]) = list_find P l.
Proof.
  intros Hy. induction l as [|a l IH]; simpl.
  - rewrite decide_False by assumption. reflexivity.
  - destruct (decide (P a)); [reflexivity|]. rewrite IH. reflexivity.
Qed.

Lemma find_snoc_first (l : list A) (y : A) (r : nat * A) :
  list_find P l = Some r -> list_find P (l ++ [y]) = Some r.
Proof.
  revert r. induction l as [|a l IH]; intros r; simpl; [discriminate|].
  destruct (decide (P a)); [trivial|].
  destruct (list_find P l) as [r'|]; [|discriminate].
  rewrite (IH r' eq_refl). trivial.
Qed.

Lemma find_snoc_new (l : list A) (y : A) :
  list_find P l = None -> P y -> list_find P (l ++ [y]) = Some (length l, y).
Proof.
  intros Hn Hy. induction l as [|a l IH]; simpl in *.
  - rewrite decide_True by assumption. reflexivity.
  - destruct (decide (P a)); [discriminate|].
    destruct (list_find P l); [discriminate|]. rewrite (IH eq_refl). reflexivity.
Qed.

Lemma find_insert_same (l : list A) (i : nat) (x y : A) :
  list_find P l = Some (i, x) -> P y ->
  list_find P (<[i := y]> l) = Some (i, y).
Proof.
  revert i. induction l as [|a l IH]; intros i Hf Hy; simpl in *; [discriminate|].
  destruct (decide (P a)).
  - injection Hf as <- <-. simpl. rewrite decide_True by assumption. reflexivity.
  - destruct (list_find P l) as [[j z]|] eqn:E; [|discriminate].
    simpl in Hf. injection Hf as <- <-. simpl.
    rewrite decide_False by assumption. rewrite (IH j eq_refl Hy). reflexivity.
Qed.

(** Looking for [P] in what a filter keeps, when everything with [P]
    is kept. *)
Lemma find_filter_kept (l : list A) :
  (forall x, P x -> Q x) ->
  snd <$> list_find P (filter Q l) = snd <$> list_find P l.
Proof.
  intros HPQ. induction l as [|a l IH]; [reflexivity|].
  rewrite filter_cons. simpl. destruct (decide (Q a)) as [q|q].
  - simpl. destruct (decide (P a)); [reflexivity|].
    destruct (list_find P (filter Q l)) as [[]|], (list_find P l) as [[]|];
      simpl in *; congruence.
  - rewrite decide_False by (intros p; exact (q (HPQ a p))).
    rewrite IH. destruct (list_find P l) as [[]|]; reflexivity.
Qed.

Lemma find_filter_dropped (l : list A) :
  (forall x, P x -> ~ Q x) -> list_find P (filter Q l) = None.
Proof.
  intros HPQ. apply list_find_None, Forall_forall. intros x Hx p.
  apply list_elem_of_filter in Hx. exact (HPQ x p (proj1 Hx)).
Qed.

Lemma filter_all_length (l : list A) :
  length (filter Q l) = length l <-> Forall Q l.
Proof.
  induction l as [|a l IH]; [split; [constructor | reflexivity]|].
  rewrite filter_cons. pose proof (length_filter Q l) as Hle.
  destruct (decide (Q a)) as [q|q]; simpl.
  - split.
    + intros Hlen. constructor; [exact q|]. apply IH. lia.
    + intros Hall. inversion Hall; subst. f_equal. apply IH. assumption.
  - split; [lia|]. intros Hall. inversion Hall; subst. contradiction.
Qed.

End StoreFacts.

Section TestStoreFacts.
Import TestManager.

Lemma save_ok {A R : Type} (before : JsonFile A) (items : list A) (value : R) :
  save (Normal tt) before items value = mkSaved (Resolved value) (Document (Some items)).
Proof. reflexivity. Qed.

Lemma load_save {A R : Type} (write : Completion unit) (before : JsonFile A)
    (items : list A) (value : R) :
  load (file (save write before items value)) = items \/
  load (file (save write before items value)) = load before.
Proof. destruct write; simpl; auto. Qed.

(** The shape of [saveTest] when the write succeeds. *)
Lemma saveTest_cases (before : JsonFile Test) (td : TestData) (uuid : string)
    (now1 now2 : IsoString) :
  let i := orElse (td_id td) uuid in
  let fresh := mkTest i now1 now2 "1.0.0"
                 (spread (td_fields td) ["id"; "created"; "updated"; "version"]) in
  (exists k old,
      list_find (hasId i) (load before) = Some (k, old) /\
      forall write,
        saveTest before td uuid now1 now2 write
        = save write before (<[k := withCreated (created old) fresh]> (load before))
               (withCreated (created old) fresh)) \/
  (list_find (hasId i) (load before) = None /\
   forall write,
     saveTest before td uuid now1 now2 write
     = save write before (load before ++ [fresh]) fresh).
Proof.
  intros i fresh. unfold saveTest. fold i. fold fresh.
  change (test_id fresh) with i.
  destruct (list_find (hasId i) (load before)) as [[k old]|] eqn:E.
  - left. exists k, old. split; [reflexivity|]. intros write. reflexivity.
  - right. split; [reflexivity|]. intros write. reflexivity.
Qed.

End TestStoreFacts.

(** X17.  After a [saveTest] whose write succeeds, [getTest] with the
    id of the returned test finds exactly the returned test, and every
    other id finds what it found before. *)
Theorem saveTest_then_getTest (before : TestManager.JsonFile TestManager.Test)
    (td : TestManager.TestData) (uuid : string) (now1 now2 : IsoString) :
  let s := TestManager.saveTest before td uuid now1 now2 (Normal tt) in
  exists test,
    TestManager.settled s = Resolved test /\
    TestManager.test_id test = TestManager.orElse (TestManager.td_id td) uuid /\
    TestManager.getTest (TestManager.file s) (TestManager.test_id test) = Some test /\
    forall i, i <> TestManager.test_id test ->
      TestManager.getTest (TestManager.file s) i = TestManager.getTest before i.
Proof.
  intros s. subst s.
  destruct (saveTest_cases before td uuid now1 now2) as [(k & old & Hf & Hs) | (Hf & Hs)];
    rewrite Hs, save_ok; simpl.
  - eexists. split; [reflexivity|]. split; [reflexivity|]. split.
    + unfold TestManager.getTest. simpl.
      erewrite find_insert_same; [reflexivity | exact Hf | reflexivity].
    + intros i Hi. unfold TestManager.getTest. simpl in *.
      apply list_find_Some in Hf as (Hk & Hold & _).
      erewrite find_insert_other; [reflexivity | exact Hk | |].
      * unfold TestManager.hasId in *. congruence.
      * unfold TestManager.hasId. simpl. congruence.
  - eexists. split; [reflexivity|]. split; [reflexivity|]. split.
    + unfold TestManager.getTest. simpl.
      rewrite find_snoc_new; [reflexivity | exact Hf | reflexivity].
    + intros i Hi. unfold TestManager.getTest. simpl in *.
      rewrite find_snoc_other; [reflexivity|].
      unfold TestManager.hasId. simpl. congruence.
Qed.

(** X18.  Ids stay unique: if no two stored tests share an id, that is
    still so after [saveTest] and after [deleteTest], whether or not
    the write succeeds. *)
Theorem store_ids_stay_unique (before : TestManager.JsonFile TestManager.Test)
    (td : TestManager.TestData) (uuid i : string) (now1 now2 : IsoString)
    (write : Completion unit) :
  NoDup (TestManager.test_id <$> TestManager.load before) ->
  NoDup (TestManager.test_id <$>
           TestManager.load (TestManager.file
             (TestManager.saveTest before td uuid now1 now2 write))) /\
  NoDup (TestManager.test_id <$>
           TestManager.load (TestManager.file (TestManager.deleteTest before i write))).
Proof.
  intros Hnd. split.
  - destruct (saveTest_cases before td uuid now1 now2) as [(k & old & Hf & Hs) | (Hf & Hs)];
      rewrite Hs.
    + destruct (load_save write before
                  (<[k := TestManager.withCreated (TestManager.created old)
                            (TestManager.mkTest (TestManager.orElse (TestManager.td_id td) uuid)
                               now1 now2 "1.0.0"
                               (TestManager.spread (TestManager.td_fields td)
                                  ["id"; "created"; "updated"; "version"]))]>
                     (TestManager.load before))
                  (TestManager.withCreated (TestManager.created old)
                     (TestManager.mkTest (TestManager.orElse (TestManager.td_id td) uuid)
                        now1 now2 "1.0.0"
                               (TestManager.spread (TestManager.td_fields td)
                                  ["id"; "created"; "updated"; "version"])))) as [-> | ->];
        [|exact Hnd].
      apply list_find_Some in Hf as (Hk & Hold & _).
      rewrite list_fmap_insert. simpl.
      rewrite list_insert_id; [exact Hnd|].
      rewrite list_lookup_fmap, Hk. simpl. f_equal. exact Hold.
    + destruct (load_save write before
                  (TestManager.load before ++
                     [TestManager.mkTest (TestManager.orElse (TestManager.td_id td) uuid)
                        now1 now2 "1.0.0"
                        (TestManager.spread (TestManager.td_fields td)
                           ["id"; "created"; "updated"; "version"])])
                  (TestManager.mkTest (TestManager.orElse (TestManager.td_id td) uuid)
                     now1 now2 "1.0.0"
                               (TestManager.spread (TestManager.td_fields td)
                                  ["id"; "created"; "updated"; "version"]))) as [-> | ->];
        [|exact Hnd].
      rewrite fmap_app. apply NoDup_app. split; [exact Hnd|]. split.
      * intros x Hx Hin. simpl in Hin. apply list_elem_of_singleton in Hin. subst x.
        apply list_elem_of_fmap in Hx as (t & Ht & Hin).
        apply list_find_None in Hf. rewrite Forall_forall in Hf.
        exact (Hf t Hin (eq_sym Ht)).
      * simpl. apply NoDup_singleton.
  - unfold TestManager.deleteTest.
    destruct (length (filter (TestManager.keeps i) (TestManager.load before))
              =? length (TestManager.load before))%nat; [exact Hnd|].
    destruct (load_save write before (filter (TestManager.keeps i) (TestManager.load before))
                true) as [-> | ->]; [|exact Hnd].
    apply (sublist_NoDup _ _ Hnd). apply fmap_sublist, sublist_filter.
Qed.

Lemma store_ids_stay_unique_witness :
  NoDup (TestManager.test_id <$>
           TestManager.load (TestManager.file
             (TestManager.saveTest TestManager.exampleStore
                (TestManager.mkTestData (Some "t1") []) "u" (ISO 40) (ISO 40) (Normal tt)))).
Proof.
  refine (proj1 (store_ids_stay_unique TestManager.exampleStore
                   (TestManager.mkTestData (Some "t1") []) "u" "t2" (ISO 40) (ISO 40)
                   (Normal tt) _)).
  by_evaluation.
Defined.

Lemma In_spread (object : list (string * string)) (set : list string) (k v : string) :
  In (k, v) (TestManager.spread object set) <-> In (k, v) object /\ ~ In k set.
Proof.
  unfold TestManager.spread, TestManager.isSet. rewrite filter_In. simpl.
  split; intros [Hin Hset]; (split; [exact Hin|]).
  - intros Hk. apply negb_true_iff in Hset.
    assert (Hex : existsb (String.eqb k) set = true).
    { apply existsb_exists. exists k. split; [exact Hk | apply String.eqb_refl]. }
    congruence.
  - apply negb_true_iff. destruct (existsb (String.eqb k) set) eqn:E; [|reflexivity].
    apply existsb_exists in E as (x & Hx & Heq). apply String.eqb_eq in Heq. subst x.
    contradiction.
Qed.

(** X19.  [saveTest] under an id that is already stored replaces that
    test in place: the returned test keeps the stored creation time and
    the number of stored tests is unchanged.  Under a new id the test
    is created at the first clock reading and the store grows by one.
    In both cases the update time is the second clock reading and the
    version is '1.0.0', whatever the caller's object says: of the
    caller's properties exactly those other than [id], [created],
    [updated] and [version] are copied. *)
Theorem saveTest_replaces_or_appends (before : TestManager.JsonFile TestManager.Test)
    (td : TestManager.TestData) (uuid : string) (now1 now2 : IsoString) :
  let s := TestManager.saveTest before td uuid now1 now2 (Normal tt) in
  exists test,
    TestManager.settled s = Resolved test /\
    TestManager.updated test = now2 /\
    TestManager.version test = "1.0.0" /\
    (forall k v,
       In (k, v) (TestManager.fields test) <->
       In (k, v) (TestManager.td_fields td) /\
       ~ In k ["id"; "created"; "updated"; "version"]) /\
    match TestManager.getTest before (TestManager.orElse (TestManager.td_id td) uuid) with
    | Some old =>
        TestManager.created test = TestManager.created old /\
        length (TestManager.load (TestManager.file s)) = length (TestManager.load before)
    | None =>
        TestManager.created test = now1 /\
        length (TestManager.load (TestManager.file s))
        = S (length (TestManager.load before))
    end.
Proof.
  intros s. subst s. unfold TestManager.getTest.
  destruct (saveTest_cases before td uuid now1 now2) as [(k & old & Hf & Hs) | (Hf & Hs)];
    rewrite Hs, save_ok, Hf; simpl.
  - eexists. split; [reflexivity|]. split; [reflexivity|]. split; [reflexivity|].
    split; [intros k' v; apply In_spread|]. split; [reflexivity|]. apply length_insert.
  - eexists. split; [reflexivity|]. split; [reflexivity|]. split; [reflexivity|].
    split; [intros k' v; apply In_spread|]. split; [reflexivity|].
    rewrite length_app. simpl. lia.
Qed.

(** X20.  [deleteTest] with an id that no stored test has rejects with
    'Test not found' and writes nothing, whatever the write would do. *)
Theorem deleteTest_unknown_id_rejects (before : TestManager.JsonFile TestManager.Test)
    (i : string) (write : Completion unit) :
  TestManager.getTest before i = None ->
  TestManager.deleteTest before i write
  = TestManager.mkSaved (Rejected "Test not found") before.
Proof.
  unfold TestManager.getTest, TestManager.deleteTest. intros Hg.
  destruct (list_find (TestManager.hasId i) (TestManager.load before)) as [[]|] eqn:E;
    [discriminate|].
  apply list_find_None in E.
  assert (Hall : Forall (TestManager.keeps i) (TestManager.load before)).
  { eapply Forall_impl; [exact E|]. intros t Ht. exact Ht. }
  apply (proj2 (filter_all_length _ _)) in Hall. rewrite Hall, Nat.eqb_refl. reflexivity.
Qed.

Lemma deleteTest_unknown_id_rejects_witness :
  TestManager.deleteTest TestManager.exampleStore "t9" (Normal tt)
  = TestManager.mkSaved (Rejected "Test not found") TestManager.exampleStore.
Proof.
  apply (deleteTest_unknown_id_rejects TestManager.exampleStore "t9" (Normal tt)).
  reflexivity.
Defined.

(** X21.  [deleteTest] with a stored id, when the write succeeds,
    resolves to [true]; afterwards the id is not found any more (every
    test that had it is gone, not only the first) and every other id
    finds what it found before. *)
Theorem deleteTest_removes_the_id (before : TestManager.JsonFile TestManager.Test)
    (i : string) (old : TestManager.Test) :
  TestManager.getTest before i = Some old ->
  let s := TestManager.deleteTest before i (Normal tt) in
  TestManager.settled s = Resolved true /\
  TestManager.getTest (TestManager.file s) i = None /\
  Forall (fun t => TestManager.test_id t <> i) (TestManager.load (TestManager.file s)) /\
  forall j, j <> i ->
    TestManager.getTest (TestManager.file s) j = TestManager.getTest before j.
Proof.
  unfold TestManager.getTest, TestManager.deleteTest. intros Hg.
  destruct (list_find (TestManager.hasId i) (TestManager.load before)) as [[k t]|] eqn:E;
    [|discriminate].
  apply list_find_Some in E as (Hk & Ht & _).
  destruct (length (filter (TestManager.keeps i) (TestManager.load before))
            =? length (TestManager.load before))%nat eqn:Hlen.
  - exfalso. apply Nat.eqb_eq in Hlen. apply (proj1 (filter_all_length _ _)) in Hlen.
    rewrite Forall_forall in Hlen.
    exact (Hlen t (list_elem_of_lookup_2 _ _ _ Hk) Ht).
  - simpl. split; [reflexivity|]. split; [|split].
    + rewrite find_filter_dropped; [reflexivity|].
      intros x Hx Hkeep. exact (Hkeep Hx).
    + apply Forall_forall. intros x Hx. apply list_elem_of_filter in Hx. exact (proj1 Hx).
    + intros j Hj. apply find_filter_kept.
      intros x Hx Hi. unfold TestManager.hasId in Hx. congruence.
Qed.

Lemma deleteTest_removes_the_id_witness :
  TestManager.getTest
    (TestManager.file (TestManager.deleteTest TestManager.exampleStore "t1" (Normal tt)))
    "t1" = None.
Proof.
  refine (proj1 (proj2 (deleteTest_removes_the_id TestManager.exampleStore "t1"
                          (TestManager.mkTest "t1" (ISO 10) (ISO 10) "1.0.0"
                             [("prompt", "log in")]) _))).
  reflexivity.
Defined.

(** X22.  [saveResult] appends and [getResult] takes the first match,
    so the first result stored for a session is the one [getResult]
    keeps returning: a later result for the same session is stored but
    never found.  Only a session without a stored result finds the new
    one. *)
Theorem getResult_keeps_the_first (before : TestManager.JsonFile TestManager.Result)
    (rd : TestManager.ResultData) (uuid : string) (now : IsoString) (q : string) :
  let s := TestManager.saveResult before rd uuid now (Normal tt) in
  exists result,
    TestManager.settled s = Resolved result /\
    TestManager.sessionId result = TestManager.rd_sessionId rd /\
    TestManager.load (TestManager.file s) = TestManager.load before ++ [result] /\
    TestManager.getResult (TestManager.file s) q
    = match TestManager.getResult before q with
      | Some first => Some first
      | None => if decide (TestManager.rd_sessionId rd = Some q) then Some result else None
      end.
Proof.
  intros s. subst s. unfold TestManager.saveResult. rewrite save_ok. simpl.
  eexists. split; [reflexivity|]. split; [reflexivity|]. split; [reflexivity|].
  unfold TestManager.getResult. simpl.
  destruct (list_find (TestManager.ofSession q) (TestManager.load before)) as [r|] eqn:E.
  - rewrite (find_snoc_first _ _ _ r E). reflexivity.
  - simpl. destruct (decide (TestManager.rd_sessionId rd = Some q)) as [Hq|Hq].
    + rewrite find_snoc_new; [reflexivity | exact E | exact Hq].
    + rewrite find_snoc_other; [rewrite E; reflexivity | exact Hq].
Qed.

Section TagFacts.
Import Generator.

Lemma NoDup_setAdd (x : string) (s : list string) :
  List.NoDup s -> List.NoDup (Streaming.setAdd x s).
Proof.
  intros Hnd. unfold Streaming.setAdd. destruct (Streaming.setHas x s) eqn:E; [exact Hnd|].
  apply NoDup_ListNoDup. apply NoDup_app. split; [apply NoDup_ListNoDup; exact Hnd|]. split.
  - intros y Hy Hin. apply list_elem_of_singleton in Hin. subst y.
    apply list_elem_of_In, setHas_In in Hy. congruence.
  - apply NoDup_singleton.
Qed.

Lemma head_setAdd (x a : string) (s : list string) :
  head (Streaming.setAdd x (a :: s)) = Some a.
Proof. unfold Streaming.setAdd. destruct (Streaming.setHas x (a :: s)); reflexivity. Qed.

Lemma fold_setAdd (l seen : list string) :
  let r := fold_left (fun seen tag => Streaming.setAdd tag seen) l seen in
  (List.NoDup seen -> List.NoDup r) /\
  (forall y, In y r <-> In y seen \/ In y l) /\
  (forall a, head seen = Some a -> head r = Some a).
Proof.
  revert seen. induction l as [|x l IH]; intros seen; simpl.
  - split; [trivial|]. split; [|trivial]. intros y. tauto.
  - destruct (IH (Streaming.setAdd x seen)) as (Hnd & Hin & Hhd).
    split; [|split].
    + intros H. apply Hnd, NoDup_setAdd, H.
    + intros y. rewrite Hin, In_setAdd. intuition.
    + intros a Ha. apply Hhd. destruct seen as [|b seen]; [discriminate|].
      injection Ha as ->. apply head_setAdd.
Qed.

End TagFacts.

(** X23.  The tags of a generated test never repeat, whatever the test
    type and the prompt (a type called like a keyword tag, such as
    'api', is listed once); the first tag is the test type; and
    removing duplicates loses no tag that was pushed. *)
Theorem extractTags_unique_with_type_first (toLowerCase : string -> string)
    (prompt testType : string) :
  let tags := Generator.extractTags toLowerCase prompt testType in
  List.NoDup tags /\
  head tags = Some testType /\
  forall tag, In tag tags <-> In tag (Generator.pushed toLowerCase prompt testType).
Proof.
  intros tags. subst tags. unfold Generator.extractTags, Generator.unique.
  destruct (fold_setAdd (Generator.pushed toLowerCase prompt testType) [])
    as (Hnd & Hin & _).
  split; [apply Hnd; constructor|]. split.
  - unfold Generator.pushed. simpl.
    match goal with
    | |- head (fold_left ?f ?l ?seen) = _ =>
        destruct (fold_setAdd l seen) as (_ & _ & Hhd)
    end.
    apply Hhd. reflexivity.
  - intros tag. rewrite Hin. simpl. tauto.
Qed.

(** X24.  A browser chosen from the prompt is always one of the three
    supported ones, so for a request that names no browser the project
    of the run is one of them and its device is never 'Desktop Edge':
    that device is reachable only through an explicit option. *)
Theorem prompt_browser_is_supported (toLowerCase : string -> string)
    (st : Generator.Settings) (cfg : Config) (prompt testType sid : string)
    (options : Generator.Options) :
  In (Generator.determineBrowser toLowerCase prompt) ["chromium"; "firefox"; "webkit"] /\
  (Generator.o_browser options = None ->
   let pc := Generator.generatePlaywrightConfig cfg
               (Generator.generateMCPConfig toLowerCase st prompt testType options) sid in
   Generator.pc_project pc = Generator.determineBrowser toLowerCase prompt /\
   In (Generator.pc_device pc)
      ["'Desktop Chrome'"; "'Desktop Firefox'"; "'Desktop Safari'"]).
Proof.
  assert (Hb : In (Generator.determineBrowser toLowerCase prompt)
                  ["chromium"; "firefox"; "webkit"]).
  { unfold Generator.determineBrowser.
    repeat match goal with |- context [if ?b then _ else _] => destruct b end;
      simpl; auto. }
  split; [exact Hb|]. intros Hnone. simpl. rewrite Hnone. simpl.
  destruct Hb as [<- | [<- | [<- | []]]]; simpl; auto.
Qed.

(** X25.  Zero is not a setting: whatever the options and the
    configuration, the timeout, the retries and the workers that reach
    the runner's configuration are never 0; an explicit request for 0
    retries gives what no request gives.  The run is headed only when
    headless is explicitly false, in the options or else in the
    configuration. *)
Theorem zero_is_not_a_setting (toLowerCase : string -> string)
    (st : Generator.Settings) (cfg : Config) (prompt testType sid : string)
    (options : Generator.Options) :
  let render o := Generator.generatePlaywrightConfig cfg
                    (Generator.generateMCPConfig toLowerCase st prompt testType o) sid in
  let pc := render options in
  Generator.pc_timeout pc <> 0%Z /\
  Generator.pc_retries pc <> 0%Z /\
  Generator.pc_workers pc <> 0%Z /\
  (Generator.o_retries options = Some 0%Z ->
   forall o', Generator.o_retries o' = None ->
     Generator.pc_retries pc = Generator.pc_retries (render o')) /\
  (Generator.pc_headless pc = false <->
   Generator.o_headless options = Some false \/
   (Generator.o_headless options = None /\ Generator.cfg_headless st = false)).
Proof.
  intros render pc. subst pc render. simpl.
  assert (Hor : forall x d, d <> 0%Z -> Generator.numberOr (Some x) d <> 0%Z).
  { intros x d Hd. unfold Generator.numberOr. destruct (Z.eqb_spec x 0); congruence. }
  split; [apply Hor; discriminate|]. split; [apply Hor; discriminate|].
  split; [apply Hor; discriminate|]. split.
  - intros H0 o' Hn. rewrite H0, Hn. reflexivity.
  - destruct (Generator.o_headless options) as [[]|]; split; intros H;
      try discriminate; try (destruct H as [H | [H H']]; congruence); auto.
Qed.
